(** * MeowAI dataset cleaner: [create_dataset.py]

    A shallow embedding of the breed-folder cleaning pipeline
    ([clean_breed_folder] and the helpers it calls) together with the
    properties of the pipeline that the specification states.

    The pipeline talks to the file system and to four libraries (Pillow,
    OpenCV, TensorFlow/Keras, imagehash).  The file system is modelled as a
    finite map from file names to files, threaded explicitly through every
    call; the libraries are a record of functions on file contents
    ([Extern]), so every definition below runs on a concrete folder once
    such a record is supplied. *)

From Stdlib Require Import ZArith QArith Ascii String List Bool Lia.
From stdpp Require Import base option list gmap strings fin_maps sorting.

Local Open Scope string_scope.
Local Open Scope list_scope.
Local Open Scope Z_scope.

(** ** Python strings: [os.path.splitext], [str.lower], glob patterns *)

Module PyStr.

Definition chars (s : string) : list ascii := list_ascii_of_string s.
Definition of_chars (l : list ascii) : string := string_of_list_ascii l.

Definition is_dot (c : ascii) : bool := Ascii.eqb c "."%char.

(** [p.rfind('.')]: index of the last dot, [None] for Python's [-1]. *)
Fixpoint rfind_dot (l : list ascii) : option nat :=
  match l with
  | [] => None
  | c :: r =>
      match rfind_dot r with
      | Some i => Some (S i)
      | None => if is_dot c then Some O else None
      end
  end.

(** [os.path.splitext] (posixpath's [_splitext]) on a name without a
    directory separator: split at the last dot unless every character
    before it is a dot as well. *)
Definition splitext (p : string) : string * string :=
  let l := chars p in
  match rfind_dot l with
  | Some d =>
      if existsb (fun c => negb (is_dot c)) (firstn d l)
      then (of_chars (firstn d l), of_chars (skipn d l))
      else (p, "")
  | None => (p, "")
  end.

(** [str.lower] on an ASCII letter. *)
Definition lower_char (c : ascii) : ascii :=
  let n := nat_of_ascii c in
  if (Nat.leb 65 n && Nat.leb n 90)%bool then ascii_of_nat (n + 32) else c.

Definition is_byte (n : nat) (c : ascii) : bool := Nat.eqb (nat_of_ascii c) n.

(** [str.lower] on a string held as its UTF-8 bytes.  Two characters
    outside ASCII have a lower case with an ASCII letter in it: U+0130
    (bytes C4 B0) becomes [i] followed by U+0307 (bytes CC 87), and U+212A,
    the Kelvin sign (bytes E2 84 AA), becomes [k].  Every other character
    outside ASCII lower-cases to characters outside ASCII and is left as it
    is: the script compares lower-cased strings with ASCII strings and
    matches them against [[a-z0-9]] only, which cannot tell the two apart. *)
Fixpoint lower_chars (l : list ascii) : list ascii :=
  match l with
  | [] => []
  | c :: r =>
      match r with
      | c2 :: r2 =>
          if (is_byte 196 c && is_byte 176 c2)%bool then
            "i"%char :: ascii_of_nat 204 :: ascii_of_nat 135 :: lower_chars r2
          else
            match r2 with
            | c3 :: r3 =>
                if (is_byte 226 c && is_byte 132 c2 && is_byte 170 c3)%bool
                then "k"%char :: lower_chars r3
                else lower_char c :: lower_chars r
            | [] => lower_char c :: lower_chars r
            end
      | [] => lower_char c :: lower_chars r
      end
  end.

Definition lower (s : string) : string := of_chars (lower_chars (chars s)).

Fixpoint starts_with (pre l : list ascii) : bool :=
  match pre, l with
  | [], _ => true
  | a :: pre', b :: l' => Ascii.eqb a b && starts_with pre' l'
  | _ :: _, [] => false
  end.

Definition endswith (s suf : string) : bool :=
  starts_with (rev (chars suf)) (rev (chars s)).

(** [fnmatch] of a name against the pattern ["*" + ext] as [glob.glob]
    applies it: the name ends with [ext], and a name with a leading dot is
    hidden from a pattern that does not start with one. *)
Definition glob_star (ext name : string) : bool :=
  endswith name ext && negb (starts_with ["."%char] (chars name)).

End PyStr.

(** ** Files, the folder, and the effects the pipeline has on it *)

Definition path := string.
Definition bytes := list Z.

(** A file of the folder: its bytes and two permission bits.  [f_readable]
    is whether [open(path, "rb")] succeeds, [f_locked] whether [os.remove]
    raises on it. *)
Record File := mkFile {
  f_data : bytes;
  f_readable : bool;
  f_locked : bool
}.

(** What the run did to the outside world, in order. *)
Inductive Event :=
| EvRemove (p : path)               (* os.remove(p) succeeded *)
| EvRemoveFailed (p : path)         (* os.remove(p) raised *)
| EvConvert (src out : path)        (* exif_normalize_and_convert_jpg called *)
| EvPHash (p : path).               (* a perceptual hash was requested *)

Record World := mkWorld {
  w_fs : gmap string File;
  w_log : list Event
}.

Definition log_event (w : World) (e : Event) : World :=
  {| w_fs := w_fs w; w_log := w_log w ++ [e] |}.

(** [open(p, "rb").read()]; [None] stands for the raised [OSError]. *)
Definition read_file (w : World) (p : path) : option bytes :=
  match w_fs w !! p with
  | Some f => if f_readable f then Some (f_data f) else None
  | None => None
  end.

Definition os_path_exists (w : World) (p : path) : bool :=
  bool_decide (is_Some (w_fs w !! p)).

(** [os.remove(p)]: the flag is [true] when no exception is raised. *)
Definition os_remove (w : World) (p : path) : World * bool :=
  match w_fs w !! p with
  | Some f =>
      if f_locked f then (log_event w (EvRemoveFailed p), false)
      else ({| w_fs := delete p (w_fs w); w_log := w_log w ++ [EvRemove p] |}, true)
  | None => (log_event w (EvRemoveFailed p), false)
  end.

(** [try: os.remove(p) except Exception: pass] *)
Definition try_remove (w : World) (p : path) : World := fst (os_remove w p).

(** Writing [data] at [p]: a new file is created readable and unlocked, an
    existing one keeps its permission bits. *)
Definition write_file (w : World) (p : path) (data : bytes) : World :=
  let f := match w_fs w !! p with
           | Some old => mkFile data (f_readable old) (f_locked old)
           | None => mkFile data true false
           end in
  {| w_fs := <[p := f]> (w_fs w); w_log := w_log w |}.

Definition is_convert (e : Event) : bool :=
  match e with EvConvert _ _ => true | _ => false end.

Definition is_phash (e : Event) : bool :=
  match e with EvPHash _ => true | _ => false end.

Definition is_removal (e : Event) : bool :=
  match e with EvRemove _ => true | _ => false end.

Definition count_events (f : Event -> bool) (l : list Event) : nat :=
  length (List.filter f l).

(** ** The libraries

    Floats are the rationals they denote: the only float operations of the
    pipeline are [argmax] and one comparison, both exact on finite values. *)

Definition Model := bytes -> option (list Q).

Record Extern := mkExtern {
  (** order in which [glob] meets the names of the folder *)
  listdir : gmap string File -> list string;
  (** [Image.open(p)] followed by [im.load()] does not raise *)
  pil_load : bytes -> bool;
  (** [cv2.imdecode(..., IMREAD_UNCHANGED)]: width and height, [None] when
      it returns [None] or raises *)
  cv2_imdecode : bytes -> option (Z * Z);
  (** [exif_transpose], flattening to RGB and [im.save(.., "JPEG", ..)]:
      the bytes written, [None] when any step raises *)
  jpeg_encode : bytes -> option bytes;
  (** [hashlib.md5(data).hexdigest()] *)
  md5_hex : bytes -> string;
  (** [MobileNetV2(weights="imagenet")]; [None] when the constructor
      raises.  A loaded model maps the bytes of a file to the row
      [preds[0]] (decoding, resizing and [preprocess_input] included),
      [None] when any of these raises. *)
  mobilenet_v2 : option Model;
  (** [int(str(imagehash.phash(im, hash_size=16)), 16)] *)
  imagehash_phash : bytes -> option Z;
  (** [Image.open(p).convert("L").resize((w, h), LANCZOS)] as its
      [getpixel((x, y))] function *)
  pil_gray_resize : bytes -> Z -> Z -> option (Z -> Z -> Z)
}.

(** The module-level flags set by the guarded imports. *)
Record Imports := mkImports {
  PIL_OK : bool;
  TF_OK : bool;
  IMAGEHASH_OK : bool
}.

Record Config := mkConfig {
  min_side : Z;
  jpg_only : bool;
  keep_intermediate : bool;
  remove_near_dup : bool
}.

(** ** Hashes *)

Fixpoint pos_bit_count (p : positive) : Z :=
  match p with
  | xH => 1
  | xO q => pos_bit_count q
  | xI q => 1 + pos_bit_count q
  end.

(** [int.bit_count]: ones in the binary expansion of the absolute value. *)
Definition bit_count (z : Z) : Z :=
  match z with
  | Z0 => 0
  | Zpos p => pos_bit_count p
  | Zneg p => pos_bit_count p
  end.

Definition hamming_distance (a b : Z) : Z := bit_count (Z.lxor a b).

(** [for y in range(hash_size): for x in range(hash_size): diff.append(left > right)] *)
Definition dhash_bits (getpixel : Z -> Z -> Z) (hash_size : nat) : list bool :=
  flat_map (fun y : nat =>
    map (fun x : nat =>
           getpixel (Z.of_nat x) (Z.of_nat y) >? getpixel (Z.of_nat x + 1) (Z.of_nat y))
        (seq 0 hash_size))
    (seq 0 hash_size).

(** [v = 0; for b in diff: v = (v << 1) | int(b)] *)
Definition bits_to_int (diff : list bool) : Z :=
  fold_left (fun v b => Z.lor (Z.shiftl v 1) (Z.b2z b)) diff 0.

(** The literal [6] of the near-duplicate comparison. *)
Definition NEAR_DUP_THRESHOLD : Z := 6.

(** The inner loop over [seen_hashes], with its [break]; the bound is the
    literal [6] in the source and a parameter here. *)
Fixpoint is_dup (thr : Z) (seen_hashes : list (path * Z)) (ph : Z) : bool :=
  match seen_hashes with
  | [] => false
  | (_, prev_h) :: rest =>
      if hamming_distance prev_h ph <=? thr then true else is_dup thr rest ph
  end.

(** ** The classifier *)

Record CatFilter := mkCatFilter {
  threshold : Q;
  disabled : bool;
  model : option Model
}.

(** [np.argmax]: the first index holding the maximum; [None] for the
    [ValueError] on an empty row. *)
Fixpoint argmax_from (best : nat) (bestv : Q) (i : nat) (l : list Q) : nat :=
  match l with
  | [] => best
  | v :: r =>
      if Qle_bool v bestv then argmax_from best bestv (S i) r
      else argmax_from i v (S i) r
  end.

Definition argmax (l : list Q) : option nat :=
  match l with
  | [] => None
  | v :: r => Some (argmax_from O v 1%nat r)
  end.

(** ** Statistics *)

Record CleanStats := mkStats {
  before : nat;
  removed_small : nat;
  removed_broken : nat;
  removed_notcat : nat;
  removed_dup_md5 : nat;
  removed_dup_phash : nat;
  after : nat
}.

Definition stats0 : CleanStats := mkStats 0 0 0 0 0 0 0.

Definition set_before (s : CleanStats) (n : nat) : CleanStats :=
  mkStats n (removed_small s) (removed_broken s) (removed_notcat s)
          (removed_dup_md5 s) (removed_dup_phash s) (after s).
Definition set_after (s : CleanStats) (n : nat) : CleanStats :=
  mkStats (before s) (removed_small s) (removed_broken s) (removed_notcat s)
          (removed_dup_md5 s) (removed_dup_phash s) n.
Definition inc_small (s : CleanStats) : CleanStats :=
  mkStats (before s) (S (removed_small s)) (removed_broken s) (removed_notcat s)
          (removed_dup_md5 s) (removed_dup_phash s) (after s).
Definition inc_broken (s : CleanStats) : CleanStats :=
  mkStats (before s) (removed_small s) (S (removed_broken s)) (removed_notcat s)
          (removed_dup_md5 s) (removed_dup_phash s) (after s).
Definition inc_notcat (s : CleanStats) : CleanStats :=
  mkStats (before s) (removed_small s) (removed_broken s) (S (removed_notcat s))
          (removed_dup_md5 s) (removed_dup_phash s) (after s).
Definition inc_dup_md5 (s : CleanStats) : CleanStats :=
  mkStats (before s) (removed_small s) (removed_broken s) (removed_notcat s)
          (S (removed_dup_md5 s)) (removed_dup_phash s) (after s).
Definition inc_dup_phash (s : CleanStats) : CleanStats :=
  mkStats (before s) (removed_small s) (removed_broken s) (removed_notcat s)
          (removed_dup_md5 s) (S (removed_dup_phash s)) (after s).

(** The sum of the five removal counters. *)
Definition removed_total (s : CleanStats) : nat :=
  (removed_small s + removed_broken s + removed_notcat s
   + removed_dup_md5 s + removed_dup_phash s)%nat.

(** ** The pipeline *)

Section Pipeline.

Variable E : Extern.
Variable I : Imports.

Definition IMAGE_EXTS : list string :=
  [".jpg"; ".jpeg"; ".png"; ".bmp"; ".webp"; ".gif"].

(** [list_images]: one [glob] per extension, concatenated. *)
Definition list_images (w : World) : list path :=
  flat_map (fun e => List.filter (PyStr.glob_star e) (listdir E (w_fs w)))
           IMAGE_EXTS.

(** [file_md5]; [None] stands for the exception of [open]. *)
Definition file_md5 (w : World) (p : path) : option string :=
  match read_file w p with
  | Some d => Some (md5_hex E d)
  | None => None
  end.

(** [ensure_pillow_image(p) is not None].  Only [UnidentifiedImageError]
    and [OSError] are caught there; a decoder failing with another
    exception ends the whole call without a result, and such runs are not
    modelled. *)
Definition ensure_pillow_image (w : World) (p : path) : bool :=
  if negb (PIL_OK I) then false
  else match read_file w p with
       | Some d => pil_load E d
       | None => false
       end.

Definition exif_normalize_and_convert_jpg (w : World) (p out_path : path)
  : World * bool :=
  let w := log_event w (EvConvert p out_path) in
  if negb (PIL_OK I) then (w, false)
  else match read_file w p with
       | Some d =>
           match jpeg_encode E d with
           | Some j => (write_file w out_path j, true)
           | None => (w, false)
           end
       | None => (w, false)
       end.

Definition cv2_read_size (w : World) (p : path) : Z * Z :=
  match read_file w p with
  | Some d =>
      match cv2_imdecode E d with
      | Some (wd, ht) => (wd, ht)
      | None => (0, 0)
      end
  | None => (0, 0)
  end.

(** [simple_dhash]; [None] is the value returned from its [except], also
    reached when the name [Image] is undefined. *)
Definition simple_dhash (w : World) (image_path : path) (hash_size : nat)
  : option Z :=
  if negb (PIL_OK I) then None
  else match read_file w image_path with
       | Some d =>
           match pil_gray_resize E d (Z.of_nat hash_size + 1) (Z.of_nat hash_size) with
           | Some img => Some (bits_to_int (dhash_bits img hash_size))
           | None => None
           end
       | None => None
       end.

(** [CatFilter.__init__] *)
Definition CatFilter_init (thr : Q) (disabled_arg : bool) : CatFilter :=
  let d := disabled_arg || negb (TF_OK I) in
  if d then mkCatFilter thr d None
  else match mobilenet_v2 E with
       | Some m => mkCatFilter thr d (Some m)
       | None => mkCatFilter thr true None
       end.

(** The body of the [try] in [CatFilter.is_cat] up to [top] and [prob];
    [None] stands for an exception raised anywhere in it.  A missing
    Pillow leaves the name [Image] undefined, which raises as well. *)
Definition predict_top (m : Model) (w : World) (p : path) : option (nat * Q) :=
  if negb (PIL_OK I) then None
  else match read_file w p with
       | None => None
       | Some d =>
           match m d with
           | None => None
           | Some preds =>
               match argmax preds with
               | None => None
               | Some top => Some (top, nth top preds 0%Q)
               end
           end
       end.

(** [CatFilter.is_cat] *)
Definition is_cat (cf : CatFilter) (w : World) (p : path) : bool :=
  match disabled cf, model cf with
  | true, _ => true
  | false, None => true
  | false, Some m =>
      match predict_top m w p with
      | Some (top, prob) =>
          (281 <=? Z.of_nat top) && (Z.of_nat top <=? 285)
          && Qle_bool (threshold cf) prob
      | None => false
      end
  end.

(** *** Stage 1: validity, size, conversion to .jpg *)

Definition needs_convert (w : World) (p : path) : bool :=
  let '(base, ext) := PyStr.splitext p in
  let out_jpg := String.append base ".jpg" in
  negb (existsb (String.eqb (PyStr.lower ext)) [".jpg"; ".jpeg"])
  || negb (os_path_exists w out_jpg).

Definition stage1_step (cfg : Config)
    (acc : World * CleanStats * list path) (p : path)
  : World * CleanStats * list path :=
  let '(w, stats, kept_paths) := acc in
  let im_ok := if PIL_OK I then ensure_pillow_image w p else false in
  if negb im_ok && PIL_OK I then
    let '(w1, deleted) := os_remove w p in
    (w1, if deleted then inc_broken stats else stats, kept_paths)
  else
    let '(wd, ht) := cv2_read_size w p in
    if (wd =? 0) || (ht =? 0) || (Z.min wd ht <? min_side cfg) then
      let '(w1, deleted) := os_remove w p in
      (w1, if deleted then inc_small stats else stats, kept_paths)
    else if jpg_only cfg && PIL_OK I then
      let out_jpg := String.append (fst (PyStr.splitext p)) ".jpg" in
      if needs_convert w p then
        let '(w1, ok) := exif_normalize_and_convert_jpg w p out_jpg in
        if ok then
          let w2 := if keep_intermediate cfg then w1 else try_remove w1 p in
          (w2, stats, kept_paths ++ [out_jpg])
        else
          (try_remove w1 p, inc_broken stats, kept_paths)
      else (w, stats, kept_paths ++ [p])
    else (w, stats, kept_paths ++ [p]).

Definition stage1 (cfg : Config) (w : World) (stats : CleanStats)
    (paths : list path) : World * CleanStats * list path :=
  fold_left (stage1_step cfg) paths (w, stats, []).

(** *** Stage 2: the "is cat" filter *)

Definition stage2_step (cf : CatFilter)
    (acc : World * CleanStats * list path) (p : path)
  : World * CleanStats * list path :=
  let '(w, stats, filtered_paths) := acc in
  if is_cat cf w p then (w, stats, filtered_paths ++ [p])
  else (try_remove w p, inc_notcat stats, filtered_paths).

Definition stage2 (cf : CatFilter) (w : World) (stats : CleanStats)
    (kept_paths : list path) : World * CleanStats * list path :=
  fold_left (stage2_step cf) kept_paths (w, stats, []).

(** *** Stage 3: exact duplicates (MD5) *)

Definition stage3_step
    (acc : World * CleanStats * gmap string path * list path) (p : path)
  : World * CleanStats * gmap string path * list path :=
  let '(w, stats, seen_md5, md5_filtered) := acc in
  match file_md5 w p with
  | None => (try_remove w p, inc_broken stats, seen_md5, md5_filtered)
  | Some h =>
      if bool_decide (is_Some (seen_md5 !! h)) then
        (try_remove w p, inc_dup_md5 stats, seen_md5, md5_filtered)
      else
        (w, stats, <[h := p]> seen_md5, md5_filtered ++ [p])
  end.

Definition stage3 (w : World) (stats : CleanStats) (filtered_paths : list path)
  : World * CleanStats * gmap string path * list path :=
  fold_left stage3_step filtered_paths (w, stats, ∅, []).

(** The loop of stage 3 from any state. *)
Definition Stage3State : Type :=
  (World * CleanStats * gmap string path * list path)%type.

Definition scan3 (l : list path) (s : Stage3State) : Stage3State :=
  fold_left stage3_step l s.

(** *** Stage 4: near duplicates (perceptual hash) *)

(** The [try] block computing [ph]; [None] covers both the exception and
    the [None] returned by [simple_dhash], which the source handles
    alike (remove, count as broken, continue). *)
Definition perceptual_hash (w : World) (p : path) : World * option Z :=
  let w := log_event w (EvPHash p) in
  (w, if IMAGEHASH_OK I then
        (if PIL_OK I then
           match read_file w p with
           | Some d => imagehash_phash E d
           | None => None
           end
         else None)
      else simple_dhash w p 16).

Definition stage4_step (thr : Z)
    (acc : World * CleanStats * list (path * Z) * list path) (p : path)
  : World * CleanStats * list (path * Z) * list path :=
  let '(w, stats, seen_hashes, final_paths) := acc in
  let '(w1, oph) := perceptual_hash w p in
  match oph with
  | None => (try_remove w1 p, inc_broken stats, seen_hashes, final_paths)
  | Some ph =>
      if is_dup thr seen_hashes ph then
        (try_remove w1 p, inc_dup_phash stats, seen_hashes, final_paths)
      else
        (w1, stats, seen_hashes ++ [(p, ph)], final_paths ++ [p])
  end.

Definition stage4_loop (thr : Z) (w : World) (stats : CleanStats)
    (md5_filtered : list path)
  : World * CleanStats * list (path * Z) * list path :=
  fold_left (stage4_step thr) md5_filtered (w, stats, [], []).

Definition near_dup_enabled (cfg : Config) : bool :=
  remove_near_dup cfg && (PIL_OK I || IMAGEHASH_OK I).

Definition stage4 (thr : Z) (cfg : Config) (w : World) (stats : CleanStats)
    (md5_filtered : list path) : World * CleanStats * list path :=
  if near_dup_enabled cfg then
    let '(w1, stats1, _, final_paths) := stage4_loop thr w stats md5_filtered in
    (w1, stats1, final_paths)
  else (w, stats, md5_filtered).

(** *** [clean_breed_folder] *)

(** The run with the near-duplicate bound as a parameter. *)
Definition clean_with (thr : Z) (cfg : Config) (cat_filter : CatFilter)
    (w : World) : World * CleanStats :=
  let paths := list_images w in
  let stats := set_before stats0 (length paths) in
  let '(w1, stats1, kept_paths) := stage1 cfg w stats paths in
  let '(w2, stats2, filtered_paths) := stage2 cat_filter w1 stats1 kept_paths in
  let '(w3, stats3, _, md5_filtered) := stage3 w2 stats2 filtered_paths in
  let '(w4, stats4, final_paths) := stage4 thr cfg w3 stats3 md5_filtered in
  (w4, set_after stats4 (length final_paths)).

Definition clean_breed_folder (cfg : Config) (cat_filter : CatFilter)
    (w : World) : World * CleanStats :=
  clean_with NEAR_DUP_THRESHOLD cfg cat_filter w.

End Pipeline.

(** ** Vocabulary of the properties *)

(** *** Counting: the statistics and the log *)

Definition is_remove_failed (e : Event) : bool :=
  match e with EvRemoveFailed _ => true | _ => false end.

(** Number of [os.remove] calls that raised. *)
Definition nfail (w : World) : nat := count_events is_remove_failed (w_log w).
(** Number of perceptual hashes requested. *)
Definition nphash (w : World) : nat := count_events is_phash (w_log w).
(** Number of calls of [exif_normalize_and_convert_jpg]. *)
Definition nconvert (w : World) : nat := count_events is_convert (w_log w).

(** A view of a loop state: the world, the statistics, and how many paths
    the loop has let through so far. *)
Definition LoopView : Type := World * CleanStats * nat.

(** [advances k a b]: going from [a] to [b] consumed [k] paths; each was
    let through or counted in one removal counter, except that up to as many
    as there were failed removals may have been dropped uncounted. *)
Definition advances (k : nat) (a b : LoopView) : Prop :=
  let '(w, st, n) := a in
  let '(w', st', n') := b in
  before st' = before st
  /\ (n' + removed_total st' <= n + removed_total st + k)%nat
  /\ (n + removed_total st + k + nfail w <= n' + removed_total st' + nfail w')%nat
  /\ (nfail w <= nfail w')%nat.

(** [exactly k a b]: the same with nothing dropped uncounted. *)
Definition exactly (k : nat) (a b : LoopView) : Prop :=
  let '(w, st, n) := a in
  let '(w', st', n') := b in
  before st' = before st
  /\ (n' + removed_total st' = n + removed_total st + k)%nat
  /\ (nfail w <= nfail w')%nat.

(** [quiet a b]: no perceptual hash was requested and no near duplicate
    counted between [a] and [b]. *)
Definition quiet (a b : World * CleanStats) : Prop :=
  nphash b.1 = nphash a.1 /\ removed_dup_phash b.2 = removed_dup_phash a.2.

Definition view3 (a : World * CleanStats * list path) : LoopView :=
  (a.1.1, a.1.2, length a.2).
Definition view4 {X : Type} (a : World * CleanStats * X * list path) : LoopView :=
  (a.1.1.1, a.1.1.2, length a.2).
Definition ws3 (a : World * CleanStats * list path) : World * CleanStats := a.1.
Definition ws4 {X : Type} (a : World * CleanStats * X * list path)
  : World * CleanStats := a.1.1.

(** *** The accepted sets of stages 3 and 4 *)

(** No two entries of the accepted set are within [thr] of each other. *)
Definition far_apart (thr : Z) (seen : list (path * Z)) : Prop :=
  forall (i j : nat) (a b : path * Z),
    i <> j -> seen !! i = Some a -> seen !! j = Some b ->
    thr < hamming_distance a.2 b.2.

(** [q] is the first path of [l] whose digest is [h]. *)
Definition first_with (d : path -> option string) (l : list path)
    (q : path) (h : string) : Prop :=
  exists i : nat,
    l !! i = Some q /\ d q = Some h
    /\ forall (j : nat) (c : path), (j < i)%nat -> l !! j = Some c -> d c <> Some h.

Definition has_digest (d : path -> option string) (p : path) : bool :=
  match d p with Some _ => true | None => false end.

Fixpoint hashes_far_apart (thr : Z) (l : list (option Z)) : bool :=
  match l with
  | [] => true
  | None :: _ => false
  | Some h :: r =>
      forallb (fun o => match o with
                        | Some h' => thr <? hamming_distance h h'
                        | None => false
                        end) r
      && hashes_far_apart thr r
  end.

(** *** What a scan leaves on disk

    A scan that started in state [s0] and has gone through the distinct
    paths [pre]: files outside [pre] are as they were, kept files are as
    they were and satisfy [G], and a path that was not kept is gone unless
    its removal raised. *)
Record footprint {S : Type} (world : S -> World) (out : S -> list path)
    (G : path -> Prop) (pre : list path) (s0 s : S) : Prop := {
  fp_outside : forall q, q ∉ pre -> w_fs (world s) !! q = w_fs (world s0) !! q;
  fp_kept : forall q, q ∈ out s ->
    q ∈ pre /\ w_fs (world s) !! q = w_fs (world s0) !! q /\ G q;
  fp_removed : forall q, q ∈ pre -> q ∉ out s ->
    (forall f, w_fs (world s0) !! q = Some f -> f_locked f = false) ->
    w_fs (world s) !! q = None;
  fp_nodup : NoDup (out s)
}.

(** The name matches one of the six patterns of [list_images]. *)
Definition is_image_name (p : string) : bool :=
  existsb (fun e => PyStr.glob_star e p) IMAGE_EXTS.

Definition listable (p : path) : Prop := is_image_name p = true.

(** What [os.listdir] promises: each name of the folder once. *)
Definition listing_sound (E : Extern) : Prop :=
  forall fs : gmap string File,
    NoDup (listdir E fs) /\ forall p, p ∈ listdir E fs <-> is_Some (fs !! p).



(** Every file of [w1] is a file of [w0], unchanged. *)
Definition only_removed (w0 w1 : World) : Prop :=
  forall (q : path) (f : File), w_fs w1 !! q = Some f -> w_fs w0 !! q = Some f.

Definition no_locked_file (w : World) : Prop :=
  forall (p : path) (f : File), w_fs w !! p = Some f -> f_locked f = false.

Definition all_unlocked (w : World) : bool :=
  forallb (fun kv : string * File => negb (f_locked kv.2)) (map_to_list (w_fs w)).

Section Vocabulary.

Context (E : Extern) (I : Imports).

(** The invariant of the loop of stage 3 after the paths [pre], all
    distinct, in terms of the digests [d] the files had on entry. *)
Record stage3_inv (w : World) (stats : CleanStats) (pre : list path)
    (acc : World * CleanStats * gmap string path * list path) : Prop := {
  inv_untouched : forall q, q ∉ pre -> w_fs acc.1.1.1 !! q = w_fs w !! q;
  inv_seen_dom : forall h,
    is_Some (acc.1.2 !! h) <-> exists c, c ∈ pre /\ file_md5 E w c = Some h;
  inv_seen_first : forall h q,
    acc.1.2 !! h = Some q -> first_with (file_md5 E w) pre q h;
  inv_out : forall q,
    q ∈ acc.2 <-> exists h, first_with (file_md5 E w) pre q h;
  inv_dup_count :
    (removed_dup_md5 acc.1.1.2 + length acc.2
     = removed_dup_md5 stats
       + length (List.filter (has_digest (file_md5 E w)) pre))%nat;
  inv_broken_count :
    (removed_broken acc.1.1.2 + length (List.filter (has_digest (file_md5 E w)) pre)
     = removed_broken stats + length pre)%nat;
  inv_deleted : forall q,
    q ∈ pre -> q ∉ acc.2 ->
    (forall f, w_fs w !! q = Some f -> f_locked f = false) ->
    w_fs acc.1.1.1 !! q = None
}.

(** The hash stage 4 would compute for [p]. *)
Definition phash_of (w : World) (p : path) : option Z :=
  (perceptual_hash E I w p).2.

(** [p] decodes and is large enough: stage 1 does not remove it. *)
Definition stage1_ok (cfg : Config) (w : World) (p : path) : bool :=
  (negb (PIL_OK I) || ensure_pillow_image E I w p)
  && (let '(wd, ht) := cv2_read_size E w p in
      negb ((wd =? 0) || (ht =? 0) || (Z.min wd ht <? min_side cfg))).

(** [p] passes stage 1 untouched, is accepted by the classifier and has
    a digest. *)
Definition file_settled (cfg : Config) (cf : CatFilter) (w : World)
    (p : path) : bool :=
  stage1_ok cfg w p
  && (negb (jpg_only cfg && PIL_OK I) || negb (needs_convert w p))
  && is_cat I cf w p
  && has_digest (file_md5 E w) p.

(** Every listed file is settled, no two have the same digest, and, when
    stage 4 runs, all have perceptual hashes farther apart than 6. *)
Definition settled (cfg : Config) (cf : CatFilter) (w : World) : bool :=
  let paths := list_images E w in
  forallb (file_settled cfg cf w) paths
  && bool_decide (NoDup (map (file_md5 E w) paths))
  && (negb (near_dup_enabled I cfg)
      || hashes_far_apart NEAR_DUP_THRESHOLD (map (phash_of w) paths)).

End Vocabulary.

(** ** A concrete folder to run the pipeline on

    The bytes of a toy file spell out what the libraries make of it:
    [[kind; width; height; class; confidence (percent); phash; shade]].
    [kind = 0] is a file that no decoder accepts, [kind = 3] one that
    decodes but cannot be re-encoded. *)

Module Toy.

Definition field (n : nat) (d : bytes) : Z := nth n d 0.

Definition image (w h : Z) (cls conf ph : Z) : bytes := [1; w; h; cls; conf; ph; 0].
Definition garbage : bytes := [0].

Definition one_hot (cls : Z) (conf : Q) : list Q :=
  map (fun i : nat => if Z.of_nat i =? cls then conf else 0%Q) (seq 0 1000).

Definition net : Model :=
  fun d => if field 0 d =? 0 then None
           else Some (one_hot (field 3 d) (field 4 d # 100)).

(** A digest without collisions: the bytes written out in binary. *)
Fixpoint pos_digits (p : positive) : list ascii :=
  match p with
  | xH => ["1"%char]
  | xO q => "0"%char :: pos_digits q
  | xI q => "1"%char :: pos_digits q
  end.

Definition z_digits (z : Z) : list ascii :=
  match z with
  | Z0 => ["0"%char]
  | Zpos p => pos_digits p
  | Zneg p => "-"%char :: pos_digits p
  end.

Definition digest (d : bytes) : string :=
  PyStr.of_chars (flat_map (fun z => z_digits z ++ [","%char]) d).

(** The folder is listed in alphabetical order. *)
Definition sorted_names (fs : gmap string File) : list string :=
  merge_sort (fun a b : string => Is_true (String.leb a b)) (map_to_list fs).*1.

Definition libs : Extern := {|
  listdir := sorted_names;
  pil_load := fun d => negb (field 0 d =? 0);
  cv2_imdecode := fun d => if field 0 d =? 0 then None
                           else Some (field 1 d, field 2 d);
  jpeg_encode := fun d => if (field 0 d =? 0) || (field 0 d =? 3) then None
                          else Some (1 :: tl d);
  md5_hex := digest;
  mobilenet_v2 := Some net;
  imagehash_phash := fun d => if field 0 d =? 0 then None else Some (field 5 d);
  pil_gray_resize := fun d w h =>
    if field 0 d =? 0 then None
    else Some (fun x y => (field 6 d * x + y) mod 256)
|}.

Definition all_ok : Imports := mkImports true true true.
Definition no_imagehash : Imports := mkImports true true false.

Definition file (d : bytes) : File := mkFile d true false.
Definition locked_file (d : bytes) : File := mkFile d true true.

Definition folder (l : list (string * File)) : World :=
  mkWorld (list_to_map l) [].

Definition cfg_plain : Config := mkConfig 128 false false true.
Definition cfg_jpg : Config := mkConfig 128 true false true.

Definition no_filter : CatFilter := mkCatFilter (1 # 5) true None.
Definition cat_filter : CatFilter := mkCatFilter (1 # 5) false (Some net).

End Toy.

(** *** Folders for stage 4 *)

Module NearDupRuns.

Definition cat (ph : Z) : File := Toy.file (Toy.image 200 200 281 90 ph).

(** Four files whose hashes are [63] (bits 0..5), [0], [1984] (bits
    6..10) and [63488] (bits 11..15), scanned in this order. *)
Definition four : World :=
  Toy.folder [("a.jpg", cat 63); ("b.jpg", cat 0);
              ("c.jpg", cat 1984); ("d.jpg", cat 63488)].
Definition four_order : list path := ["a.jpg"; "b.jpg"; "c.jpg"; "d.jpg"].

(** Three files with hashes [0], [63] and [127], scanned in this order. *)
Definition three : World :=
  Toy.folder [("a.jpg", cat 0); ("b.jpg", cat 63); ("c.jpg", cat 127)].
Definition three_order : list path := ["a.jpg"; "b.jpg"; "c.jpg"].

Definition removed_near (thr : Z) (w : World) (order : list path) : nat :=
  removed_dup_phash (stage4 Toy.libs Toy.all_ok thr Toy.cfg_plain w stats0 order).1.2.

Definition kept_near (thr : Z) (w : World) (order : list path) : list path :=
  (stage4 Toy.libs Toy.all_ok thr Toy.cfg_plain w stats0 order).2.

End NearDupRuns.

(** *** A folder for stage 3 *)

Module ExactDupRuns.




End ExactDupRuns.

(** *** Folders for running the cleaner twice *)

Module Reruns.

Definition run (cfg : Config) (cf : CatFilter) (w : World) : World * CleanStats :=
  clean_breed_folder Toy.libs Toy.all_ok cfg cf w.


(** One photograph stored as a PNG. *)
Definition one_png : World :=
  Toy.folder [("a.png", Toy.file [2; 200; 200; 281; 90; 3; 0])].

(** [a.jpg] is not a cat, [a.jpeg] is. *)
Definition jpg_and_jpeg : World :=
  Toy.folder [("a.jpg", Toy.file (Toy.image 200 200 7 90 3));
              ("a.jpeg", Toy.file (Toy.image 300 300 281 90 900))].

(** One photograph stored twice under the same base name. *)
Definition twins : World :=
  Toy.folder [("a.png", Toy.file [2; 200; 200; 281; 90; 3; 0]);
              ("a.bmp", Toy.file [2; 200; 200; 281; 90; 3; 0])].

(** Two different photographs, both already [.jpg]. *)
Definition two_jpgs : World :=
  Toy.folder [("a.jpg", Toy.file (Toy.image 200 200 281 90 0));
              ("b.jpg", Toy.file (Toy.image 300 300 282 80 65535))].

End Reruns.

(** ** The rest of the script: slugs, crawling, the manifest, the report *)

(** *** [slugify]

    A name is held as its UTF-8 bytes.  A character outside ASCII is a
    run of bytes above 127, none of them in [a-z0-9]: whether [strip]
    takes it off as whitespace or the substitution turns it into an
    underscore that [strip("_")] takes off, the slug is the same, so only
    ASCII whitespace is stripped here; lower-casing is [PyStr.lower_chars]. *)

Module Slug.

Definition code (c : ascii) : nat := nat_of_ascii c.

(** [str.isspace] on ASCII: tab to carriage return, the four separators
    28..31, and the space. *)
Definition is_space (c : ascii) : bool :=
  (Nat.leb 9 (code c) && Nat.leb (code c) 13)
  || (Nat.leb 28 (code c) && Nat.leb (code c) 32).

(** The class [[a-z0-9]]. *)
Definition is_lower_alnum (c : ascii) : bool :=
  (Nat.leb 97 (code c) && Nat.leb (code c) 122)
  || (Nat.leb 48 (code c) && Nat.leb (code c) 57).

(** The class [[^a-z0-9]]. *)
Definition not_alnum (c : ascii) : bool := negb (is_lower_alnum c).

Definition underscore : ascii := "_"%char.
Definition is_underscore (c : ascii) : bool := Ascii.eqb c underscore.

Fixpoint lstrip (P : ascii -> bool) (l : list ascii) : list ascii :=
  match l with
  | [] => []
  | c :: r => if P c then lstrip P r else l
  end.

(** [str.strip]: the characters of class [P] taken off both ends. *)
Definition strip (P : ascii -> bool) (l : list ascii) : list ascii :=
  rev (lstrip P (rev (lstrip P l))).

(** [re.sub(CLASS+, "_", s)]: every maximal run of characters of class [P]
    becomes one underscore; [in_run] says that the previous character
    belonged to the run being replaced. *)
Fixpoint sub_runs (P : ascii -> bool) (in_run : bool) (l : list ascii)
  : list ascii :=
  match l with
  | [] => []
  | c :: r =>
      if P c then
        if in_run then sub_runs P true r else underscore :: sub_runs P true r
      else c :: sub_runs P false r
  end.

Definition slugify_chars (name : list ascii) : list ascii :=
  let name := PyStr.lower_chars (strip is_space name) in
  let name := sub_runs (fun c => negb (is_lower_alnum c)) false name in
  strip is_underscore (sub_runs is_underscore false name).

Definition slugify (name : string) : string :=
  PyStr.of_chars (slugify_chars (PyStr.chars name)).

(** No two underscores in a row. *)
Fixpoint no_double_underscore (l : list ascii) : bool :=
  match l with
  | a :: ((b :: _) as r) =>
      negb (is_underscore a && is_underscore b) && no_double_underscore r
  | _ => true
  end.

(** What a slug looks like: letters, digits and single underscores, with
    no underscore at either end. *)
Definition is_slug_char (c : ascii) : bool := is_lower_alnum c || is_underscore c.

Definition first_is (P : ascii -> bool) (l : list ascii) : bool :=
  match l with
  | c :: _ => P c
  | [] => false
  end.

Definition is_slug (l : list ascii) : bool :=
  forallb is_slug_char l && no_double_underscore l
  && negb (first_is is_underscore l) && negb (first_is is_underscore (rev l)).

End Slug.

(** *** [crawl_breed] and the loop of [main] *)

Inductive Engine := EngAuto | EngGoogle | EngBing.

(** A call of a crawler, with the [max_num] it was given. *)
Inductive CrawlCall := CallGoogle (n : Z) | CallBing (n : Z).

(** The two crawlers of icrawler: the folder as the crawl leaves it, and
    whether [crawler.crawl] returned ([true]) or raised ([false]). *)
Record Crawlers := mkCrawlers {
  google_crawl : Z -> World -> World * bool;
  bing_crawl : Z -> World -> World * bool
}.

(** The [max_num] of a call. *)
Definition call_size (c : CrawlCall) : Z :=
  match c with CallGoogle n | CallBing n => n end.

Definition engine_in_auto_google (e : Engine) : bool :=
  match e with EngAuto | EngGoogle => true | EngBing => false end.
Definition engine_in_auto_bing (e : Engine) : bool :=
  match e with EngAuto | EngBing => true | EngGoogle => false end.

Section Crawl.

Variable E : Extern.
Variable I : Imports.
Variable C : Crawlers.

(** [crawl_breed] once its [assert ICRAWLER_OK] has passed: the folder
    afterwards and the crawler calls made, in order. *)
Definition crawl_breed (target_count : Z) (engine : Engine) (max_total : Z)
    (w : World) : World * list CrawlCall :=
  let current := Z.of_nat (length (list_images E w)) in
  if current >=? target_count then (w, [])
  else
    let left := Z.min max_total (target_count - current) in
    if left <=? 0 then (w, [])
    else
      let '(w1, ok, calls) :=
        if engine_in_auto_google engine then
          let '(w1, ok) := google_crawl C left w in (w1, ok, [CallGoogle left])
        else (w, false, []) in
      if negb ok && engine_in_auto_bing engine then
        let '(w2, _) := bing_crawl C left w1 in (w2, calls ++ [CallBing left])
      else (w1, calls).

(** One iteration of the loop of [main] on the folder of one breed: crawl
    when the folder is short of [images_per_breed], then clean. *)
Definition process_breed (images_per_breed : Z) (engine : Engine)
    (max_total : Z) (cfg : Config) (cat_filter : CatFilter) (w : World)
  : World * list CrawlCall * CleanStats :=
  let existing := Z.of_nat (length (list_images E w)) in
  let '(w1, calls) :=
    if existing <? images_per_breed
    then crawl_breed images_per_breed engine max_total w
    else (w, []) in
  let '(w2, stats) := clean_breed_folder E I cfg cat_filter w1 in
  (w2, calls, stats).

End Crawl.

(** *** [scan_and_manifest] *)

(** A row of manifest.csv; [width] and [height] are written with [str]. *)
Record ManifestRow := mkRow {
  row_breed : string;
  row_breed_slug : string;
  row_path : string;
  row_width : Z;
  row_height : Z;
  row_md5 : string
}.

Section Manifest.

Variable E : Extern.

(** The constant list [CAT_BREEDS] of the script. *)
Variable CAT_BREEDS : list string.

(** The inner loop of [scan_and_manifest] over one breed folder. *)
Definition scan_folder (min_side : Z) (breed : string) (w : World)
  : list ManifestRow :=
  flat_map (fun p =>
    let '(wd, ht) := cv2_read_size E w p in
    if Z.min wd ht <? min_side then []
    else match file_md5 E w p with
         | None => []
         | Some md5 =>
             [mkRow breed (Slug.slugify breed)
                    (String.append (Slug.slugify breed) (String.append "/" p))
                    wd ht md5]
         end)
    (list_images E w).

(** [scan_and_manifest]: the dataset directory maps a folder name to the
    files in it; a breed whose folder does not exist is skipped. *)
Definition scan_and_manifest (dataset : gmap string (gmap string File))
    (min_side : Z) : list ManifestRow :=
  flat_map (fun breed =>
    match dataset !! Slug.slugify breed with
    | None => []
    | Some fs => scan_folder min_side breed (mkWorld fs [])
    end)
    CAT_BREEDS.

End Manifest.

(** The constant [CAT_BREEDS] of the script, entry by entry. *)
Definition CAT_BREEDS : list string :=
  ["Abyssinian cat"; "Aegean cat"; "American Bobtail cat";
   "American Curl cat"; "American Ringtail cat"; "American Shorthair cat";
   "American Wirehair cat"; "Arabian Mau cat"; "Asian cat";
   "Asian Semi-longhair cat"; "Australian Mist cat"; "Balinese cat";
   "Bambino cat"; "Bengal cat"; "Birman cat"; "Bombay cat";
   "Brazilian Shorthair cat"; "British Longhair cat";
   "British Shorthair cat"; "Burmese cat"; "Burmilla cat";
   "California Spangled cat"; "Chantilly Tiffany cat"; "Chartreux cat";
   "Chausie cat"; "Cheetoh cat"; "Colorpoint Shorthair cat";
   "Cornish Rex cat"; "Cymric cat"; "Cyprus cat"; "Devon Rex cat";
   "Donskoy cat"; "Dragon Li cat"; "Dwelf cat"; "Egyptian Mau cat";
   "European Burmese cat"; "European Shorthair cat"; "Exotic Shorthair cat";
   "Foldex cat"; "German Rex cat"; "Havana Brown cat"; "Highlander cat";
   "Himalayan cat"; "Japanese Bobtail cat"; "Javanese cat"; "Kanaani cat";
   "Khao Manee cat"; "Korat cat"; "Korean Bobtail cat"; "Korn Ja cat";
   "Kurilian Bobtail cat"; "LaPerm cat"; "Lykoi cat"; "Maine Coon cat";
   "Manx cat"; "Mekong Bobtail cat"; "Minskin cat"; "Napoleon cat";
   "Neva Masquerade cat"; "Munchkin cat"; "Nebelung cat";
   "Norwegian Forest cat"; "Ocicat cat"; "Ojos Azules cat";
   "Oriental Bicolor cat"; "Oriental Longhair cat"; "Oriental Shorthair cat";
   "Persian cat"; "Peterbald cat"; "Pixie-bob cat"; "Ragamuffin cat";
   "Ragdoll cat"; "Russian Blue cat"; "Sam Sawet cat"; "Savannah cat";
   "Scottish Fold cat"; "Scottish Straight cat"; "Selkirk Rex cat";
   "Serengeti cat"; "Serrade Petit cat"; "Siamese cat"; "Siberian cat";
   "Singapura cat"; "Snowshoe cat"; "Sokoke cat"; "Somali cat"; "Sphynx cat";
   "Suphalak cat"; "Thai cat"; "Tonkinese cat"; "Toyger cat"; "Toybob cat";
   "Turkish Angora cat"; "Turkish Van cat"; "Ukrainian Levkoy cat";
   "York Chocolate cat"; "Ural Rex cat"; "American Longhair cat";
   "Bicolor cat breed"; "Calico cat breed"; "Tabby cat breed";
   "Tuxedo cat breed"; "Chinese Li Hua cat"; "Malayan cat"; "Mandarin cat";
   "Mandalay cat"; "Oriental Foreign White cat"; "Black Persian cat";
   "Chinchilla Persian cat"; "Teacup Persian cat"; "Exotic Longhair cat";
   "British Blue cat"; "German Longhair cat"; "Korat Si-Sawat cat";
   "Mokema cat"; "Skookum cat"; "Australian Tiffanie cat";
   "Burmilla Longhair cat"; "Oregon Rex cat"; "Tasman Manx cat";
   "Tennessee Rex cat"; "Thuringian Forest cat"; "Asian Smoke cat";
   "Asian Tabby cat"; "Asian Self cat"; "Bombay European cat";
   "Caracal domestic hybrid cat"; "Chaussie domestic hybrid cat";
   "Cheetoh hybrid cat"; "Jungle Curl cat"; "Highland Lynx cat";
   "Desert Lynx cat"; "Lambkin cat"; "Mandalay Burmese cat"; "Minuet cat";
   "Napoleon Minuet cat"; "Ojos Azules longhair cat";
   "Pixiebob Longhair cat"; "Rex Longhair cat"; "Rex Shorthair cat";
   "Snow Bengal cat"; "Seal Lynx Point Siamese cat";
   "Blue Point Siamese cat"; "Lilac Point Siamese cat";
   "Chocolate Point Siamese cat"; "Colorpoint Persian cat";
   "Himalayan Persian cat"; "Tiffanie cat"; "Tiffany Chantilly cat";
   "Bali cat"; "Balinese Javanese cat"; "American Keuda cat";
   "American Polydactyl cat"; "American Poodle cat";
   "Arabian Mau Longhair cat"; "Asian Longhair cat"; "Basilicata cat";
   "Brazilian Longhair cat"; "British Colourpoint cat";
   "Canadian Sphynx cat"; "Don Sphynx cat"; "Elf cat"; "Dwelf cat";
   "Minskin Dwelf cat"; "Peterbald hairless cat"; "Burmilla Tiffanie cat";
   "Euro-Burmese cat"; "Istanbul cat"; "Mekong Bobtail Longhair cat";
   "Kuril Bobtail Longhair cat"; "Japanese Bobtail Longhair cat";
   "Korean Bobtail Longhair cat"; "Karelian Bobtail cat";
   "American Lynx cat"; "European Maine Coon cat"; "Polish cat breed";
   "Thai Lilac cat"; "Thai Blue Point cat"; "Thai Seal Point cat";
   "Ural Rex Longhair cat"; "Ussuri cat"; "Van kedisi cat";
   "Ankara kedisi cat"; "Aphrodite Giant cat"; "Cyprus Aphrodite cat";
   "Bristol cat"; "California Rex cat"; "Kanaani German cat";
   "Lykoi Shorthair cat"; "Mandalay New Zealand cat"; "Me-kong Bobtail cat";
   "Owyhee Bob cat"; "Pantherette cat"; "Raas cat"; "Safari cat";
   "Savannah F1 cat"; "Savannah F2 cat"; "Savannah F3 cat";
   "Serengeti hybrid cat"; "Sokoke Forest cat"; "Suphalak Thailand cat";
   "Thai Korat cat"; "Toyger striped cat"; "Turkish Van Vankedisi cat";
   "Turkish Angora Ankara kedisi cat"; "York Chocolate Longhair cat";
   "Chausie hybrid cat"; "Asian Burmilla cat"; "Khaomanee cat";
   "Thai Siamese cat"; "Ariègeois cat"; "Brazilian Rex cat";
   "Snowshoe Longhair cat"; "German Rex Longhair cat";
   "Highlander Shorthair cat"; "Highlander Longhair cat";
   "American Curl Longhair cat"; "American Curl Shorthair cat";
   "Siamese Modern cat"; "Siamese Traditional cat"; "Applehead Siamese cat";
   "Old-style Siamese cat"; "Oriental Siamese cat"; "Ceylon cat";
   "Mau Egyptian cat"; "Havana Brown oriental cat"; "Burmese European cat";
   "Burmese American cat"; "British Golden Shaded cat";
   "British Silver Shaded cat"; "British Black Golden Shaded cat";
   "Maine Coon polydactyl cat"; "Ragdoll mitted cat"; "Ragdoll bicolor cat";
   "Ragdoll colorpoint cat"; "Ragamuffin longhair cat";
   "Manx longhair Cymric cat"; "Manx rumpy cat"; "Manx stumpy cat";
   "Siberian Neva Masquerade cat"; "Norwegian Forest longhair cat";
   "Ocicat spotted cat"; "Ocicat classic tabby cat";
   "Ocicat ticked tabby cat"; "Russian Blue Archangel cat";
   "Khao Manee Diamond Eye cat"; "Korat Si-Sawat Blue cat";
   "Bengal snow lynx point cat"; "Bengal marble cat"; "Bengal spotted cat";
   "Persian doll face cat"; "Persian flat face cat";
   "Selkirk Rex Longhair cat"; "Selkirk Rex Shorthair cat";
   "Scottish Fold Longhair cat"; "Scottish Fold Shorthair cat";
   "Scottish Straight Longhair cat"; "Scottish Straight Shorthair cat";
   "Oriental Foreign White Longhair cat";
   "Oriental Foreign White Shorthair cat"; "Balinese modern cat";
   "Javanese longhair cat"; "Japanese Bobtail Mi-ke cat";
   "Japanese Bobtail calico cat"; "Turkish Van swimming cat";
   "Himalayan colorpoint Persian cat"; "Exotic Shorthair flat face cat";
   "Exotic Longhair Persian type cat"].

(** The [after] that the cleaner reports for the folder of a breed, [0]
    when the folder does not exist. *)
Definition folder_after (E : Extern) (I : Imports) (cfg : Config)
    (cf : CatFilter) (dataset : gmap string (gmap string File))
    (breed : string) : nat :=
  match dataset !! Slug.slugify breed with
  | Some fs => after (clean_breed_folder E I cfg cf (mkWorld fs [])).2
  | None => O
  end.

(** The rows of the manifest written for the breed [breed]. *)
Definition rows_of_breed (breed : string) (rows : list ManifestRow)
  : list ManifestRow :=
  List.filter (fun r => String.eqb (row_breed r) breed) rows.

(** *** The report of [main] *)

(** ["is_cat_filter_enabled": not args.no_is_cat and TF_OK] *)
Definition report_is_cat_filter_enabled (I : Imports) (no_is_cat : bool) : bool :=
  negb no_is_cat && TF_OK I.

(** ["near_dup_removal": not args.no_near_dup] *)
Definition report_near_dup_removal (no_near_dup : bool) : bool :=
  negb no_near_dup.

(** The filter really classifies: it is enabled and holds a model. *)
Definition filter_active (cf : CatFilter) : bool :=
  negb (disabled cf) && bool_decide (is_Some (model cf)).

(** *** The grid of the difference hash *)

(** The cells [(x, y)] in the order in which [simple_dhash] visits them. *)
Definition dhash_cells (hash_size : nat) : list (nat * nat) :=
  flat_map (fun y : nat => map (fun x : nat => (x, y)) (seq 0 hash_size))
           (seq 0 hash_size).

(** [left > right] at a cell. *)
Definition brighter_left (img : Z -> Z -> Z) (c : nat * nat) : bool :=
  img (Z.of_nat c.1) (Z.of_nat c.2) >? img (Z.of_nat c.1 + 1) (Z.of_nat c.2).

(** * Properties *)

(** ** The file system primitives *)

Lemma os_remove_fs (w : World) (p : path) :
  w_fs (try_remove w p) = w_fs w \/ w_fs (try_remove w p) = delete p (w_fs w).
Proof.
  unfold try_remove, os_remove.
  destruct (w_fs w !! p) as [f|]; [destruct (f_locked f)|]; simpl; auto.
Qed.

Lemma try_remove_lookup_other (w : World) (p q : path) :
  p <> q -> w_fs (try_remove w p) !! q = w_fs w !! q.
Proof.
  intros Hne. destruct (os_remove_fs w p) as [-> | ->]; [done|].
  by rewrite lookup_delete_ne.
Qed.

Lemma try_remove_gone (w : World) (p : path) :
  (forall f, w_fs w !! p = Some f -> f_locked f = false) ->
  w_fs (try_remove w p) !! p = None.
Proof.
  intros Hl. unfold try_remove, os_remove.
  destruct (w_fs w !! p) as [f|] eqn:Hf; simpl; [|done].
  rewrite (Hl f eq_refl). simpl. apply lookup_delete_eq.
Qed.

(** ** The classifier *)

Section Classifier.

Context (E : Extern) (I : Imports).

Lemma stage2_step_accept cf w stats fl p :
  is_cat I cf w p = true ->
  stage2_step I cf (w, stats, fl) p = (w, stats, fl ++ [p]).
Proof. intros H. unfold stage2_step. by rewrite H. Qed.

Lemma stage2_step_reject cf w stats fl p :
  is_cat I cf w p = false ->
  stage2_step I cf (w, stats, fl) p = (try_remove w p, inc_notcat stats, fl).
Proof. intros H. unfold stage2_step. by rewrite H. Qed.

Lemma stage2_all_pass cf :
  (forall w p, is_cat I cf w p = true) ->
  forall kept w stats fl,
    fold_left (stage2_step I cf) kept (w, stats, fl) = (w, stats, fl ++ kept).
Proof.
  intros Hall. induction kept as [|p kept IH]; intros w stats fl; cbn [fold_left].
  - by rewrite app_nil_r.
  - rewrite stage2_step_accept by apply Hall.
    rewrite IH, <- app_assoc. reflexivity.
Qed.

(** C5: a classifier that is switched off ([--no-is-cat]), or whose
    TensorFlow import failed, or whose model failed to load, accepts every
    file: [is_cat] is [true] on every input, and the classification stage
    returns the world (files and log), the statistics and the list of
    paths it was given, so that it removes nothing and leaves
    [removed_notcat] as it was. *)
Theorem classifier_off_is_permissive (thr : Q) (no_is_cat : bool) :
  no_is_cat = true \/ TF_OK I = false \/ mobilenet_v2 E = None ->
  let cf := CatFilter_init E I thr no_is_cat in
  (forall w p, is_cat I cf w p = true)
  /\ (forall w stats kept_paths,
        stage2 I cf w stats kept_paths = (w, stats, kept_paths)).
Proof.
  intros Hoff cf.
  assert (Hcat : forall w p, is_cat I cf w p = true).
  { intros w p. unfold is_cat, cf, CatFilter_init.
    destruct no_is_cat; simpl; [reflexivity|].
    destruct (TF_OK I); simpl; [|reflexivity].
    destruct (mobilenet_v2 E) as [m|]; simpl; [|reflexivity].
    destruct Hoff as [H | [H | H]]; discriminate. }
  split; [exact Hcat|].
  intros w stats kept. unfold stage2.
  by rewrite (stage2_all_pass cf Hcat).
Qed.

(** [np.argmax] returns an index of the row holding its largest entry. *)
Lemma argmax_from_spec (l : list Q) : forall best bestv i pre,
  length pre = i -> (best < i)%nat -> nth best pre 0%Q = bestv ->
  (forall j, (j < i)%nat -> (nth j pre 0 <= bestv)%Q) ->
  let top := argmax_from best bestv i l in
  (top < i + length l)%nat
  /\ (forall j, (j < i + length l)%nat ->
        (nth j (pre ++ l) 0 <= nth top (pre ++ l) 0)%Q).
Proof.
  induction l as [|v r IH]; intros best bestv i pre Hlen Hb Hbv Hmax; simpl.
  - rewrite app_nil_r, Nat.add_0_r. split; [lia|].
    intros j Hj. rewrite Hbv. by apply Hmax.
  - replace (pre ++ v :: r) with ((pre ++ [v]) ++ r) by (by rewrite <- app_assoc).
    replace (i + S (length r))%nat with (S i + length r)%nat by lia.
    destruct (Qle_bool v bestv) eqn:Hle.
    + apply Qle_bool_iff in Hle.
      apply IH.
      * rewrite length_app. simpl. lia.
      * lia.
      * rewrite app_nth1 by lia. exact Hbv.
      * intros j Hj. destruct (decide (j < i)%nat) as [Hlt|Hge].
        -- rewrite app_nth1 by lia. by apply Hmax.
        -- assert (j = i) as -> by lia.
           rewrite app_nth2 by lia. rewrite Hlen, Nat.sub_diag. exact Hle.
    + assert (Hlt : (bestv < v)%Q).
      { apply Qnot_le_lt. intros Hc. apply Qle_bool_iff in Hc. congruence. }
      apply IH.
      * rewrite length_app. simpl. lia.
      * lia.
      * rewrite app_nth2 by lia. by rewrite Hlen, Nat.sub_diag.
      * intros j Hj. destruct (decide (j < i)%nat) as [Hlt'|Hge].
        -- rewrite app_nth1 by lia.
           apply Qle_trans with bestv; [by apply Hmax | by apply Qlt_le_weak].
        -- assert (j = i) as -> by lia.
           rewrite app_nth2 by lia. rewrite Hlen, Nat.sub_diag. apply Qle_refl.
Qed.

Lemma argmax_spec (l : list Q) (top : nat) :
  argmax l = Some top ->
  (top < length l)%nat
  /\ (forall j, (j < length l)%nat -> (nth j l 0 <= nth top l 0)%Q).
Proof.
  destruct l as [|v r]; simpl; [discriminate|].
  intros [= <-].
  destruct (argmax_from_spec r O v 1%nat [v]) as [H1 H2].
  - reflexivity.
  - lia.
  - reflexivity.
  - intros j Hj. assert (j = O) as -> by lia. apply Qle_refl.
  - split; [simpl in H1; lia|].
    intros j Hj. apply (H2 j). simpl. lia.
Qed.

(** ... and the first such index: every entry before it is smaller. *)
Lemma argmax_from_first (l : list Q) : forall best bestv i pre,
  length pre = i -> (best < i)%nat -> nth best pre 0%Q = bestv ->
  (forall j, (j < i)%nat -> (nth j pre 0 <= bestv)%Q) ->
  (forall j, (j < best)%nat -> (nth j pre 0 < bestv)%Q) ->
  let top := argmax_from best bestv i l in
  forall j, (j < top)%nat -> (nth j (pre ++ l) 0 < nth top (pre ++ l) 0)%Q.
Proof.
  induction l as [|v r IH]; intros best bestv i pre Hlen Hb Hbv Hmax Hfirst; simpl.
  - rewrite app_nil_r. intros j Hj. rewrite Hbv. by apply Hfirst.
  - replace (pre ++ v :: r) with ((pre ++ [v]) ++ r) by (by rewrite <- app_assoc).
    destruct (Qle_bool v bestv) eqn:Hle.
    + apply Qle_bool_iff in Hle.
      apply IH.
      * rewrite length_app. simpl. lia.
      * lia.
      * rewrite app_nth1 by lia. exact Hbv.
      * intros j Hj. destruct (decide (j < i)%nat) as [Hlt|Hge].
        -- rewrite app_nth1 by lia. by apply Hmax.
        -- assert (j = i) as -> by lia.
           rewrite app_nth2 by lia. rewrite Hlen, Nat.sub_diag. exact Hle.
      * intros j Hj. rewrite app_nth1 by lia. by apply Hfirst.
    + assert (Hlt : (bestv < v)%Q).
      { apply Qnot_le_lt. intros Hc. apply Qle_bool_iff in Hc. congruence. }
      apply IH.
      * rewrite length_app. simpl. lia.
      * lia.
      * rewrite app_nth2 by lia. by rewrite Hlen, Nat.sub_diag.
      * intros j Hj. destruct (decide (j < i)%nat) as [Hlt'|Hge].
        -- rewrite app_nth1 by lia.
           apply Qle_trans with bestv; [by apply Hmax | by apply Qlt_le_weak].
        -- assert (j = i) as -> by lia.
           rewrite app_nth2 by lia. rewrite Hlen, Nat.sub_diag. apply Qle_refl.
      * intros j Hj. rewrite app_nth1 by lia.
        apply Qle_lt_trans with bestv; [by apply Hmax | exact Hlt].
Qed.

Lemma argmax_first (l : list Q) (top : nat) :
  argmax l = Some top ->
  forall j, (j < top)%nat -> (nth j l 0 < nth top l 0)%Q.
Proof.
  destruct l as [|v r]; simpl; [discriminate|].
  intros [= <-].
  apply (argmax_from_first r O v 1%nat [v]).
  - reflexivity.
  - lia.
  - reflexivity.
  - intros j Hj. assert (j = O) as -> by lia. apply Qle_refl.
  - intros j Hj. lia.
Qed.

Lemma argmax_nonempty (l : list Q) : l <> [] -> exists top, argmax l = Some top.
Proof. destruct l as [|v r]; [done|]. intros _. by eexists. Qed.

(** When the [try] of [is_cat] raises: Pillow is missing, the file cannot
    be opened, the model pipeline raises, or the row is empty. *)
Lemma predict_top_raises (m : Model) (w : World) (p : path) :
  predict_top I m w p = None <->
  PIL_OK I = false
  \/ read_file w p = None
  \/ exists d, read_file w p = Some d /\ (m d = None \/ m d = Some []).
Proof.
  unfold predict_top.
  destruct (PIL_OK I); simpl; [|by split; auto].
  destruct (read_file w p) as [d|]; [|by split; auto].
  destruct (m d) as [preds|] eqn:Hm.
  - destruct preds as [|v r]; simpl.
    + split; [|done]. intros _. right. right. exists d. auto.
    + split; [done|]. intros [H | [H | (d' & Hd & [H | H])]]; congruence.
  - split; [|done]. intros _. right. right. exists d. auto.
Qed.

(** C7: with the classifier enabled and loaded, a file is accepted exactly
    when the top class of the model's output lies in 281..285 and its
    confidence is at least the threshold.  The top class and its
    confidence exist whenever Pillow is there, the file can be read and
    the model returns a row that is not empty: [top] is then the first
    index of the largest entry of the row and [prob] that entry; in
    every other case nothing is predicted and the file is rejected.  An
    accepted file is handed on and nothing changes.  A rejected file is
    handed to [os.remove], after which it is gone unless the removal
    raises, no other file is touched, and it is counted in
    [removed_notcat] and nowhere else. *)
Theorem is_cat_accepts_iff (cf : CatFilter) (m : Model) (w : World)
    (stats : CleanStats) (fl : list path) (p : path) :
  disabled cf = false -> model cf = Some m ->
  (is_cat I cf w p = true <->
     exists top prob,
       predict_top I m w p = Some (top, prob)
       /\ 281 <= Z.of_nat top <= 285
       /\ (threshold cf <= prob)%Q)
  /\ (forall top prob,
        predict_top I m w p = Some (top, prob) ->
        exists d preds,
          read_file w p = Some d /\ m d = Some preds
          /\ (top < length preds)%nat /\ prob = nth top preds 0%Q
          /\ forall j, (j < length preds)%nat -> (nth j preds 0 <= prob)%Q)
  /\ (is_cat I cf w p = true ->
        stage2_step I cf (w, stats, fl) p = (w, stats, fl ++ [p]))
  /\ (is_cat I cf w p = false ->
        stage2_step I cf (w, stats, fl) p
          = (try_remove w p, inc_notcat stats, fl)
        /\ removed_notcat (inc_notcat stats) = S (removed_notcat stats)
        /\ removed_total (inc_notcat stats) = S (removed_total stats))
  /\ (forall d preds,
        PIL_OK I = true -> read_file w p = Some d -> m d = Some preds ->
        preds <> [] ->
        exists top,
          predict_top I m w p = Some (top, nth top preds 0%Q)
          /\ (top < length preds)%nat
          /\ (forall j, (j < length preds)%nat ->
                (nth j preds 0 <= nth top preds 0)%Q)
          /\ (forall j, (j < top)%nat -> (nth j preds 0 < nth top preds 0)%Q))
  /\ (predict_top I m w p = None <->
        PIL_OK I = false
        \/ read_file w p = None
        \/ exists d, read_file w p = Some d /\ (m d = None \/ m d = Some []))
  /\ (predict_top I m w p = None -> is_cat I cf w p = false)
  /\ (is_cat I cf w p = false ->
        (forall q, q <> p ->
           w_fs (stage2_step I cf (w, stats, fl) p).1.1 !! q = w_fs w !! q)
        /\ ((forall f, w_fs w !! p = Some f -> f_locked f = false) ->
            w_fs (stage2_step I cf (w, stats, fl) p).1.1 !! p = None)
        /\ removed_small (stage2_step I cf (w, stats, fl) p).1.2
           = removed_small stats
        /\ removed_broken (stage2_step I cf (w, stats, fl) p).1.2
           = removed_broken stats
        /\ removed_dup_md5 (stage2_step I cf (w, stats, fl) p).1.2
           = removed_dup_md5 stats
        /\ removed_dup_phash (stage2_step I cf (w, stats, fl) p).1.2
           = removed_dup_phash stats).
Proof.
  intros Hd Hm.
  split; [|split; [|split; [|split; [|split; [|split; [|split]]]]]].
  - split.
    + unfold is_cat. rewrite Hd, Hm.
      destruct (predict_top I m w p) as [[top prob]|]; [|discriminate].
      intros H. apply andb_true_iff in H as [H1 H3].
      apply andb_true_iff in H1 as [H1 H2].
      exists top, prob. repeat split; try lia.
      by apply Qle_bool_iff.
    + intros (top & prob & Hp & [H1 H2] & H3).
      unfold is_cat. rewrite Hd, Hm, Hp.
      apply andb_true_iff; split; [apply andb_true_iff; split; lia|].
      by apply Qle_bool_iff.
  - intros top prob. unfold predict_top.
    destruct (PIL_OK I); simpl; [|discriminate].
    destruct (read_file w p) as [d|]; [|discriminate].
    destruct (m d) as [preds|] eqn:Hmd; [|discriminate].
    destruct (argmax preds) as [t|] eqn:Ha; [|discriminate].
    intros [= <- <-]. apply argmax_spec in Ha as [Hlt Hmax].
    exists d, preds. repeat split; auto.
  - apply stage2_step_accept.
  - intros Hrej. split; [by apply stage2_step_reject|].
    unfold removed_total, inc_notcat. simpl. lia.
  - intros d preds HP Hr Hmd Hne.
    destruct (argmax_nonempty preds Hne) as [top Ha].
    exists top. unfold predict_top. rewrite HP, Hr, Hmd, Ha. cbn [negb].
    split; [reflexivity|].
    destruct (argmax_spec preds top Ha) as [Hlt Hmax].
    split; [done|]. split; [done|]. by apply argmax_first.
  - apply predict_top_raises.
  - intros Hp. unfold is_cat. by rewrite Hd, Hm, Hp.
  - intros Hrej. rewrite (stage2_step_reject cf w stats fl p Hrej). cbn [fst snd].
    split; [intros q Hq; by apply try_remove_lookup_other|].
    split; [apply try_remove_gone|]. by repeat split.
Qed.

(** C9: when the classifier is enabled and loaded and anything raises
    inside the [try] of [is_cat], the answer is [False]: the file goes to
    [os.remove] (and is gone afterwards unless the removal itself raises),
    it is dropped from the list, and it is counted in [removed_notcat]
    while [removed_broken] stays as it was. *)
Theorem classifier_exception_is_notcat (cf : CatFilter) (m : Model)
    (w : World) (stats : CleanStats) (fl : list path) (p : path) :
  disabled cf = false -> model cf = Some m ->
  predict_top I m w p = None ->
  is_cat I cf w p = false
  /\ stage2_step I cf (w, stats, fl) p = (try_remove w p, inc_notcat stats, fl)
  /\ removed_notcat (inc_notcat stats) = S (removed_notcat stats)
  /\ removed_broken (inc_notcat stats) = removed_broken stats
  /\ ((forall f, w_fs w !! p = Some f -> f_locked f = false) ->
      w_fs (try_remove w p) !! p = None).
Proof.
  intros Hd Hm Hp.
  assert (Hc : is_cat I cf w p = false).
  { unfold is_cat. by rewrite Hd, Hm, Hp. }
  repeat split; auto.
  - by apply stage2_step_reject.
  - apply try_remove_gone.
Qed.

End Classifier.

(** ** Counting: what each stage does to the statistics and to the log *)

Lemma count_events_snoc (f : Event -> bool) (l : list Event) (e : Event) :
  count_events f (l ++ [e]) = (count_events f l + if f e then 1 else 0)%nat.
Proof.
  unfold count_events. rewrite List.filter_app, length_app. simpl.
  destruct (f e); simpl; lia.
Qed.

Lemma os_remove_log (w w1 : World) (p : path) (deleted : bool) :
  os_remove w p = (w1, deleted) ->
  w_log w1 = w_log w ++ [if deleted then EvRemove p else EvRemoveFailed p].
Proof.
  unfold os_remove.
  destruct (w_fs w !! p) as [f|]; [destruct (f_locked f)|]; intros [= <- <-]; reflexivity.
Qed.

Lemma advances_refl a : advances 0 a a.
Proof. destruct a as [[w st] n]. unfold advances. repeat split; lia. Qed.

Lemma advances_trans k1 k2 a b c :
  advances k1 a b -> advances k2 b c -> advances (k1 + k2) a c.
Proof.
  destruct a as [[w st] n], b as [[w' st'] n'], c as [[w'' st''] n''].
  unfold advances. intros (? & ? & ? & ?) (? & ? & ? & ?).
  repeat split; lia.
Qed.

Lemma exactly_refl a : exactly 0 a a.
Proof. destruct a as [[w st] n]. unfold exactly. repeat split; lia. Qed.

Lemma exactly_trans k1 k2 a b c :
  exactly k1 a b -> exactly k2 b c -> exactly (k1 + k2) a c.
Proof.
  destruct a as [[w st] n], b as [[w' st'] n'], c as [[w'' st''] n''].
  unfold exactly. intros (? & ? & ?) (? & ? & ?).
  repeat split; lia.
Qed.

Lemma quiet_refl a : quiet a a.
Proof. by split. Qed.

Lemma quiet_trans a b c : quiet a b -> quiet b c -> quiet a c.
Proof. unfold quiet. intros [? ?] [? ?]. split; congruence. Qed.

(** A loop whose every iteration is related by [R 1] relates its ends by
    [R (length l)]. *)
Lemma fold_left_counted {A B : Type} (R : nat -> LoopView -> LoopView -> Prop)
    (view : A -> LoopView) (f : A -> B -> A) :
  (forall a, R O a a) ->
  (forall k1 k2 a b c, R k1 a b -> R k2 b c -> R (k1 + k2)%nat a c) ->
  (forall a b, R 1%nat (view a) (view (f a b))) ->
  forall l a, R (length l) (view a) (view (fold_left f l a)).
Proof.
  intros Hrefl Htrans Hstep. induction l as [|b l IH]; intros a; cbn [fold_left length].
  - apply Hrefl.
  - change (S (length l)) with (1 + length l)%nat.
    eapply Htrans; [apply Hstep | apply IH].
Qed.

Lemma fold_left_quiet {A B : Type} (view : A -> World * CleanStats)
    (f : A -> B -> A) :
  (forall a b, quiet (view a) (view (f a b))) ->
  forall l a, quiet (view a) (view (fold_left f l a)).
Proof.
  intros Hstep. induction l as [|b l IH]; intros a; cbn [fold_left].
  - apply quiet_refl.
  - eapply quiet_trans; [apply Hstep | apply IH].
Qed.

Ltac stats_arith :=
  unfold advances, exactly, quiet, view3, view4, ws3, ws4, removed_total,
    inc_small, inc_broken, inc_notcat, inc_dup_md5, inc_dup_phash;
  cbn [fst snd before removed_small removed_broken removed_notcat
       removed_dup_md5 removed_dup_phash after];
  rewrite ?length_app; cbn [length];
  repeat split; try lia.

Section Accounting.

Context (E : Extern) (I : Imports).

Lemma os_remove_counts w w1 p deleted :
  os_remove w p = (w1, deleted) ->
  nfail w1 = (nfail w + if deleted then 0 else 1)%nat
  /\ nphash w1 = nphash w /\ nconvert w1 = nconvert w.
Proof.
  intros H. apply os_remove_log in H. unfold nfail, nphash, nconvert.
  rewrite H, !count_events_snoc. destruct deleted; simpl; lia.
Qed.

Lemma try_remove_counts w p :
  (nfail w <= nfail (try_remove w p))%nat
  /\ nphash (try_remove w p) = nphash w
  /\ nconvert (try_remove w p) = nconvert w.
Proof.
  unfold try_remove. destruct (os_remove w p) as [w1 d] eqn:Hr.
  apply os_remove_counts in Hr as (H1 & H2 & H3). simpl.
  repeat split; try done. destruct d; lia.
Qed.

Lemma convert_log w w1 p out ok :
  exif_normalize_and_convert_jpg E I w p out = (w1, ok) ->
  w_log w1 = w_log w ++ [EvConvert p out].
Proof.
  unfold exif_normalize_and_convert_jpg.
  destruct (negb (PIL_OK I)); [by intros [= <- <-]|].
  destruct (read_file _ p) as [d|]; [|by intros [= <- <-]].
  destruct (jpeg_encode E d); by intros [= <- <-].
Qed.

Lemma convert_counts w w1 p out ok :
  exif_normalize_and_convert_jpg E I w p out = (w1, ok) ->
  nfail w1 = nfail w /\ nphash w1 = nphash w /\ nconvert w1 = S (nconvert w).
Proof.
  intros H. apply convert_log in H. unfold nfail, nphash, nconvert.
  rewrite H, !count_events_snoc. simpl. lia.
Qed.

Lemma perceptual_hash_counts w w1 p oph :
  perceptual_hash E I w p = (w1, oph) ->
  nfail w1 = nfail w /\ nphash w1 = S (nphash w) /\ nconvert w1 = nconvert w
  /\ w_fs w1 = w_fs w.
Proof.
  unfold perceptual_hash. intros [= <- <-]. unfold nfail, nphash, nconvert.
  simpl. rewrite !count_events_snoc. simpl. repeat split; lia.
Qed.

Ltac use_remove w p :=
  let H1 := fresh "Hf" in let H2 := fresh "Hp" in let H3 := fresh "Hc" in
  pose proof (try_remove_counts w p) as (H1 & H2 & H3).

(** Stage 1 drops a file without counting it only when a removal raised. *)
Lemma stage1_step_advances cfg a p :
  advances 1 (view3 a) (view3 (stage1_step E I cfg a p))
  /\ quiet (ws3 a) (ws3 (stage1_step E I cfg a p)).
Proof.
  destruct a as [[w st] kept]. unfold stage1_step.
  destruct (negb _ && PIL_OK I).
  { destruct (os_remove w p) as [w1 d] eqn:Hr.
    apply os_remove_counts in Hr as (H1 & H2 & H3).
    destruct d; stats_arith. }
  destruct (cv2_read_size E w p) as [wd ht].
  destruct ((wd =? 0) || (ht =? 0) || (Z.min wd ht <? min_side cfg)).
  { destruct (os_remove w p) as [w1 d] eqn:Hr.
    apply os_remove_counts in Hr as (H1 & H2 & H3).
    destruct d; stats_arith. }
  destruct (jpg_only cfg && PIL_OK I); [|stats_arith].
  destruct (needs_convert w p); [|stats_arith].
  destruct (exif_normalize_and_convert_jpg _ _ _ _ _) as [w1 ok] eqn:Hc.
  apply convert_counts in Hc as (H1 & H2 & H3).
  use_remove w1 p.
  destruct ok; [destruct (keep_intermediate cfg)|]; stats_arith.
Qed.

Lemma stage2_step_exactly cf a p :
  exactly 1 (view3 a) (view3 (stage2_step I cf a p))
  /\ quiet (ws3 a) (ws3 (stage2_step I cf a p)).
Proof.
  destruct a as [[w st] fl]. unfold stage2_step.
  use_remove w p.
  destruct (is_cat I cf w p); stats_arith.
Qed.

Lemma stage3_step_exactly a p :
  exactly 1 (view4 a) (view4 (stage3_step E a p))
  /\ quiet (ws4 a) (ws4 (stage3_step E a p)).
Proof.
  destruct a as [[[w st] seen] out]. unfold stage3_step.
  use_remove w p.
  destruct (file_md5 E w p) as [h|]; [|stats_arith].
  destruct (bool_decide _); stats_arith.
Qed.

Lemma stage4_step_exactly thr a p :
  exactly 1 (view4 a) (view4 (stage4_step E I thr a p)).
Proof.
  destruct a as [[[w st] seen] out]. unfold stage4_step.
  destruct (perceptual_hash E I w p) as [w1 oph] eqn:Hph.
  apply perceptual_hash_counts in Hph as (H1 & H2 & H3 & H4).
  use_remove w1 p.
  destruct oph as [ph|]; [|stats_arith].
  destruct (is_dup thr seen ph); stats_arith.
Qed.

Lemma stage1_counts cfg w st paths w1 st1 kept :
  stage1 E I cfg w st paths = (w1, st1, kept) ->
  advances (length paths) (w, st, O) (w1, st1, length kept)
  /\ quiet (w, st) (w1, st1).
Proof.
  unfold stage1. intros H. split.
  - pose proof (fold_left_counted advances view3 (stage1_step E I cfg)
                  advances_refl advances_trans
                  (fun a b => proj1 (stage1_step_advances cfg a b))
                  paths (w, st, [])) as HR.
    by rewrite H in HR.
  - pose proof (fold_left_quiet ws3 (stage1_step E I cfg)
                  (fun a b => proj2 (stage1_step_advances cfg a b))
                  paths (w, st, [])) as HQ.
    by rewrite H in HQ.
Qed.

Lemma stage2_counts cf w st kept w2 st2 fl :
  stage2 I cf w st kept = (w2, st2, fl) ->
  exactly (length kept) (w, st, O) (w2, st2, length fl)
  /\ quiet (w, st) (w2, st2).
Proof.
  unfold stage2. intros H. split.
  - pose proof (fold_left_counted exactly view3 (stage2_step I cf)
                  exactly_refl exactly_trans
                  (fun a b => proj1 (stage2_step_exactly cf a b))
                  kept (w, st, [])) as HR.
    by rewrite H in HR.
  - pose proof (fold_left_quiet ws3 (stage2_step I cf)
                  (fun a b => proj2 (stage2_step_exactly cf a b))
                  kept (w, st, [])) as HQ.
    by rewrite H in HQ.
Qed.

Lemma stage3_counts w st fl w3 st3 seen out :
  stage3 E w st fl = (w3, st3, seen, out) ->
  exactly (length fl) (w, st, O) (w3, st3, length out)
  /\ quiet (w, st) (w3, st3).
Proof.
  unfold stage3. intros H. split.
  - pose proof (fold_left_counted exactly view4 (stage3_step E)
                  exactly_refl exactly_trans
                  (fun a b => proj1 (stage3_step_exactly a b))
                  fl (w, st, ∅, [])) as HR.
    by rewrite H in HR.
  - pose proof (fold_left_quiet ws4 (stage3_step E)
                  (fun a b => proj2 (stage3_step_exactly a b))
                  fl (w, st, ∅, [])) as HQ.
    by rewrite H in HQ.
Qed.

Lemma stage4_counts thr cfg w st l w4 st4 final :
  stage4 E I thr cfg w st l = (w4, st4, final) ->
  exactly (length l) (w, st, O) (w4, st4, length final).
Proof.
  unfold stage4. destruct (near_dup_enabled I cfg).
  - destruct (stage4_loop E I thr w st l) as [[[w' st'] seen] fin] eqn:H.
    intros [= <- <- <-]. unfold stage4_loop in H.
    pose proof (fold_left_counted exactly view4 (stage4_step E I thr)
                  exactly_refl exactly_trans
                  (stage4_step_exactly thr)
                  l (w, st, [], [])) as HR.
    by rewrite H in HR.
  - intros [= <- <- <-]. unfold exactly. repeat split; lia.
Qed.

(** The statistics of a whole run: every listed file is let through or
    counted in one removal counter, except the files that stage 1 dropped
    after a failed [os.remove], of which there are at most as many as
    removals that raised during the run. *)
Theorem accounting_bounds (thr : Z) (cfg : Config) (cf : CatFilter) (w : World) :
  let '(w', s) := clean_with E I thr cfg cf w in
  before s = length (list_images E w)
  /\ (after s + removed_total s <= before s)%nat
  /\ (before s + nfail w <= after s + removed_total s + nfail w')%nat.
Proof.
  unfold clean_with.
  destruct (stage1 _ _ _ _ _ _) as [[w1 st1] kept] eqn:H1.
  destruct (stage2 _ _ _ _ _) as [[w2 st2] fl] eqn:H2.
  destruct (stage3 _ _ _ _) as [[[w3 st3] seen] out] eqn:H3.
  destruct (stage4 _ _ _ _ _ _ _) as [[w4 st4] final] eqn:H4.
  apply stage1_counts in H1 as [(A1 & A2 & A3 & A4) _].
  apply stage2_counts in H2 as [(B1 & B2 & B3) _].
  apply stage3_counts in H3 as [(C1 & C2 & C3) _].
  apply stage4_counts in H4 as (D1 & D2 & D3).
  unfold removed_total, set_after, set_before, stats0 in *.
  cbn [fst snd before removed_small removed_broken removed_notcat
       removed_dup_md5 removed_dup_phash after] in *.
  repeat split; lia.
Qed.

(** When no [os.remove] raises during the run, the books balance. *)
Corollary accounting_without_failed_removals
    (cfg : Config) (cf : CatFilter) (w : World) :
  nfail (clean_breed_folder E I cfg cf w).1 = nfail w ->
  let s := (clean_breed_folder E I cfg cf w).2 in
  before s = (after s + removed_total s)%nat.
Proof.
  unfold clean_breed_folder.
  pose proof (accounting_bounds NEAR_DUP_THRESHOLD cfg cf w) as H.
  destruct (clean_with _ _ _ _ _ _) as [w' s]. simpl.
  intros Hn. lia.
Qed.

End Accounting.

(** C1: the books do not balance when stage 1 fails to delete a file.  A
    folder holding one undecodable file that [os.remove] refuses to delete
    is reported as [before = 1], [after = 0] and nothing removed: the
    increment of [removed_broken] (and likewise of [removed_small]) sits
    inside the [try] and is skipped when the removal raises, whereas every
    later branch counts the file whether or not the removal succeeds. *)
Theorem accounting_broken_by_failed_removal :
  let w := Toy.folder [("x.jpg", Toy.locked_file Toy.garbage)] in
  let s := (clean_breed_folder Toy.libs Toy.all_ok Toy.cfg_plain Toy.no_filter w).2 in
  s = mkStats 1 0 0 0 0 0 0
  /\ before s <> (after s + removed_small s + removed_broken s
                  + removed_notcat s + removed_dup_md5 s + removed_dup_phash s)%nat.
Proof. vm_compute. split; [reflexivity | discriminate]. Qed.

(** The same file, not locked, is counted as broken. *)
Example accounting_unlocked_broken_file :
  (clean_breed_folder Toy.libs Toy.all_ok Toy.cfg_plain Toy.no_filter
     (Toy.folder [("x.jpg", Toy.file Toy.garbage)])).2
  = mkStats 1 0 1 0 0 0 0.
Proof. vm_compute. reflexivity. Qed.

(** A locked file rejected by a later stage is counted all the same. *)
Example accounting_locked_notcat_file :
  (clean_breed_folder Toy.libs Toy.all_ok Toy.cfg_plain Toy.cat_filter
     (Toy.folder [("x.jpg", Toy.locked_file (Toy.image 200 200 7 90 0))])).2
  = mkStats 1 0 0 1 0 0 0.
Proof. vm_compute. reflexivity. Qed.

(** ** Near duplicates *)

Section NearDuplicates.

Context (E : Extern) (I : Imports).

(** C10: with near-duplicate removal requested but neither Pillow nor
    imagehash importable, stage 4 is skipped: it returns the world, the
    statistics and the list of paths unchanged, and over a whole run no
    perceptual hash is requested and [removed_dup_phash] stays zero. *)
Theorem near_dup_skipped_without_libraries (cfg : Config) :
  remove_near_dup cfg = true ->
  PIL_OK I = false -> IMAGEHASH_OK I = false ->
  (forall thr w stats md5_filtered,
      stage4 E I thr cfg w stats md5_filtered = (w, stats, md5_filtered))
  /\ (forall cf w,
        let '(w', s) := clean_breed_folder E I cfg cf w in
        removed_dup_phash s = O /\ nphash w' = nphash w).
Proof.
  intros Hr Hp Hi.
  assert (Hoff : near_dup_enabled I cfg = false).
  { unfold near_dup_enabled. by rewrite Hr, Hp, Hi. }
  assert (H4 : forall thr w stats l, stage4 E I thr cfg w stats l = (w, stats, l)).
  { intros. unfold stage4. by rewrite Hoff. }
  split; [exact H4|].
  intros cf w. unfold clean_breed_folder, clean_with.
  destruct (stage1 _ _ _ _ _ _) as [[w1 st1] kept] eqn:H1.
  destruct (stage2 _ _ _ _ _) as [[w2 st2] fl] eqn:H2.
  destruct (stage3 _ _ _ _) as [[[w3 st3] seen] out] eqn:H3.
  rewrite H4.
  apply stage1_counts in H1 as [_ [A1 A2]].
  apply stage2_counts in H2 as [_ [B1 B2]].
  apply stage3_counts in H3 as [_ [C1 C2]].
  simpl in *. split; congruence.
Qed.

End NearDuplicates.

(** ** The difference hash *)

Lemma shift_or_bit (v : Z) (b : bool) :
  Z.lor (Z.shiftl v 1) (Z.b2z b) = 2 * v + Z.b2z b.
Proof.
  rewrite Z.shiftl_mul_pow2 by lia. change (2 ^ 1) with 2.
  rewrite (Z.mul_comm v 2).
  apply Z.bits_inj'. intros n Hn. rewrite Z.lor_spec.
  replace (2 * v) with (2 * v + Z.b2z false) at 1 by (simpl; lia).
  replace (Z.b2z b) with (2 * 0 + Z.b2z b) at 1 by lia.
  destruct (Z.eq_dec n 0) as [->|Hne].
  - by rewrite !Z.testbit_0_r.
  - replace n with (Z.succ (n - 1)) by lia.
    rewrite !Z.testbit_succ_r by lia.
    rewrite Z.testbit_0_l. apply orb_false_r.
Qed.

Lemma bits_to_int_from_testbit (diff : list bool) : forall (v : Z) (n : nat),
  Z.testbit (fold_left (fun v b => Z.lor (Z.shiftl v 1) (Z.b2z b)) diff v)
            (Z.of_nat n)
  = if decide (n < length diff)%nat
    then nth (length diff - 1 - n) diff false
    else Z.testbit v (Z.of_nat (n - length diff)).
Proof.
  induction diff as [|b r IH]; intros v n; cbn [fold_left length].
  - rewrite Nat.sub_0_r. destruct (decide (n < 0)%nat); [lia | reflexivity].
  - rewrite IH, shift_or_bit.
    destruct (decide (n < length r)%nat) as [H1|H1];
      destruct (decide (n < S (length r))%nat) as [H2|H2]; try lia.
    + replace (S (length r) - 1 - n)%nat with (S (length r - 1 - n)) by lia.
      reflexivity.
    + assert (n = length r) as -> by lia.
      rewrite Nat.sub_diag.
      replace (S (length r) - 1 - length r)%nat with O by lia.
      apply Z.testbit_0_r.
    + replace (n - length r)%nat with (S (n - S (length r))) by lia.
      rewrite Nat2Z.inj_succ. apply Z.testbit_succ_r. lia.
Qed.

Lemma bits_to_int_testbit (diff : list bool) (n : nat) :
  (n < length diff)%nat ->
  Z.testbit (bits_to_int diff) (Z.of_nat n) = nth (length diff - 1 - n) diff false.
Proof.
  intros H. unfold bits_to_int. rewrite bits_to_int_from_testbit.
  destruct (decide (n < length diff)%nat); [reflexivity | lia].
Qed.

Lemma bits_to_int_from_bound (diff : list bool) : forall (v : Z) (k : Z),
  0 <= k -> 0 <= v < 2 ^ k ->
  0 <= fold_left (fun v b => Z.lor (Z.shiftl v 1) (Z.b2z b)) diff v
     < 2 ^ (k + Z.of_nat (length diff)).
Proof.
  induction diff as [|b r IH]; intros v k Hk Hv; cbn [fold_left length].
  - by rewrite Z.add_0_r.
  - replace (k + Z.of_nat (S (length r))) with ((k + 1) + Z.of_nat (length r)) by lia.
    apply IH; [lia|]. rewrite shift_or_bit, Z.pow_add_r by lia.
    change (2 ^ 1) with 2. destruct b; simpl Z.b2z; lia.
Qed.

Lemma bits_to_int_bound (diff : list bool) :
  0 <= bits_to_int diff < 2 ^ Z.of_nat (length diff).
Proof.
  pose proof (bits_to_int_from_bound diff 0 0) as H. simpl in H.
  apply H; lia.
Qed.

(** Rows of equal length laid end to end. *)
Lemma nth_flat_map_rows {A : Type} (f : nat -> list A) (n : nat) (d : A) :
  (forall y, length (f y) = n) ->
  forall m a x y, (x < n)%nat -> (y < m)%nat ->
    nth (y * n + x) (flat_map f (seq a m)) d = nth x (f (a + y)%nat) d.
Proof.
  intros Hlen. induction m as [|m IH]; intros a x y Hx Hy; [lia|].
  cbn [seq flat_map]. destruct y as [|y].
  - rewrite Nat.add_0_r. simpl. apply app_nth1. by rewrite Hlen.
  - rewrite app_nth2 by (rewrite Hlen; simpl; lia).
    rewrite Hlen. replace (S y * n + x - n)%nat with (y * n + x)%nat by (simpl; lia).
    rewrite IH by lia. f_equal. f_equal. lia.
Qed.

Lemma length_flat_map_rows {A : Type} (f : nat -> list A) (n : nat) :
  (forall y, length (f y) = n) ->
  forall m a, length (flat_map f (seq a m)) = (m * n)%nat.
Proof.
  intros Hlen. induction m as [|m IH]; intros a; [reflexivity|].
  cbn [seq flat_map]. rewrite length_app, Hlen, IH. simpl. lia.
Qed.

Lemma dhash_bits_length (getpixel : Z -> Z -> Z) (hs : nat) :
  length (dhash_bits getpixel hs) = (hs * hs)%nat.
Proof.
  unfold dhash_bits. apply length_flat_map_rows.
  intros y. by rewrite length_map, length_seq.
Qed.

Lemma dhash_bits_nth (getpixel : Z -> Z -> Z) (hs x y : nat) :
  (x < hs)%nat -> (y < hs)%nat ->
  nth (y * hs + x) (dhash_bits getpixel hs) false
  = (getpixel (Z.of_nat x) (Z.of_nat y) >? getpixel (Z.of_nat x + 1) (Z.of_nat y)).
Proof.
  intros Hx Hy. unfold dhash_bits.
  rewrite (nth_flat_map_rows _ hs) by (try lia; intros; by rewrite length_map, length_seq).
  simpl.
  rewrite (nth_indep _ false
             (getpixel (Z.of_nat 0) (Z.of_nat y) >? getpixel (Z.of_nat 0 + 1) (Z.of_nat y)))
    by (by rewrite length_map, length_seq).
  rewrite (map_nth (fun x0 : nat => getpixel (Z.of_nat x0) (Z.of_nat y)
                                    >? getpixel (Z.of_nat x0 + 1) (Z.of_nat y))).
  by rewrite seq_nth.
Qed.

Section DifferenceHash.

Context (E : Extern) (I : Imports).

Lemma read_file_log_event w e p : read_file (log_event w e) p = read_file w p.
Proof. reflexivity. Qed.

(** The integer built by [simple_dhash] from the resized image: bit
    [hs*hs - 1 - (y*hs + x)] is [left > right] at column [x] of row [y]. *)
Lemma simple_dhash_bits (w : World) (p : path) (hs : nat) (d : bytes)
    (img : Z -> Z -> Z) :
  PIL_OK I = true ->
  read_file w p = Some d ->
  pil_gray_resize E d (Z.of_nat hs + 1) (Z.of_nat hs) = Some img ->
  exists v,
    simple_dhash E I w p hs = Some v
    /\ 0 <= v < 2 ^ Z.of_nat (hs * hs)
    /\ forall x y : nat, (x < hs)%nat -> (y < hs)%nat ->
         Z.testbit v (Z.of_nat (hs * hs - 1 - (y * hs + x)))
         = (img (Z.of_nat x) (Z.of_nat y) >? img (Z.of_nat x + 1) (Z.of_nat y)).
Proof.
  intros HP Hr Hg. unfold simple_dhash. rewrite HP, Hr, Hg. cbn [negb].
  eexists. split; [reflexivity|]. split.
  - rewrite <- (dhash_bits_length img hs). apply bits_to_int_bound.
  - intros x y Hx Hy.
    assert (Hxy : (y * hs + x < hs * hs)%nat) by nia.
    rewrite bits_to_int_testbit by (rewrite dhash_bits_length; lia).
    rewrite dhash_bits_length.
    replace (hs * hs - 1 - (hs * hs - 1 - (y * hs + x)))%nat
      with (y * hs + x)%nat by lia.
    by apply dhash_bits_nth.
Qed.

(** C8 (as the code has it): which hash stage 4 computes depends on
    whether imagehash was imported.  Without it the hash is
    [simple_dhash(p, hash_size=16)]: with Pillow at hand the image is
    turned to grayscale and resized to 17 columns by 16 rows, and bit
    [255 - (16*y + x)] of the 256-bit result says whether the pixel at
    column [x] of row [y] is strictly brighter than its right neighbour;
    any failure on the way gives no hash.  With imagehash the hash is
    [imagehash.phash(im, hash_size=16)] and [simple_dhash] is not called. *)
Theorem perceptual_hash_by_library (w : World) (p : path) :
  (IMAGEHASH_OK I = false ->
     (perceptual_hash E I w p).2 = simple_dhash E I w p 16
     /\ (PIL_OK I = true ->
         forall d img,
           read_file w p = Some d ->
           pil_gray_resize E d 17 16 = Some img ->
           exists v,
             (perceptual_hash E I w p).2 = Some v
             /\ 0 <= v < 2 ^ 256
             /\ forall x y : nat, (x < 16)%nat -> (y < 16)%nat ->
                  Z.testbit v (255 - (16 * Z.of_nat y + Z.of_nat x))
                  = (img (Z.of_nat x) (Z.of_nat y)
                     >? img (Z.of_nat x + 1) (Z.of_nat y)))
     /\ (PIL_OK I = false -> (perceptual_hash E I w p).2 = None)
     /\ (read_file w p = None -> (perceptual_hash E I w p).2 = None)
     /\ (forall d, read_file w p = Some d -> pil_gray_resize E d 17 16 = None ->
           (perceptual_hash E I w p).2 = None))
  /\ (IMAGEHASH_OK I = true ->
        (perceptual_hash E I w p).2
        = if PIL_OK I
          then match read_file w p with
               | Some d => imagehash_phash E d
               | None => None
               end
          else None).
Proof.
  split; intros Hi; unfold perceptual_hash; rewrite Hi; cbn [snd];
    rewrite ?read_file_log_event; [|reflexivity].
  assert (Hsame : simple_dhash E I (log_event w (EvPHash p)) p 16
                  = simple_dhash E I w p 16) by reflexivity.
  rewrite Hsame. split; [reflexivity|]. split; [|split; [|split]].
  - intros HP d img Hr Hg.
    destruct (simple_dhash_bits w p 16 d img HP Hr Hg) as (v & Hv & Hb & Hbits).
    exists v. split; [exact Hv|]. split; [exact Hb|].
    intros x y Hx Hy. rewrite <- (Hbits x y Hx Hy). f_equal. lia.
  - intros HP. unfold simple_dhash. by rewrite HP.
  - intros Hr. unfold simple_dhash. rewrite Hr. by destruct (negb (PIL_OK I)).
  - intros d Hr Hg. unfold simple_dhash. rewrite Hr.
    change (Z.of_nat 16 + 1) with 17. change (Z.of_nat 16) with 16.
    rewrite Hg. by destruct (negb (PIL_OK I)).
Qed.

End DifferenceHash.

(** C8, as stated, fails when imagehash is imported: stage 4 then takes
    its hash from imagehash and not from the difference hash; here the
    former is 5 and the latter 0. *)
Lemma perceptual_hash_is_not_dhash :
  let w := Toy.folder [("a.jpg", Toy.file (Toy.image 200 200 281 90 5))] in
  IMAGEHASH_OK Toy.all_ok = true
  /\ (perceptual_hash Toy.libs Toy.all_ok w "a.jpg").2 = Some 5
  /\ simple_dhash Toy.libs Toy.all_ok w "a.jpg" 16 = Some 0
  /\ (perceptual_hash Toy.libs Toy.all_ok w "a.jpg").2
     <> simple_dhash Toy.libs Toy.all_ok w "a.jpg" 16.
Proof. vm_compute. repeat split. discriminate. Qed.

(** ** The greedy scan of stage 4 *)

Lemma hamming_distance_sym (a b : Z) : hamming_distance a b = hamming_distance b a.
Proof. unfold hamming_distance. by rewrite Z.lxor_comm. Qed.

Lemma is_dup_true (thr : Z) (seen : list (path * Z)) (ph : Z) :
  is_dup thr seen ph = true <->
  exists q h, (q, h) ∈ seen /\ hamming_distance h ph <= thr.
Proof.
  induction seen as [|[q h] rest IH]; simpl.
  - split; [discriminate|]. intros (q & h & Hin & _). by apply elem_of_nil in Hin.
  - destruct (hamming_distance h ph <=? thr) eqn:Hle.
    + split; [|done]. intros _. exists q, h. split; [left | lia].
    + rewrite IH. split.
      * intros (q' & h' & Hin & Hd). exists q', h'. split; [by right | done].
      * intros (q' & h' & Hin & Hd). apply elem_of_cons in Hin as [[= -> ->] | Hin].
        -- lia.
        -- by exists q', h'.
Qed.

Lemma is_dup_false (thr : Z) (seen : list (path * Z)) (ph : Z) :
  is_dup thr seen ph = false <->
  forall q h, (q, h) ∈ seen -> thr < hamming_distance h ph.
Proof.
  split.
  - intros Hf q h Hin. destruct (Z_lt_le_dec thr (hamming_distance h ph)); [done|].
    assert (is_dup thr seen ph = true) by (apply is_dup_true; eauto). congruence.
  - intros Hall. destruct (is_dup thr seen ph) eqn:Hd; [|done].
    apply is_dup_true in Hd as (q & h & Hin & Hle). specialize (Hall q h Hin). lia.
Qed.

Lemma far_apart_nil thr : far_apart thr [].
Proof. intros i j a b _ H. by rewrite lookup_nil in H. Qed.

Lemma far_apart_snoc thr seen p ph :
  far_apart thr seen -> is_dup thr seen ph = false ->
  far_apart thr (seen ++ [(p, ph)]).
Proof.
  intros Hfar Hnd. rewrite is_dup_false in Hnd.
  intros i j a b Hij Ha Hb.
  apply lookup_snoc_Some in Ha as [[Hi Ha] | [Hi <-]];
    apply lookup_snoc_Some in Hb as [[Hj Hb] | [Hj <-]].
  - by apply (Hfar i j).
  - destruct a as [q h]. simpl. apply (Hnd q h). by eapply list_elem_of_lookup_2.
  - destruct b as [q h]. simpl. rewrite hamming_distance_sym.
    apply (Hnd q h). by eapply list_elem_of_lookup_2.
  - lia.
Qed.

Section Greedy.

Context (E : Extern) (I : Imports).

Lemma is_dup_monotone (t1 t2 : Z) (seen : list (path * Z)) (ph : Z) :
  t1 <= t2 -> is_dup t1 seen ph = true -> is_dup t2 seen ph = true.
Proof.
  intros Ht. rewrite !is_dup_true.
  intros (q & h & Hin & Hd). exists q, h. split; [done | lia].
Qed.

(** C2 (as the code has it): against one and the same accepted set, a
    candidate found to be a near duplicate at bound [t1] is found to be
    one at every bound [t2 >= t1]; so one iteration of the loop started
    from the same state counts at [t1] no more near duplicates, and keeps
    no fewer files, than at [t2].  (Over a whole folder the accepted sets
    differ between the two bounds and the totals are not ordered.) *)
Theorem near_dup_verdict_monotone (t1 t2 : Z) (seen : list (path * Z)) :
  t1 <= t2 ->
  (forall ph, is_dup t1 seen ph = true -> is_dup t2 seen ph = true)
  /\ (forall w stats final p,
        let s1 := stage4_step E I t1 (w, stats, seen, final) p in
        let s2 := stage4_step E I t2 (w, stats, seen, final) p in
        (removed_dup_phash s1.1.1.2 <= removed_dup_phash s2.1.1.2)%nat
        /\ (length s2.2 <= length s1.2)%nat
        /\ removed_broken s1.1.1.2 = removed_broken s2.1.1.2).
Proof.
  intros Ht. split; [intros ph; by apply is_dup_monotone|].
  intros w stats final p. unfold stage4_step.
  destruct (perceptual_hash E I w p) as [w1 [ph|]]; [|simpl; lia].
  destruct (is_dup t1 seen ph) eqn:H1.
  - rewrite (is_dup_monotone t1 t2 seen ph Ht H1). simpl. lia.
  - destruct (is_dup t2 seen ph); simpl; rewrite ?length_app; simpl; lia.
Qed.

Lemma stage4_loop_snoc thr w stats pre p :
  stage4_loop E I thr w stats (pre ++ [p])
  = stage4_step E I thr (stage4_loop E I thr w stats pre) p.
Proof. unfold stage4_loop. by rewrite fold_left_app. Qed.

Lemma stage4_loop_app thr w stats pre post :
  stage4_loop E I thr w stats (pre ++ post)
  = fold_left (stage4_step E I thr) post (stage4_loop E I thr w stats pre).
Proof. unfold stage4_loop. by rewrite fold_left_app. Qed.

(** What one iteration does, by cases on the hash and the accepted set. *)
Lemma stage4_step_cases thr w stats seen final p :
  let w1 := (perceptual_hash E I w p).1 in
  match (perceptual_hash E I w p).2 with
  | None =>
      stage4_step E I thr (w, stats, seen, final) p
      = (try_remove w1 p, inc_broken stats, seen, final)
  | Some ph =>
      ((exists q h, (q, h) ∈ seen /\ hamming_distance h ph <= thr)
       /\ stage4_step E I thr (w, stats, seen, final) p
          = (try_remove w1 p, inc_dup_phash stats, seen, final))
      \/ ((forall q h, (q, h) ∈ seen -> thr < hamming_distance h ph)
          /\ stage4_step E I thr (w, stats, seen, final) p
             = (w1, stats, seen ++ [(p, ph)], final ++ [p]))
  end.
Proof.
  unfold stage4_step.
  destruct (perceptual_hash E I w p) as [w1 [ph|]]; simpl; [|reflexivity].
  destruct (is_dup thr seen ph) eqn:Hd.
  - left. split; [by apply is_dup_true | reflexivity].
  - right. split; [by apply is_dup_false | reflexivity].
Qed.

Lemma stage4_step_extends thr a p :
  (a.1.2 `prefix_of` (stage4_step E I thr a p).1.2).
Proof.
  destruct a as [[[w st] seen] final]. unfold stage4_step.
  destruct (perceptual_hash E I w p) as [w1 [ph|]]; simpl; [|done].
  destruct (is_dup thr seen ph); simpl; [done|]. by apply prefix_app_r.
Qed.

Lemma stage4_fold_extends thr post a :
  (a.1.2 `prefix_of` (fold_left (stage4_step E I thr) post a).1.2).
Proof.
  revert a. induction post as [|p post IH]; intros a; cbn [fold_left]; [done|].
  etrans; [apply (stage4_step_extends thr a p) | apply IH].
Qed.

(** The loop invariant: the accepted hashes are pairwise farther apart
    than the bound, they are the hashes of the kept files in order, and
    every one of them belongs to a path already scanned. *)
Lemma stage4_loop_invariant thr w stats paths :
  let '(_, _, seen, final) := stage4_loop E I thr w stats paths in
  far_apart thr seen /\ seen.*1 = final /\ (forall q, q ∈ final -> q ∈ paths).
Proof.
  induction paths as [|p pre IH] using rev_ind.
  - simpl. split; [apply far_apart_nil|]. split; [done|]. by intros q Hq.
  - rewrite stage4_loop_snoc.
    destruct (stage4_loop E I thr w stats pre) as [[[w0 st0] seen0] final0].
    destruct IH as (Hfar & Hmap & Hin).
    unfold stage4_step.
    destruct (perceptual_hash E I w0 p) as [w1 [ph|]].
    + destruct (is_dup thr seen0 ph) eqn:Hd.
      * split; [done|]. split; [done|]. intros q Hq. apply elem_of_app. left. auto.
      * split; [by apply far_apart_snoc|]. split.
        -- rewrite fmap_app. simpl. by rewrite Hmap.
        -- intros q Hq. apply elem_of_app in Hq as [Hq|Hq]; apply elem_of_app; auto.
    + split; [done|]. split; [done|]. intros q Hq. apply elem_of_app. left. auto.
Qed.

(** C3 (as the code has it): at every point of the scan the accepted
    hashes are pairwise farther apart than 6 and are exactly the hashes of
    the files kept so far, each of them scanned earlier.  A candidate is
    added to the set, and kept, exactly when its hash is farther than 6
    from every hash accepted before it; a candidate within 6 of an
    accepted hash is counted as a near duplicate and leaves the set as it
    was, and so does one whose hash cannot be computed (counted as
    broken).  The set only ever grows at its end. *)
Theorem near_dup_accepted_set (w : World) (stats : CleanStats)
    (pre : list path) (p : path) (post : list path) :
  let '(w0, st0, seen0, final0) :=
    stage4_loop E I NEAR_DUP_THRESHOLD w stats pre in
  let '(w1, st1, seen1, final1) :=
    stage4_loop E I NEAR_DUP_THRESHOLD w stats (pre ++ [p]) in
  let '(w2, st2, seen2, final2) :=
    stage4_loop E I NEAR_DUP_THRESHOLD w stats (pre ++ p :: post) in
  let oph := (perceptual_hash E I w0 p).2 in
  far_apart 6 seen2 /\ seen2.*1 = final2
  /\ (forall q, q ∈ final0 -> q ∈ pre)
  /\ seen0 `prefix_of` seen1 /\ seen1 `prefix_of` seen2
  /\ (forall ph, oph = Some ph ->
        (forall q h, (q, h) ∈ seen0 -> 6 < hamming_distance h ph) ->
        seen1 = seen0 ++ [(p, ph)] /\ final1 = final0 ++ [p] /\ st1 = st0)
  /\ (forall ph q h, oph = Some ph ->
        (q, h) ∈ seen0 -> hamming_distance h ph <= 6 ->
        seen1 = seen0 /\ final1 = final0 /\ st1 = inc_dup_phash st0)
  /\ (oph = None ->
        seen1 = seen0 /\ final1 = final0 /\ st1 = inc_broken st0).
Proof.
  pose proof (stage4_loop_invariant NEAR_DUP_THRESHOLD w stats pre) as Hpre.
  pose proof (stage4_loop_invariant NEAR_DUP_THRESHOLD w stats (pre ++ p :: post)) as Hall.
  pose proof (stage4_loop_app NEAR_DUP_THRESHOLD w stats (pre ++ [p]) post) as Happ.
  rewrite <- app_assoc in Happ. cbn [app] in Happ.
  pose proof (stage4_fold_extends NEAR_DUP_THRESHOLD post
                (stage4_loop E I NEAR_DUP_THRESHOLD w stats (pre ++ [p]))) as Hext.
  rewrite <- Happ in Hext. clear Happ.
  pose proof (stage4_loop_snoc NEAR_DUP_THRESHOLD w stats pre p) as Hsnoc.
  destruct (stage4_loop E I NEAR_DUP_THRESHOLD w stats pre)
    as [[[w0 st0] seen0] final0].
  destruct (stage4_loop E I NEAR_DUP_THRESHOLD w stats (pre ++ [p]))
    as [[[w1 st1] seen1] final1].
  destruct (stage4_loop E I NEAR_DUP_THRESHOLD w stats (pre ++ p :: post))
    as [[[w2 st2] seen2] final2].
  destruct Hpre as (_ & _ & Hin0). destruct Hall as (Hfar & Hmap & _).
  pose proof (stage4_step_extends NEAR_DUP_THRESHOLD (w0, st0, seen0, final0) p) as Hext0.
  rewrite <- Hsnoc in Hext0. simpl in Hext, Hext0.
  pose proof (stage4_step_cases NEAR_DUP_THRESHOLD w0 st0 seen0 final0 p) as Hc.
  rewrite <- Hsnoc in Hc. cbv zeta in Hc.
  change NEAR_DUP_THRESHOLD with 6 in *.
  repeat (split; [done|]).
  destruct ((perceptual_hash E I w0 p).2) as [ph0|].
  - split; [|split; [|discriminate]].
    + intros ph [= <-] Hall. destruct Hc as [[(q & h & Hq & Hd) _] | [_ [= -> -> -> ->]]].
      * specialize (Hall q h Hq). lia.
      * done.
    + intros ph q h [= <-] Hq Hd. destruct Hc as [[_ [= -> -> -> ->]] | [Hall _]].
      * done.
      * specialize (Hall q h Hq). lia.
  - split; [discriminate|]. split; [discriminate|].
    intros _. by injection Hc as -> -> -> ->.
Qed.

End Greedy.

(** C2, as stated, fails: on the four files above the scan removes one near
    duplicate at bound 6 and two at bound 5.  At 6 the second file is within
    reach of the first and is dropped, so the third and fourth have nothing
    close to them; at 5 the second file is kept and both later files are
    within 5 of it.  The whole run, which lists the folder in that order,
    reports the same counts. *)
Lemma near_dup_count_not_monotone :
  5 <= 6
  /\ NearDupRuns.removed_near 5 NearDupRuns.four NearDupRuns.four_order = 2%nat
  /\ NearDupRuns.removed_near 6 NearDupRuns.four NearDupRuns.four_order = 1%nat
  /\ ~ (NearDupRuns.removed_near 5 NearDupRuns.four NearDupRuns.four_order
        <= NearDupRuns.removed_near 6 NearDupRuns.four NearDupRuns.four_order)%nat
  /\ list_images Toy.libs NearDupRuns.four = NearDupRuns.four_order
  /\ (clean_with Toy.libs Toy.all_ok 5 Toy.cfg_plain Toy.cat_filter NearDupRuns.four).2
     = mkStats 4 0 0 0 0 2 2
  /\ (clean_with Toy.libs Toy.all_ok 6 Toy.cfg_plain Toy.cat_filter NearDupRuns.four).2
     = mkStats 4 0 0 0 0 1 3.
Proof. vm_compute. repeat split; try lia. intros H. discriminate H. Qed.

(** C3, as stated, fails on its second part: [b.jpg] and [c.jpg] are
    within 1 of each other and [b.jpg] is scanned first, yet [b.jpg] is
    removed (it is within 6 of the accepted [a.jpg]) and [c.jpg] is kept (it
    is 7 away from [a.jpg], and [b.jpg] never entered the accepted set).
    The whole run lists the folder in that order and leaves [a.jpg] and
    [c.jpg] on disk. *)
Lemma first_of_near_group_not_kept :
  hamming_distance 63 127 <= 6
  /\ hamming_distance 0 63 <= 6
  /\ 6 < hamming_distance 0 127
  /\ NearDupRuns.kept_near NEAR_DUP_THRESHOLD NearDupRuns.three NearDupRuns.three_order
     = ["a.jpg"; "c.jpg"]
  /\ list_images Toy.libs NearDupRuns.three = NearDupRuns.three_order
  /\ (Reruns.run Toy.cfg_plain Toy.cat_filter NearDupRuns.three).2
     = mkStats 3 0 0 0 0 1 2
  /\ w_fs (Reruns.run Toy.cfg_plain Toy.cat_filter NearDupRuns.three).1 !! "b.jpg"
     = None
  /\ is_Some (w_fs (Reruns.run Toy.cfg_plain Toy.cat_filter NearDupRuns.three).1
              !! "c.jpg").
Proof. vm_compute. repeat split; try discriminate. by eexists. Qed.

(** ** The exact-duplicate scan of stage 3 *)

Lemma first_with_snoc d pre p q h :
  first_with d (pre ++ [p]) q h <->
  first_with d pre q h
  \/ (q = p /\ d p = Some h /\ forall c, c ∈ pre -> d c <> Some h).
Proof.
  split.
  - intros (i & Hi & Hd & Hfirst).
    apply lookup_snoc_Some in Hi as [[Hlt Hi] | [Hlen <-]].
    + left. exists i. repeat split; try done.
      intros j c Hj Hc. apply (Hfirst j c Hj).
      apply lookup_snoc_Some. left. split; [lia | done].
    + right. repeat split; try done.
      intros c Hc. apply list_elem_of_lookup in Hc as [j Hj].
      apply (Hfirst j c).
      * apply lookup_lt_Some in Hj. lia.
      * apply lookup_snoc_Some. left. split; [by eapply lookup_lt_Some | done].
  - intros [(i & Hi & Hd & Hfirst) | (-> & Hd & Hnone)].
    + exists i. repeat split; try done.
      * apply lookup_snoc_Some. left. split; [by eapply lookup_lt_Some | done].
      * intros j c Hj Hc. apply (Hfirst j c Hj).
        apply lookup_snoc_Some in Hc as [[_ Hc] | [Hlen _]]; [done|].
        apply lookup_lt_Some in Hi. lia.
    + exists (length pre). repeat split; try done.
      * apply lookup_snoc_Some. right. done.
      * intros j c Hj Hc. apply Hnone.
        apply lookup_snoc_Some in Hc as [[_ Hc] | [Hlen _]]; [|lia].
        by eapply list_elem_of_lookup_2.
Qed.

Section ExactDuplicates.

Context (E : Extern).

Lemma stage3_snoc w stats pre p :
  stage3 E w stats (pre ++ [p]) = stage3_step E (stage3 E w stats pre) p.
Proof. unfold stage3. by rewrite fold_left_app. Qed.

Lemma file_md5_same_file w w' p :
  w_fs w' !! p = w_fs w !! p -> file_md5 E w' p = file_md5 E w p.
Proof. intros H. unfold file_md5, read_file. by rewrite H. Qed.

Lemma filter_has_digest_snoc d pre p :
  length (List.filter (has_digest d) (pre ++ [p]))
  = (length (List.filter (has_digest d) pre) + if has_digest d p then 1 else 0)%nat.
Proof.
  rewrite List.filter_app, length_app. simpl. by destruct (has_digest d p).
Qed.

Lemma stage3_inv_nil w stats : stage3_inv E w stats [] (w, stats, ∅, []).
Proof.
  split; simpl; try done.
  - intros h. split.
    + intros [q Hq]. by rewrite lookup_empty in Hq.
    + intros (c & Hc & _). by apply elem_of_nil in Hc.
  - intros q. split.
    + intros Hq. by apply elem_of_nil in Hq.
    + intros (h & i & Hi & _). by rewrite lookup_nil in Hi.
Qed.

Lemma stage3_inv_step w stats pre p acc :
  p ∉ pre ->
  stage3_inv E w stats pre acc ->
  stage3_inv E w stats (pre ++ [p]) (stage3_step E acc p).
Proof.
  intros Hp [Hun Hdom Hfirst Hout Hdup Hbrk Hdel].
  destruct acc as [[[w0 st0] seen0] out0]. simpl in *.
  unfold stage3_step.
  rewrite (file_md5_same_file w w0 p (Hun p Hp)).
  assert (Hgone : forall w', w' = try_remove w0 p -> forall q,
             q ∈ pre ++ [p] -> q ∉ out0 ->
             (forall f, w_fs w !! q = Some f -> f_locked f = false) ->
             w_fs w' !! q = None).
  { intros w' -> q Hq Hnot Hlock. apply elem_of_app in Hq as [Hq | Hq].
    - rewrite try_remove_lookup_other by (intros ->; done). by apply Hdel.
    - apply list_elem_of_singleton in Hq as ->. apply try_remove_gone.
      intros f Hf. apply Hlock. by rewrite <- (Hun p Hp). }
  assert (Hother : forall q, q ∉ pre ++ [p] ->
             w_fs (try_remove w0 p) !! q = w_fs w !! q).
  { intros q Hq. rewrite not_elem_of_app, list_elem_of_singleton in Hq.
    destruct Hq as [Hq1 Hq2]. rewrite try_remove_lookup_other by done. by apply Hun. }
  destruct (file_md5 E w p) as [h|] eqn:Hmd5.
  - destruct (bool_decide (is_Some (seen0 !! h))) eqn:Hseen.
    + apply bool_decide_eq_true in Hseen.
      split; simpl.
      * exact Hother.
      * intros h'. rewrite Hdom. split.
        -- intros (c & Hc & Hd). exists c. split; [apply elem_of_app; by left | done].
        -- intros (c & Hc & Hd). apply elem_of_app in Hc as [Hc | Hc]; [by exists c|].
           apply list_elem_of_singleton in Hc as ->.
           apply Hdom. congruence.
      * intros h' q Hq. apply first_with_snoc. left. by apply Hfirst.
      * intros q. rewrite Hout. split.
        -- intros (h' & Hf). exists h'. apply first_with_snoc. by left.
        -- intros (h' & Hf). apply first_with_snoc in Hf as [Hf | (-> & Hd & Hnone)].
           ++ by exists h'.
           ++ assert (h' = h) as -> by congruence.
              apply Hdom in Hseen as (c & Hc & Hcd). by destruct (Hnone c Hc).
      * rewrite filter_has_digest_snoc. unfold has_digest at 2. rewrite Hmd5. lia.
      * rewrite filter_has_digest_snoc, length_app. unfold has_digest at 2.
        rewrite Hmd5. simpl. lia.
      * by apply Hgone.
    + apply bool_decide_eq_false in Hseen.
      assert (Hnone : forall c, c ∈ pre -> file_md5 E w c <> Some h).
      { intros c Hc Hd. apply Hseen, Hdom. by exists c. }
      split; simpl.
      * intros q Hq. apply Hun. intros Hin. apply Hq, elem_of_app. by left.
      * intros h'. rewrite lookup_insert_is_Some, Hdom. split.
        -- intros [<- | [_ (c & Hc & Hd)]].
           ++ exists p. split; [apply elem_of_app; right; by apply list_elem_of_singleton | done].
           ++ exists c. split; [apply elem_of_app; by left | done].
        -- intros (c & Hc & Hd). apply elem_of_app in Hc as [Hc | Hc].
           ++ destruct (decide (h = h')) as [<- | Hne]; [by left|].
              right. split; [done|]. by exists c.
           ++ apply list_elem_of_singleton in Hc as ->. left. congruence.
      * intros h' q Hq. apply first_with_snoc.
        apply lookup_insert_Some in Hq as [[<- <-] | [Hne Hq]].
        -- right. done.
        -- left. by apply Hfirst.
      * intros q. rewrite elem_of_app, list_elem_of_singleton, Hout. split.
        -- intros [(h' & Hf) | ->].
           ++ exists h'. apply first_with_snoc. by left.
           ++ exists h. apply first_with_snoc. by right.
        -- intros (h' & Hf). apply first_with_snoc in Hf as [Hf | (-> & _)].
           ++ left. by exists h'.
           ++ by right.
      * rewrite filter_has_digest_snoc, length_app. unfold has_digest at 2.
        rewrite Hmd5. simpl. lia.
      * rewrite filter_has_digest_snoc, length_app. unfold has_digest at 2.
        rewrite Hmd5. simpl. lia.
      * intros q Hq Hnot Hlock.
        rewrite not_elem_of_app, list_elem_of_singleton in Hnot.
        destruct Hnot as [Hn1 Hn2].
        apply elem_of_app in Hq as [Hq | Hq]; [by apply Hdel|].
        by apply list_elem_of_singleton in Hq.
  - split; simpl.
    + exact Hother.
    + intros h'. rewrite Hdom. split.
      * intros (c & Hc & Hd). exists c. split; [apply elem_of_app; by left | done].
      * intros (c & Hc & Hd). apply elem_of_app in Hc as [Hc | Hc]; [by exists c|].
        apply list_elem_of_singleton in Hc as ->. congruence.
    + intros h' q Hq. apply first_with_snoc. left. by apply Hfirst.
    + intros q. rewrite Hout. split.
      * intros (h' & Hf). exists h'. apply first_with_snoc. by left.
      * intros (h' & Hf). apply first_with_snoc in Hf as [Hf | (-> & Hd & _)].
        -- by exists h'.
        -- congruence.
    + rewrite filter_has_digest_snoc. unfold has_digest at 2. rewrite Hmd5. lia.
    + rewrite filter_has_digest_snoc, length_app. unfold has_digest at 2.
      rewrite Hmd5. simpl. lia.
    + by apply Hgone.
Qed.

Lemma stage3_invariant w stats paths :
  NoDup paths -> stage3_inv E w stats paths (stage3 E w stats paths).
Proof.
  induction paths as [|p pre IH] using rev_ind; intros Hnd.
  - apply stage3_inv_nil.
  - apply NoDup_app in Hnd as (Hpre & Hdisj & _).
    rewrite stage3_snoc. apply stage3_inv_step.
    + intros Hin. apply (Hdisj p Hin). by apply list_elem_of_singleton.
    + by apply IH.
Qed.

Lemma first_with_unique d l q q' h :
  first_with d l q h -> first_with d l q' h -> q = q'.
Proof.
  intros (i & Hi & Hd & Hf) (i' & Hi' & Hd' & Hf').
  destruct (Nat.lt_trichotomy i i') as [Hlt | [-> | Hgt]].
  - by destruct (Hf' i q Hlt Hi).
  - congruence.
  - by destruct (Hf i' q' Hgt Hi').
Qed.


End ExactDuplicates.


(** ** A folder that needs no cleaning *)

Lemma of_chars_app (a b : list ascii) :
  PyStr.of_chars (a ++ b) = String.append (PyStr.of_chars a) (PyStr.of_chars b).
Proof.
  unfold PyStr.of_chars. induction a as [|c a IH]; [reflexivity|].
  change (string_of_list_ascii ((c :: a) ++ b))
    with (String c (string_of_list_ascii (a ++ b))).
  rewrite IH. reflexivity.
Qed.

(** [os.path.splitext] cuts the name in two. *)
Lemma splitext_append (p base ext : string) :
  PyStr.splitext p = (base, ext) -> String.append base ext = p.
Proof.
  unfold PyStr.splitext.
  assert (Hp : PyStr.of_chars (PyStr.chars p) = p)
    by apply string_of_list_ascii_of_string.
  assert (Hnil : forall s : string, String.append s "" = s).
  { induction s as [|c s IH]; [reflexivity|].
    change (String.append (String c s) "") with (String c (String.append s "")).
    by rewrite IH. }
  destruct (PyStr.rfind_dot (PyStr.chars p)) as [d|]; [|intros [= <- <-]; apply Hnil].
  destruct (existsb _ _); [|intros [= <- <-]; apply Hnil].
  intros [= <- <-]. rewrite <- of_chars_app, firstn_skipn. exact Hp.
Qed.


Lemma starts_with_app (pre l : list ascii) :
  PyStr.starts_with pre l = true -> exists r, l = pre ++ r.
Proof.
  revert l. induction pre as [|a pre IH]; intros l H; simpl in H.
  - by exists l.
  - destruct l as [|b l]; [discriminate|].
    apply andb_true_iff in H as [Hab H]. apply Ascii.eqb_eq in Hab as ->.
    destruct (IH l H) as [r ->]. by exists r.
Qed.

Lemma endswith_split (s suf : string) :
  PyStr.endswith s suf = true ->
  exists pre, PyStr.chars s = pre ++ PyStr.chars suf.
Proof.
  unfold PyStr.endswith. intros H.
  apply starts_with_app in H as [r Hr]. exists (rev r).
  rewrite <- (rev_involutive (PyStr.chars s)), Hr, rev_app_distr.
  by rewrite rev_involutive.
Qed.




Section Settled.

Context (E : Extern) (I : Imports).

Lemma perceptual_hash_removals w w1 p oph :
  perceptual_hash E I w p = (w1, oph) ->
  count_events is_removal (w_log w1) = count_events is_removal (w_log w).
Proof.
  unfold perceptual_hash. intros [= <- <-]. simpl.
  rewrite count_events_snoc. simpl. lia.
Qed.


Lemma phash_of_fs fs log1 log2 p :
  phash_of E I (mkWorld fs log1) p = phash_of E I (mkWorld fs log2) p.
Proof. reflexivity. Qed.

Lemma stage1_step_settled cfg cf w stats kept p :
  file_settled E I cfg cf w p = true ->
  stage1_step E I cfg (w, stats, kept) p = (w, stats, kept ++ [p]).
Proof.
  unfold file_settled, stage1_ok. rewrite !andb_true_iff.
  intros [[[[Hpil Hsize] Hconv] _] _]. unfold stage1_step.
  destruct (PIL_OK I) eqn:HP; simpl in Hpil, Hconv |- *.
  - rewrite Hpil. simpl.
    destruct (cv2_read_size E w p) as [wd ht].
    apply negb_true_iff in Hsize. rewrite Hsize.
    destruct (jpg_only cfg); simpl in Hconv |- *; [|reflexivity].
    apply negb_true_iff in Hconv. by rewrite Hconv.
  - destruct (cv2_read_size E w p) as [wd ht].
    apply negb_true_iff in Hsize. rewrite Hsize.
    by rewrite andb_false_r.
Qed.

Lemma stage1_settled cfg cf w stats : forall paths kept,
  forallb (file_settled E I cfg cf w) paths = true ->
  fold_left (stage1_step E I cfg) paths (w, stats, kept)
  = (w, stats, kept ++ paths).
Proof.
  induction paths as [|p paths IH]; intros kept Hall; cbn [fold_left].
  - by rewrite app_nil_r.
  - cbn [forallb] in Hall. apply andb_true_iff in Hall as [Hp Hall].
    rewrite (stage1_step_settled cfg cf w stats kept p Hp).
    rewrite IH by done. by rewrite <- app_assoc.
Qed.

Lemma stage2_settled cfg cf w stats : forall paths fl,
  forallb (file_settled E I cfg cf w) paths = true ->
  fold_left (stage2_step I cf) paths (w, stats, fl) = (w, stats, fl ++ paths).
Proof.
  induction paths as [|p paths IH]; intros fl Hall; cbn [fold_left].
  - by rewrite app_nil_r.
  - cbn [forallb] in Hall. apply andb_true_iff in Hall as [Hp Hall].
    unfold file_settled in Hp. rewrite !andb_true_iff in Hp.
    destruct Hp as [[_ Hcat] _].
    rewrite (stage2_step_accept I cf w stats fl p Hcat).
    rewrite IH by done. by rewrite <- app_assoc.
Qed.

Lemma stage3_settled cfg cf w stats : forall paths seen out,
  forallb (file_settled E I cfg cf w) paths = true ->
  NoDup (map (file_md5 E w) paths) ->
  (forall p h, p ∈ paths -> file_md5 E w p = Some h -> seen !! h = None) ->
  exists seen',
    fold_left (stage3_step E) paths (w, stats, seen, out)
    = (w, stats, seen', out ++ paths).
Proof.
  induction paths as [|p paths IH]; intros seen out Hall Hnd Hfresh; cbn [fold_left].
  - exists seen. by rewrite app_nil_r.
  - cbn [forallb] in Hall. apply andb_true_iff in Hall as [Hp Hall].
    unfold file_settled in Hp. rewrite !andb_true_iff in Hp.
    destruct Hp as [_ Hdig]. unfold has_digest in Hdig.
    destruct (file_md5 E w p) as [h|] eqn:Hh; [|discriminate].
    cbn [map] in Hnd. rewrite Hh in Hnd. apply NoDup_cons in Hnd as [Hnotin Hnd].
    unfold stage3_step at 2. rewrite Hh.
    rewrite (Hfresh p h) by (done || left).
    rewrite bool_decide_eq_false_2 by (intros [? ?]; discriminate).
    destruct (IH (<[h:=p]> seen) (out ++ [p]) Hall Hnd) as [seen' Hs].
    + intros q h' Hq Hh'. apply lookup_insert_None. split.
      * apply (Hfresh q h'); [by right | done].
      * intros <-. apply Hnotin. rewrite <- Hh'.
        apply list_elem_of_In, in_map. by apply list_elem_of_In.
    + exists seen'. rewrite Hs. by rewrite <- app_assoc.
Qed.

Lemma stage4_settled thr w stats : forall paths w0 seen final,
  w_fs w0 = w_fs w ->
  hashes_far_apart thr (map (phash_of E I w) paths) = true ->
  (forall q h p h', (q, h) ∈ seen -> p ∈ paths -> phash_of E I w p = Some h' ->
                    thr < hamming_distance h h') ->
  exists w1 seen',
    fold_left (stage4_step E I thr) paths (w0, stats, seen, final)
    = (w1, stats, seen', final ++ paths)
    /\ w_fs w1 = w_fs w
    /\ nconvert w1 = nconvert w0
    /\ count_events is_removal (w_log w1) = count_events is_removal (w_log w0)
    /\ nfail w1 = nfail w0.
Proof.
  induction paths as [|p paths IH]; intros w0 seen final Hfs Hfar Hseen; cbn [fold_left].
  - exists w0, seen. by rewrite app_nil_r.
  - cbn [map hashes_far_apart] in Hfar.
    destruct (phash_of E I w p) as [h|] eqn:Hh; [|discriminate].
    apply andb_true_iff in Hfar as [Hlater Hfar].
    assert (Hh0 : phash_of E I w0 p = Some h).
    { destruct w0 as [fs0 l0], w as [fs l]. simpl in Hfs. subst fs0.
      by rewrite (phash_of_fs fs l0 l). }
    unfold stage4_step at 2. unfold phash_of in Hh0.
    destruct (perceptual_hash E I w0 p) as [w1 oph] eqn:Hph.
    simpl in Hh0. subst oph.
    pose proof (perceptual_hash_removals _ _ _ _ Hph) as Hr1.
    apply (perceptual_hash_counts E I) in Hph as (Hf1 & Hp1 & Hc1 & Hfs1).
    assert (Hnd : is_dup thr seen h = false).
    { apply is_dup_false. intros q h0 Hq.
      apply (Hseen q h0 p h Hq); [left | done]. }
    rewrite Hnd.
    destruct (IH w1 (seen ++ [(p, h)]) (final ++ [p])) as (w2 & seen' & Hs & Hfs2 & Hc2 & Hr2 & Hf2).
    + congruence.
    + exact Hfar.
    + intros q h0 p' h' Hq Hp' Hh'. apply elem_of_app in Hq as [Hq | Hq].
      * apply (Hseen q h0 p' h' Hq); [by right | done].
      * apply list_elem_of_singleton in Hq as [= -> ->].
        rewrite forallb_forall in Hlater.
        assert (Hin : In (phash_of E I w p') (map (phash_of E I w) paths)).
        { apply in_map. by apply list_elem_of_In. }
        specialize (Hlater _ Hin). rewrite Hh' in Hlater. lia.
    + exists w2, seen'. rewrite Hs, <- app_assoc. repeat split; try done; try congruence.
Qed.

(** The run of a settled folder, stage by stage: every loop lets every
    path through and leaves the files alone. *)
Lemma settled_run (cfg : Config) (cf : CatFilter) (w : World) :
  settled E I cfg cf w = true ->
  exists w',
    clean_breed_folder E I cfg cf w
    = (w', mkStats (length (list_images E w)) 0 0 0 0 0 (length (list_images E w)))
    /\ w_fs w' = w_fs w
    /\ nconvert w' = nconvert w
    /\ count_events is_removal (w_log w') = count_events is_removal (w_log w).
Proof.
  intros Hs. unfold settled in Hs. rewrite !andb_true_iff in Hs.
  destruct Hs as [[Hall Hnd] Hfar]. apply bool_decide_eq_true in Hnd.
  unfold clean_breed_folder, clean_with, stage1, stage2, stage3.
  rewrite (stage1_settled cfg cf) by done. cbn [app].
  rewrite (stage2_settled cfg cf) by done. cbn [app].
  destruct (stage3_settled cfg cf w
              (set_before stats0 (length (list_images E w)))
              (list_images E w) ∅ [] Hall Hnd) as [seen' H3].
  { intros. apply lookup_empty. }
  rewrite H3. cbn [app]. unfold stage4.
  destruct (near_dup_enabled I cfg); simpl in Hfar.
  - unfold stage4_loop.
    destruct (stage4_settled NEAR_DUP_THRESHOLD w
                (set_before stats0 (length (list_images E w)))
                (list_images E w) w [] [] eq_refl Hfar)
      as (w1 & seen4 & H4 & Hfs & Hc & Hr & _).
    { intros q h p h' Hq. by apply elem_of_nil in Hq. }
    rewrite H4. cbn [app]. by exists w1.
  - by exists w.
Qed.

End Settled.


(** ** What a run leaves behind *)

Section ScanFootprint.

Context {S : Type} (world : S -> World) (out : S -> list path)
        (step : S -> path -> S) (G : path -> Prop) (s0 : S).

Hypothesis out_s0 : out s0 = [].

(** One iteration either keeps [p], touching no file, or drops it,
    touching no other file and leaving [p] absent unless it is locked. *)
Hypothesis step_spec : forall s p,
  w_fs (world s) !! p = w_fs (world s0) !! p ->
  (w_fs (world (step s p)) = w_fs (world s)
   /\ out (step s p) = out s ++ [p] /\ G p)
  \/ (out (step s p) = out s
      /\ (forall q, q <> p -> w_fs (world (step s p)) !! q = w_fs (world s) !! q)
      /\ ((forall f, w_fs (world s) !! p = Some f -> f_locked f = false) ->
          w_fs (world (step s p)) !! p = None)).

Lemma footprint_fold (paths : list path) :
  NoDup paths -> footprint world out G paths s0 (fold_left step paths s0).
Proof.
  induction paths as [|p pre IH] using rev_ind; intros Hnd.
  - simpl. split; try done.
    + intros q Hq. rewrite out_s0 in Hq. by apply elem_of_nil in Hq.
    + intros q Hq. by apply elem_of_nil in Hq.
    + rewrite out_s0. constructor.
  - apply NoDup_app in Hnd as (Hpre & Hdisj & _).
    assert (Hp : p ∉ pre).
    { intros Hin. apply (Hdisj p Hin). by apply list_elem_of_singleton. }
    destruct (IH Hpre) as [Hout Hkept Hrem Hnd']. clear IH.
    rewrite fold_left_app. cbn [fold_left].
    set (s := fold_left step pre s0) in *.
    destruct (step_spec s p (Hout p Hp)) as [(Hfs & Ho & HG) | (Ho & Hoth & Hgone)].
    + split.
      * intros q Hq. rewrite Hfs. apply Hout. intros Hin. apply Hq, elem_of_app. by left.
      * intros q Hq. rewrite Ho in Hq. rewrite Hfs.
        apply elem_of_app in Hq as [Hq | Hq].
        -- destruct (Hkept q Hq) as (H1 & H2 & H3).
           split; [apply elem_of_app; by left | done].
        -- apply list_elem_of_singleton in Hq as ->.
           split; [apply elem_of_app; right; by apply list_elem_of_singleton|].
           split; [by apply Hout | done].
      * intros q Hq Hno Hlock. rewrite Ho in Hno. rewrite Hfs.
        rewrite not_elem_of_app, list_elem_of_singleton in Hno. destruct Hno as [Hno Hne].
        apply elem_of_app in Hq as [Hq | Hq]; [by apply Hrem|].
        by apply list_elem_of_singleton in Hq.
      * rewrite Ho. apply NoDup_app. split; [done|]. split; [|apply NoDup_singleton].
        intros q Hq Hq'. apply list_elem_of_singleton in Hq' as ->.
        by destruct (Hkept p Hq) as (H1 & _).
    + split.
      * intros q Hq. rewrite not_elem_of_app, list_elem_of_singleton in Hq.
        destruct Hq as [Hq Hne]. rewrite Hoth by done. by apply Hout.
      * intros q Hq. rewrite Ho in Hq. destruct (Hkept q Hq) as (H1 & H2 & H3).
        split; [apply elem_of_app; by left|]. split; [|done].
        rewrite Hoth; [done|]. intros ->. done.
      * intros q Hq Hno Hlock. rewrite Ho in Hno.
        apply elem_of_app in Hq as [Hq | Hq].
        -- rewrite Hoth by (intros ->; done). by apply Hrem.
        -- apply list_elem_of_singleton in Hq as ->. apply Hgone.
           intros f Hf. apply Hlock. by rewrite <- (Hout p Hp).
      * by rewrite Ho.
Qed.

End ScanFootprint.

(** *** The listing *)

Lemma starts_with_comparable (a b l : list ascii) :
  PyStr.starts_with a l = true -> PyStr.starts_with b l = true ->
  PyStr.starts_with a b = true \/ PyStr.starts_with b a = true.
Proof.
  revert b l. induction a as [|x a IH]; intros b l Ha Hb; [by left|].
  destruct b as [|y b]; [by right|].
  destruct l as [|z l]; [discriminate|].
  simpl in Ha, Hb. apply andb_true_iff in Ha as [Hx Ha].
  apply andb_true_iff in Hb as [Hy Hb].
  apply Ascii.eqb_eq in Hx as ->. apply Ascii.eqb_eq in Hy as ->.
  simpl. rewrite Ascii.eqb_refl. simpl. by apply (IH b l).
Qed.

(** A name matches at most one of the six patterns. *)
Lemma glob_star_same_ext (e1 e2 x : string) :
  In e1 IMAGE_EXTS -> In e2 IMAGE_EXTS ->
  PyStr.glob_star e1 x = true -> PyStr.glob_star e2 x = true -> e1 = e2.
Proof.
  intros H1 H2 G1 G2. unfold PyStr.glob_star in G1, G2.
  apply andb_true_iff in G1 as [G1 _]. apply andb_true_iff in G2 as [G2 _].
  pose proof (starts_with_comparable _ _ _ G1 G2) as Hc.
  unfold IMAGE_EXTS in H1, H2. simpl in H1, H2.
  repeat (destruct H1 as [<- | H1]; [|]); try contradiction;
    repeat (destruct H2 as [<- | H2]; [|]); try contradiction;
    try reflexivity; vm_compute in Hc; destruct Hc; discriminate.
Qed.

Lemma NoDup_flat_map_filter {A B : Type} (g : B -> A -> bool)
    (L : list A) (exts : list B) :
  NoDup L -> NoDup exts ->
  (forall e1 e2 x, In e1 exts -> In e2 exts ->
                   g e1 x = true -> g e2 x = true -> e1 = e2) ->
  NoDup (flat_map (fun e => List.filter (g e) L) exts).
Proof.
  intros HL. induction exts as [|e es IH]; intros Hes Hg; [constructor|].
  cbn [flat_map]. apply NoDup_cons in Hes as [He Hes].
  apply NoDup_app. split.
  { apply NoDup_ListNoDup, List.NoDup_filter. by apply NoDup_ListNoDup. }
  split.
  - intros x Hx Hx'. apply list_elem_of_In, filter_In in Hx as [_ Hx].
    apply list_elem_of_In, in_flat_map in Hx' as (e' & He' & Hx').
    apply filter_In in Hx' as [_ Hx'].
    assert (e = e') as <- by (apply (Hg e e' x); simpl; auto).
    apply He. by apply list_elem_of_In.
  - apply IH; [done|]. intros e1 e2 x H1 H2. apply Hg; by right.
Qed.

Section Listing.

Context (E : Extern).
Hypothesis Hlist : listing_sound E.

Lemma list_images_NoDup (w : World) : NoDup (list_images E w).
Proof.
  unfold list_images. apply NoDup_flat_map_filter.
  - apply Hlist.
  - apply (bool_decide_unpack _). vm_compute. exact Logic.I.
  - apply glob_star_same_ext.
Qed.

Lemma elem_of_list_images (w : World) (p : path) :
  p ∈ list_images E w <-> is_Some (w_fs w !! p) /\ is_image_name p = true.
Proof.
  unfold list_images, is_image_name.
  rewrite list_elem_of_In, in_flat_map, existsb_exists.
  split.
  - intros (e & He & Hp). apply filter_In in Hp as [Hp Hg]. split.
    + apply Hlist. by apply list_elem_of_In.
    + by exists e.
  - intros [Hex (e & He & Hg)]. exists e. split; [done|].
    apply filter_In. split; [|done]. apply list_elem_of_In. by apply Hlist.
Qed.

End Listing.

(** *** Each stage as a scan *)

Section StageFootprints.

Context (E : Extern) (I : Imports).

Lemma read_file_local w w' p :
  w_fs w' !! p = w_fs w !! p -> read_file w' p = read_file w p.
Proof. intros H. unfold read_file. by rewrite H. Qed.

Lemma stage1_ok_local cfg w w' p :
  w_fs w' !! p = w_fs w !! p -> stage1_ok E I cfg w' p = stage1_ok E I cfg w p.
Proof.
  intros H. unfold stage1_ok, ensure_pillow_image, cv2_read_size.
  by rewrite (read_file_local w w' p H).
Qed.

Lemma is_cat_local cf w w' p :
  w_fs w' !! p = w_fs w !! p -> is_cat I cf w' p = is_cat I cf w p.
Proof.
  intros H. unfold is_cat, predict_top. by rewrite (read_file_local w w' p H).
Qed.

Lemma phash_of_local w w' p :
  w_fs w' !! p = w_fs w !! p -> phash_of E I w' p = phash_of E I w p.
Proof.
  intros H. unfold phash_of, perceptual_hash, simple_dhash. cbn [snd].
  rewrite !read_file_log_event. by rewrite (read_file_local w w' p H).
Qed.

Lemma try_remove_footprint w p :
  (forall q, q <> p -> w_fs (try_remove w p) !! q = w_fs w !! q)
  /\ ((forall f, w_fs w !! p = Some f -> f_locked f = false) ->
      w_fs (try_remove w p) !! p = None).
Proof.
  split.
  - intros q Hq. by apply try_remove_lookup_other.
  - apply try_remove_gone.
Qed.

Lemma os_remove_try w p w1 deleted :
  os_remove w p = (w1, deleted) -> w1 = try_remove w p.
Proof. intros H. unfold try_remove. by rewrite H. Qed.

(** Stage 1 when nothing is converted. *)
Lemma stage1_footprint cfg w stats paths :
  jpg_only cfg && PIL_OK I = false ->
  NoDup paths ->
  footprint (fun s : World * CleanStats * list path => s.1.1) snd
            (fun p => stage1_ok E I cfg w p = true)
            paths (w, stats, []) (stage1 E I cfg w stats paths).
Proof.
  intros Hnc. unfold stage1. apply footprint_fold; [reflexivity|].
  intros [[w' st] kept] p Hp. cbn [fst snd] in *.
  pose proof (stage1_ok_local cfg w w' p Hp) as Hok.
  unfold stage1_ok in Hok. unfold stage1_step. rewrite Hnc.
  destruct (PIL_OK I) eqn:HP; cbn [negb orb andb] in *.
  - destruct (ensure_pillow_image E I w' p) eqn:Hpil; cbn [negb andb] in *.
    + destruct (cv2_read_size E w' p) as [wd ht].
      destruct ((wd =? 0) || (ht =? 0) || (Z.min wd ht <? min_side cfg)) eqn:Hsz.
      * right. destruct (os_remove w' p) as [w1 d] eqn:Hr.
        apply os_remove_try in Hr as ->. cbn [fst snd].
        split; [done|]. apply try_remove_footprint.
      * left. cbn [fst snd]. split; [done|]. split; [done|].
        unfold stage1_ok. rewrite HP. cbn [negb orb]. by rewrite <- Hok.
    + right. destruct (os_remove w' p) as [w1 d] eqn:Hr.
      apply os_remove_try in Hr as ->. cbn [fst snd].
      split; [done|]. apply try_remove_footprint.
  - destruct (cv2_read_size E w' p) as [wd ht].
    destruct ((wd =? 0) || (ht =? 0) || (Z.min wd ht <? min_side cfg)) eqn:Hsz.
    + right. destruct (os_remove w' p) as [w1 d] eqn:Hr.
      apply os_remove_try in Hr as ->. cbn [fst snd].
      split; [done|]. apply try_remove_footprint.
    + left. cbn [fst snd]. split; [done|]. split; [done|].
      unfold stage1_ok. rewrite HP. cbn [negb orb]. by rewrite <- Hok.
Qed.

Lemma stage2_footprint cf w stats paths :
  NoDup paths ->
  footprint (fun s : World * CleanStats * list path => s.1.1) snd
            (fun p => is_cat I cf w p = true)
            paths (w, stats, []) (stage2 I cf w stats paths).
Proof.
  unfold stage2. apply footprint_fold; [reflexivity|].
  intros [[w' st] fl] p Hp. cbn [fst snd] in *.
  unfold stage2_step. rewrite (is_cat_local cf w w' p Hp).
  destruct (is_cat I cf w p) eqn:Hc; cbn [fst snd].
  - by left.
  - right. split; [done|]. apply try_remove_footprint.
Qed.

Lemma stage3_footprint w stats paths :
  NoDup paths ->
  footprint (fun s : World * CleanStats * gmap string path * list path => s.1.1.1)
            snd
            (fun p => has_digest (file_md5 E w) p = true)
            paths (w, stats, ∅, []) (stage3 E w stats paths).
Proof.
  unfold stage3. apply footprint_fold; [reflexivity|].
  intros [[[w' st] seen] out] p Hp. cbn [fst snd] in *.
  unfold stage3_step. rewrite (file_md5_same_file E w w' p Hp).
  unfold has_digest.
  destruct (file_md5 E w p) as [h|]; cbn [fst snd].
  - destruct (bool_decide (is_Some (seen !! h))); cbn [fst snd].
    + right. split; [done|]. apply try_remove_footprint.
    + by left.
  - right. split; [done|]. apply try_remove_footprint.
Qed.

Lemma stage4_footprint thr w stats paths :
  NoDup paths ->
  footprint (fun s : World * CleanStats * list (path * Z) * list path => s.1.1.1)
            snd
            (fun p => is_Some (phash_of E I w p))
            paths (w, stats, [], []) (stage4_loop E I thr w stats paths).
Proof.
  unfold stage4_loop. apply footprint_fold; [reflexivity|].
  intros [[[w' st] seen] final] p Hp. cbn [fst snd] in *.
  pose proof (phash_of_local w w' p Hp) as Hph. unfold phash_of in Hph.
  unfold stage4_step.
  destruct (perceptual_hash E I w' p) as [w1 oph] eqn:Hcall.
  pose proof (perceptual_hash_counts E I _ _ _ _ Hcall) as (_ & _ & _ & Hfs).
  cbn [snd] in Hph. subst oph.
  destruct (perceptual_hash E I w p).2 as [h|] eqn:Hh; cbn [fst snd].
  - destruct (is_dup thr seen h); cbn [fst snd].
    + right. split; [done|]. rewrite <- Hfs. apply try_remove_footprint.
    + left. split; [done|]. split; [done|]. unfold phash_of. rewrite Hh. by eexists.
  - right. split; [done|]. rewrite <- Hfs. apply try_remove_footprint.
Qed.

End StageFootprints.

Lemma footprint_shrinks {S : Type} (world : S -> World) (out : S -> list path)
    (G : path -> Prop) (paths : list path) (s0 s : S) :
  footprint world out G paths s0 s ->
  no_locked_file (world s0) ->
  forall (q : path) (f : File), w_fs (world s) !! q = Some f ->
    w_fs (world s0) !! q = Some f /\ (q ∈ paths -> q ∈ out s).
Proof.
  intros [Hout Hkept Hrem _] Hlock q f Hf.
  destruct (decide (q ∈ paths)) as [Hin | Hnin].
  - destruct (decide (q ∈ out s)) as [Ho | Hno].
    + destruct (Hkept q Ho) as (_ & Hsame & _).
      split; [exact (eq_trans (eq_sym Hsame) Hf) | done].
    + rewrite (Hrem q Hin Hno) in Hf; [discriminate|]. intros f'. apply Hlock.
  - split; [|done]. exact (eq_trans (eq_sym (Hout q Hnin)) Hf).
Qed.

Lemma footprint_no_locked {S : Type} (world : S -> World) (out : S -> list path)
    (G : path -> Prop) (paths : list path) (s0 s : S) :
  footprint world out G paths s0 s ->
  no_locked_file (world s0) -> no_locked_file (world s).
Proof.
  intros Hfp Hlock q f Hf.
  destruct (footprint_shrinks world out G paths s0 s Hfp Hlock q f Hf) as [Hf0 _].
  by apply (Hlock q f).
Qed.

Lemma hashes_far_apart_intro (thr : Z) (h : path -> option Z) (l : list path) :
  NoDup l ->
  (forall p, p ∈ l -> is_Some (h p)) ->
  (forall p q a b, p ∈ l -> q ∈ l -> p <> q -> h p = Some a -> h q = Some b ->
                   thr < hamming_distance a b) ->
  hashes_far_apart thr (map h l) = true.
Proof.
  induction l as [|p l IH]; intros Hnd Hsome Hfar; [reflexivity|].
  apply NoDup_cons in Hnd as [Hp Hnd]. cbn [map hashes_far_apart].
  destruct (Hsome p) as [a Ha]; [left|]. rewrite Ha.
  apply andb_true_iff. split.
  - apply forallb_forall. intros o Ho. apply in_map_iff in Ho as (q & <- & Hq).
    apply list_elem_of_In in Hq.
    destruct (Hsome q) as [b Hb]; [by right|]. rewrite Hb.
    apply Z.ltb_lt. apply (Hfar p q a b); try done; [left | by right | by intros ->].
  - apply IH; [done | |].
    + intros q Hq. apply Hsome. by right.
    + intros q r b c Hq Hr. apply Hfar; by right.
Qed.

Section FirstRun.

Context (E : Extern) (I : Imports).

Lemma stage4_seen_hashes thr w stats paths :
  NoDup paths ->
  forall p h, (p, h) ∈ (stage4_loop E I thr w stats paths).1.2 ->
              phash_of E I w p = Some h.
Proof.
  induction paths as [|p0 pre IH] using rev_ind; intros Hnd p h.
  - simpl. intros H. by apply elem_of_nil in H.
  - apply NoDup_app in Hnd as (Hpre & Hdisj & _).
    assert (Hp0 : p0 ∉ pre).
    { intros Hin. apply (Hdisj p0 Hin). by apply list_elem_of_singleton. }
    pose proof (stage4_footprint E I thr w stats pre Hpre) as [Hout _ _ _].
    specialize (IH Hpre). rewrite stage4_loop_snoc.
    destruct (stage4_loop E I thr w stats pre) as [[[w' st] seen] final].
    cbn [fst snd] in *.
    pose proof (phash_of_local E I w w' p0 (Hout p0 Hp0)) as Hph.
    unfold phash_of in Hph. unfold stage4_step.
    destruct (perceptual_hash E I w' p0) as [w1 oph]. cbn [snd] in Hph. subst oph.
    destruct (perceptual_hash E I w p0).2 as [h0|] eqn:Hh; cbn [fst snd]; [|apply IH].
    destruct (is_dup thr seen h0); cbn [fst snd]; [apply IH|].
    intros Hin. apply elem_of_app in Hin as [Hin | Hin]; [by apply IH|].
    apply list_elem_of_singleton in Hin as [= -> ->]. exact Hh.
Qed.

(** A folder in which the kept list [F] is all there is to list, and in
    which the files of [F] pass every check, is settled. *)
Lemma settled_intro (cfg : Config) (cf : CatFilter) (w : World) (F : list path) :
  listing_sound E ->
  (forall q, q ∈ list_images E w -> q ∈ F) ->
  (forall q, q ∈ F -> file_settled E I cfg cf w q = true) ->
  (forall p q, p ∈ F -> q ∈ F -> file_md5 E w p = file_md5 E w q -> p = q) ->
  (near_dup_enabled I cfg = true ->
     (forall p, p ∈ F -> is_Some (phash_of E I w p))
     /\ (forall p q a b, p ∈ F -> q ∈ F -> p <> q ->
           phash_of E I w p = Some a -> phash_of E I w q = Some b ->
           NEAR_DUP_THRESHOLD < hamming_distance a b)) ->
  settled E I cfg cf w = true.
Proof.
  intros Hlist Hsub Hok Hinj Hnear. unfold settled.
  pose proof (list_images_NoDup E Hlist w) as Hnd.
  apply andb_true_iff. split; [apply andb_true_iff; split|].
  - apply forallb_forall. intros q Hq. apply Hok, Hsub. by apply list_elem_of_In.
  - apply bool_decide_eq_true.
    apply (NoDup_fmap_2_strong (file_md5 E w)); [|done].
    intros p q Hp Hq. apply Hinj; by apply Hsub.
  - destruct (near_dup_enabled I cfg); [|reflexivity]. cbn [negb orb].
    destruct (Hnear eq_refl) as [Hsome Hfar].
    apply hashes_far_apart_intro; [done | |].
    + intros p Hp. by apply Hsome, Hsub.
    + intros p q a b Hp Hq. apply Hfar; by apply Hsub.
Qed.

Lemma file_settled_local cfg cf w w' p :
  jpg_only cfg && PIL_OK I = false ->
  w_fs w' !! p = w_fs w !! p ->
  file_settled E I cfg cf w' p = file_settled E I cfg cf w p.
Proof.
  intros Hnc H. unfold file_settled, has_digest. rewrite Hnc. cbn [negb orb].
  rewrite (stage1_ok_local E I cfg w w' p H), (is_cat_local I cf w w' p H).
  by rewrite (file_md5_same_file E w w' p H).
Qed.

(** The first three stages, with nothing converted and no file locked:
    what is left of the listed files is the list [M] handed to stage 4,
    each file of it passes the checks of stages 1 to 3, and no two of them
    have the same digest. *)
Lemma after_stage3 (cfg : Config) (cf : CatFilter) (w : World)
    (st0 st1 st2 st3 : CleanStats) (w1 w2 w3 : World) (K L M : list path)
    (seen3 : gmap string path) :
  listing_sound E -> no_locked_file w -> jpg_only cfg && PIL_OK I = false ->
  stage1 E I cfg w st0 (list_images E w) = (w1, st1, K) ->
  stage2 I cf w1 st1 K = (w2, st2, L) ->
  stage3 E w2 st2 L = (w3, st3, seen3, M) ->
  NoDup M /\ no_locked_file w3
  /\ (forall (q : path) (f : File),
        is_image_name q = true -> w_fs w3 !! q = Some f -> q ∈ M)
  /\ (forall q, q ∈ M -> file_settled E I cfg cf w3 q = true)
  /\ (forall p q, p ∈ M -> q ∈ M ->
        file_md5 E w3 p = file_md5 E w3 q -> p = q).
Proof.
  intros Hlist Hlock Hnc H1 H2 H3.
  pose proof (list_images_NoDup E Hlist w) as HndP.
  pose proof (stage1_footprint E I cfg w st0 _ Hnc HndP) as F1.
  rewrite H1 in F1. cbn [fst snd] in F1.
  pose proof (footprint_shrinks _ _ _ _ _ _ F1 Hlock) as S1.
  pose proof (footprint_no_locked _ _ _ _ _ _ F1 Hlock) as Hlock1.
  destruct F1 as [O1 K1 R1 N1]. cbn [fst snd] in *.
  pose proof (stage2_footprint I cf w1 st1 K N1) as F2.
  rewrite H2 in F2. cbn [fst snd] in F2.
  pose proof (footprint_shrinks _ _ _ _ _ _ F2 Hlock1) as S2.
  pose proof (footprint_no_locked _ _ _ _ _ _ F2 Hlock1) as Hlock2.
  destruct F2 as [O2 K2 R2 N2]. cbn [fst snd] in *.
  pose proof (stage3_footprint E w2 st2 L N2) as F3.
  pose proof (stage3_invariant E w2 st2 L N2) as I3.
  rewrite H3 in F3, I3. cbn [fst snd] in F3.
  pose proof (footprint_shrinks _ _ _ _ _ _ F3 Hlock2) as S3.
  pose proof (footprint_no_locked _ _ _ _ _ _ F3 Hlock2) as Hlock3.
  destruct F3 as [O3 K3 R3 N3]. cbn [fst snd] in *.
  split; [exact N3|]. split; [exact Hlock3|]. split; [|split].
  - intros q f Himg Hf.
    destruct (S3 q f Hf) as [Hf2 HLM].
    destruct (S2 q f Hf2) as [Hf1 HKL].
    destruct (S1 q f Hf1) as [Hf0 HPK].
    apply HLM, HKL, HPK. apply (elem_of_list_images E Hlist). split; [by eexists | done].
  - intros q Hq.
    destruct (K3 q Hq) as (HqL & E3 & G3).
    destruct (K2 q HqL) as (HqK & E2 & G2).
    destruct (K1 q HqK) as (HqP & E1 & G1).
    unfold file_settled. rewrite Hnc. cbn [negb orb].
    rewrite (stage1_ok_local E I cfg w w3 q) by (by rewrite E3, E2, E1).
    rewrite (is_cat_local I cf w1 w3 q) by (by rewrite E3, E2).
    unfold has_digest. rewrite (file_md5_same_file E w2 w3 q E3).
    unfold has_digest in G3. by rewrite G1, G2, G3.
  - intros p q Hp Hq Heq.
    destruct (K3 p Hp) as (_ & Ep & _). destruct (K3 q Hq) as (_ & Eq & _).
    rewrite (file_md5_same_file E w2 w3 p Ep) in Heq.
    rewrite (file_md5_same_file E w2 w3 q Eq) in Heq.
    destruct I3 as [_ _ _ Iout _ _ _]. cbn [fst snd] in Iout.
    apply Iout in Hp as (hp & Hfp). apply Iout in Hq as (hq & Hfq).
    assert (hp = hq) as ->.
    { destruct Hfp as (? & _ & Hdp & _). destruct Hfq as (? & _ & Hdq & _). congruence. }
    by eapply first_with_unique.
Qed.

(** With nothing to convert and no file locked, one run settles the
    folder. *)
Theorem first_run_settles (cfg : Config) (cf : CatFilter) (w : World) :
  listing_sound E -> no_locked_file w -> jpg_only cfg && PIL_OK I = false ->
  settled E I cfg cf (clean_breed_folder E I cfg cf w).1 = true.
Proof.
  intros Hlist Hlock Hnc. unfold clean_breed_folder, clean_with.
  destruct (stage1 E I cfg w _ _) as [[w1 st1] K] eqn:H1.
  destruct (stage2 I cf w1 st1 K) as [[w2 st2] L] eqn:H2.
  destruct (stage3 E w2 st2 L) as [[[w3 st3] seen3] M] eqn:H3.
  destruct (after_stage3 cfg cf w _ _ _ _ _ _ _ _ _ _ _ Hlist Hlock Hnc H1 H2 H3)
    as (NM & Hlock3 & Himg & Hok & Hinj).
  unfold stage4. destruct (near_dup_enabled I cfg) eqn:Hen.
  - pose proof (stage4_footprint E I NEAR_DUP_THRESHOLD w3 st3 M NM) as F4.
    pose proof (stage4_loop_invariant E I NEAR_DUP_THRESHOLD w3 st3 M) as I4.
    pose proof (stage4_seen_hashes NEAR_DUP_THRESHOLD w3 st3 M NM) as Hseen.
    destruct (stage4_loop E I NEAR_DUP_THRESHOLD w3 st3 M)
      as [[[w4 st4] seen] F] eqn:H4.
    cbn [fst snd] in *.
    pose proof (footprint_shrinks _ _ _ _ _ _ F4 Hlock3) as S4.
    destruct F4 as [O4 K4 R4 N4]. destruct I4 as (Hfar & Hmap & _).
    cbn [fst snd] in *.
    apply (settled_intro cfg cf w4 F Hlist).
    + intros q Hq. apply (elem_of_list_images E Hlist) in Hq as [[f Hf] Hname].
      destruct (S4 q f Hf) as [Hf3 HMF]. apply HMF. by apply (Himg q f).
    + intros q Hq. destruct (K4 q Hq) as (HqM & E4 & _).
      rewrite (file_settled_local cfg cf w3 w4 q Hnc E4). by apply Hok.
    + intros p q Hp Hq Heq.
      destruct (K4 p Hp) as (HpM & Ep & _). destruct (K4 q Hq) as (HqM & Eq & _).
      rewrite (file_md5_same_file E w3 w4 p Ep) in Heq.
      rewrite (file_md5_same_file E w3 w4 q Eq) in Heq.
      by apply Hinj.
    + intros _. split.
      * intros p Hp. destruct (K4 p Hp) as (_ & Ep & Gp).
        by rewrite (phash_of_local E I w3 w4 p Ep).
      * intros p q a b Hp Hq Hne Ha Hb.
        destruct (K4 p Hp) as (_ & Ep & _). destruct (K4 q Hq) as (_ & Eq & _).
        rewrite (phash_of_local E I w3 w4 p Ep) in Ha.
        rewrite (phash_of_local E I w3 w4 q Eq) in Hb.
        rewrite <- Hmap in Hp, Hq.
        apply list_elem_of_lookup in Hp as [i Hi]. apply list_elem_of_lookup in Hq as [j Hj].
        rewrite list_lookup_fmap in Hi, Hj.
        destruct (seen !! i) as [[p' a']|] eqn:Hsi; [|discriminate].
        destruct (seen !! j) as [[q' b']|] eqn:Hsj; [|discriminate].
        simpl in Hi, Hj. injection Hi as ->. injection Hj as ->.
        assert (a' = a) as ->.
        { pose proof (Hseen p a' (list_elem_of_lookup_2 _ _ _ Hsi)). congruence. }
        assert (b' = b) as ->.
        { pose proof (Hseen q b' (list_elem_of_lookup_2 _ _ _ Hsj)). congruence. }
        apply (Hfar i j (p, a) (q, b)); [|done|done].
        intros ->. rewrite Hsi in Hsj. by injection Hsj.
  - cbn [fst]. apply (settled_intro cfg cf w3 M Hlist).
    + intros q Hq. apply (elem_of_list_images E Hlist) in Hq as [[f Hf] Hname].
      by apply (Himg q f).
    + exact Hok.
    + exact Hinj.
    + intros Hc. rewrite Hen in Hc. discriminate.
Qed.

(** X23: with nothing to convert and no file locked, the second of two
    runs in a row removes and converts nothing and leaves the folder as
    the first run left it. *)
Corollary second_run_is_idle (cfg : Config) (cf : CatFilter) (w : World) :
  listing_sound E -> no_locked_file w -> jpg_only cfg && PIL_OK I = false ->
  let w1 := (clean_breed_folder E I cfg cf w).1 in
  let '(w2, s2) := clean_breed_folder E I cfg cf w1 in
  w_fs w2 = w_fs w1
  /\ removed_total s2 = O /\ before s2 = after s2
  /\ nconvert w2 = nconvert w1.
Proof.
  intros Hlist Hlock Hnc w1.
  pose proof (first_run_settles cfg cf w Hlist Hlock Hnc) as Hs. fold w1 in Hs.
  destruct (settled_run E I cfg cf w1 Hs) as (w2 & -> & Hfs & Hc & _).
  repeat split; done.
Qed.

End FirstRun.

(** ** The books balance when no file is locked *)

Section AccountingWithoutLocks.

Context (E : Extern) (I : Imports).

Lemma write_file_keeps w p d :
  no_locked_file w ->
  no_locked_file (write_file w p d)
  /\ forall q : path, is_Some (w_fs w !! q) -> is_Some (w_fs (write_file w p d) !! q).
Proof.
  intros Hlock. unfold write_file. split.
  - intros q f Hf. cbn [w_fs] in Hf.
    apply lookup_insert_Some in Hf as [[<- <-] | [Hne Hf]].
    + destruct (w_fs w !! p) as [old|] eqn:Hold; [|reflexivity].
      cbn [f_locked]. by apply (Hlock p old).
    + by apply (Hlock q f).
  - intros q Hq. cbn [w_fs]. apply lookup_insert_is_Some.
    destruct (decide (p = q)); [by left | by right].
Qed.

Lemma try_remove_keeps w p :
  no_locked_file w ->
  no_locked_file (try_remove w p)
  /\ forall q : path, q <> p ->
       is_Some (w_fs w !! q) -> is_Some (w_fs (try_remove w p) !! q).
Proof.
  intros Hlock. split.
  - intros q f Hf. destruct (os_remove_fs w p) as [Hfs | Hfs]; rewrite Hfs in Hf.
    + by apply (Hlock q f).
    + apply lookup_delete_Some in Hf as [_ Hf]. by apply (Hlock q f).
  - intros q Hq Hex. by rewrite try_remove_lookup_other.
Qed.

Lemma convert_keeps w w1 p out ok :
  exif_normalize_and_convert_jpg E I w p out = (w1, ok) ->
  no_locked_file w ->
  no_locked_file w1
  /\ forall q : path, is_Some (w_fs w !! q) -> is_Some (w_fs w1 !! q).
Proof.
  unfold exif_normalize_and_convert_jpg. intros H Hlock.
  assert (Hsame : no_locked_file (log_event w (EvConvert p out))
                  /\ forall q : path, is_Some (w_fs w !! q) ->
                       is_Some (w_fs (log_event w (EvConvert p out)) !! q)).
  { split; [exact Hlock | done]. }
  destruct (negb (PIL_OK I)); [by injection H as <- <-|].
  destruct (read_file _ p) as [d|]; [|by injection H as <- <-].
  destruct (jpeg_encode E d) as [j|]; [|by injection H as <- <-].
  injection H as <- <-.
  apply (write_file_keeps (log_event w (EvConvert p out)) out j). exact Hlock.
Qed.

Lemma os_remove_unlocked w p :
  no_locked_file w -> is_Some (w_fs w !! p) ->
  os_remove w p = (try_remove w p, true).
Proof.
  intros Hlock [f Hf]. unfold try_remove, os_remove.
  by rewrite Hf, (Hlock p f Hf).
Qed.

(** With [p] present and no file locked, stage 1 counts [p] or keeps it. *)
Lemma stage1_step_unlocked cfg w st kept p :
  no_locked_file w -> is_Some (w_fs w !! p) ->
  exactly 1 (w, st, length kept) (view3 (stage1_step E I cfg (w, st, kept) p))
  /\ no_locked_file (stage1_step E I cfg (w, st, kept) p).1.1
  /\ forall q : path, q <> p -> is_Some (w_fs w !! q) ->
       is_Some (w_fs (stage1_step E I cfg (w, st, kept) p).1.1 !! q).
Proof.
  intros Hlock Hex. unfold stage1_step.
  pose proof (os_remove_unlocked w p Hlock Hex) as Hrm.
  pose proof (try_remove_keeps w p Hlock) as [Hl1 He1].
  pose proof (os_remove_counts w (try_remove w p) p true Hrm) as (Hf & _ & _).
  destruct (negb _ && PIL_OK I).
  { rewrite Hrm. cbn [fst snd]. split; [stats_arith | by split]. }
  destruct (cv2_read_size E w p) as [wd ht].
  destruct ((wd =? 0) || (ht =? 0) || (Z.min wd ht <? min_side cfg)).
  { rewrite Hrm. cbn [fst snd]. split; [stats_arith | by split]. }
  destruct (jpg_only cfg && PIL_OK I); [|cbn [fst snd]; split; [stats_arith | by split]].
  destruct (needs_convert w p); [|cbn [fst snd]; split; [stats_arith | by split]].
  destruct (exif_normalize_and_convert_jpg _ _ _ _ _) as [w1 ok] eqn:Hc.
  pose proof (convert_keeps _ _ _ _ _ Hc Hlock) as [Hl2 He2].
  pose proof (try_remove_keeps w1 p Hl2) as [Hl3 He3].
  apply convert_counts in Hc as (H1 & H2 & H3).
  pose proof (try_remove_counts w1 p) as (H4 & _ & _).
  destruct ok; [destruct (keep_intermediate cfg)|]; cbn [fst snd];
    (split; [stats_arith | split; [done|]]); intros q Hq Hx; auto.
Qed.

Lemma stage1_exactly_unlocked cfg : forall paths w st kept,
  NoDup paths -> no_locked_file w ->
  (forall q, q ∈ paths -> is_Some (w_fs w !! q)) ->
  exactly (length paths) (w, st, length kept)
          (view3 (fold_left (stage1_step E I cfg) paths (w, st, kept))).
Proof.
  induction paths as [|p paths IH]; intros w st kept Hnd Hlock Hex; cbn [fold_left length].
  - apply exactly_refl.
  - apply NoDup_cons in Hnd as [Hp Hnd].
    destruct (stage1_step_unlocked cfg w st kept p Hlock) as (Hstep & Hl & He).
    { apply Hex. left. }
    destruct (stage1_step E I cfg (w, st, kept) p) as [[w' st'] kept'].
    cbn [fst snd] in *. change (S (length paths)) with (1 + length paths)%nat.
    eapply exactly_trans; [exact Hstep|].
    apply (IH w' st' kept' Hnd Hl).
    intros q Hq. apply He; [by intros -> | apply Hex; by right].
Qed.

(** X22: every listed file is let through or counted exactly once when
    the listing is sound and no file of the folder is locked: a removal
    that raises in stage 1 is the only way for a file to go uncounted. *)
Theorem accounting_exact_without_locks (cfg : Config) (cf : CatFilter) (w : World) :
  listing_sound E -> no_locked_file w ->
  let s := (clean_breed_folder E I cfg cf w).2 in
  before s = (after s + removed_small s + removed_broken s + removed_notcat s
              + removed_dup_md5 s + removed_dup_phash s)%nat.
Proof.
  intros Hlist Hlock. unfold clean_breed_folder, clean_with.
  pose proof (stage1_exactly_unlocked cfg (list_images E w) w
                (set_before stats0 (length (list_images E w))) []
                (list_images_NoDup E Hlist w) Hlock) as A.
  unfold stage1.
  destruct (fold_left _ _ _) as [[w1 st1] kept] eqn:H1.
  destruct (stage2 _ _ _ _ _) as [[w2 st2] fl] eqn:H2.
  destruct (stage3 _ _ _ _) as [[[w3 st3] seen] out] eqn:H3.
  destruct (stage4 _ _ _ _ _ _ _) as [[w4 st4] final] eqn:H4.
  destruct A as (A1 & A2 & A3).
  { intros q Hq. by apply (elem_of_list_images E Hlist) in Hq as [Hq _]. }
  apply stage2_counts in H2 as [(B1 & B2 & B3) _].
  apply stage3_counts in H3 as [(C1 & C2 & C3) _].
  apply stage4_counts in H4 as (D1 & D2 & D3).
  unfold view3, removed_total, set_after, set_before, stats0 in *.
  cbn [fst snd length before removed_small removed_broken removed_notcat
       removed_dup_md5 removed_dup_phash after] in *.
  lia.
Qed.

End AccountingWithoutLocks.

(** ** The toy libraries meet the hypotheses *)

Lemma toy_listing_sound : listing_sound Toy.libs.
Proof.
  intros fs. cbn [listdir Toy.libs]. unfold Toy.sorted_names.
  pose proof (merge_sort_Permutation
                (fun a b : string => Is_true (String.leb a b))
                (map_to_list fs).*1) as Hperm.
  split.
  - rewrite Hperm. apply NoDup_fst_map_to_list.
  - intros p. rewrite Hperm, list_elem_of_fmap. split.
    + intros ([q f] & -> & Hin). apply elem_of_map_to_list in Hin. by exists f.
    + intros [f Hf]. exists (p, f). split; [done|]. by apply elem_of_map_to_list.
Qed.

Lemma all_unlocked_sound (w : World) :
  all_unlocked w = true -> no_locked_file w.
Proof.
  unfold all_unlocked. rewrite forallb_forall. intros H p f Hf.
  apply elem_of_map_to_list, list_elem_of_In in Hf.
  specialize (H (p, f) Hf). by apply negb_true_iff in H.
Qed.

(** Four near duplicates, conversion off: the first run removes one of
    them, the second finds nothing to do. *)
Example second_run_on_four_is_idle :
  let w1 := (Reruns.run Toy.cfg_plain Toy.cat_filter NearDupRuns.four).1 in
  let '(w2, s2) := Reruns.run Toy.cfg_plain Toy.cat_filter w1 in
  w_fs w2 = w_fs w1 /\ removed_total s2 = O /\ before s2 = after s2
  /\ nconvert w2 = nconvert w1.
Proof.
  apply (second_run_is_idle Toy.libs Toy.all_ok Toy.cfg_plain Toy.cat_filter
           NearDupRuns.four toy_listing_sound).
  - apply all_unlocked_sound. vm_compute. reflexivity.
  - reflexivity.
Defined.

Example books_balance_on_four :
  let s := (Reruns.run Toy.cfg_jpg Toy.cat_filter NearDupRuns.four).2 in
  before s = (after s + removed_small s + removed_broken s + removed_notcat s
              + removed_dup_md5 s + removed_dup_phash s)%nat.
Proof.
  apply (accounting_exact_without_locks Toy.libs Toy.all_ok Toy.cfg_jpg
           Toy.cat_filter NearDupRuns.four toy_listing_sound).
  apply all_unlocked_sound. vm_compute. reflexivity.
Defined.

(** ** The theorems at work on concrete folders *)

Lemma classifier_off_is_permissive_witness :
  (true = true \/ TF_OK Toy.all_ok = false \/ mobilenet_v2 Toy.libs = None)
  /\ (let cf := CatFilter_init Toy.libs Toy.all_ok (1 # 5) true in
      (forall w p, is_cat Toy.all_ok cf w p = true)
      /\ (forall w stats kept_paths,
            stage2 Toy.all_ok cf w stats kept_paths = (w, stats, kept_paths))).
Proof.
  split; [left; reflexivity|].
  apply (classifier_off_is_permissive Toy.libs Toy.all_ok (1 # 5) true).
  left. reflexivity.
Defined.

Lemma is_cat_accepts_iff_witness :
  let w := Reruns.jpg_and_jpeg in
  disabled Toy.cat_filter = false
  /\ model Toy.cat_filter = Some Toy.net
  /\ is_cat Toy.all_ok Toy.cat_filter w "a.jpeg" = true
  /\ is_cat Toy.all_ok Toy.cat_filter w "a.jpg" = false
  /\ stage2_step Toy.all_ok Toy.cat_filter (w, stats0, []) "a.jpg"
     = (try_remove w "a.jpg", inc_notcat stats0, [])
  /\ w_fs (stage2_step Toy.all_ok Toy.cat_filter (w, stats0, []) "a.jpg").1.1
       !! "a.jpg" = None
  /\ exists top,
       predict_top Toy.all_ok Toy.net w "a.jpg"
       = Some (top, nth top (Toy.one_hot 7 (90 # 100)) 0%Q).
Proof.
  intros w.
  pose proof (is_cat_accepts_iff Toy.all_ok Toy.cat_filter Toy.net w stats0 []
                "a.jpg" eq_refl eq_refl)
    as (_ & _ & _ & Hrej & Htop & _ & _ & Hgone).
  split; [reflexivity|]. split; [reflexivity|].
  split; [vm_compute; reflexivity|].
  assert (Hno : is_cat Toy.all_ok Toy.cat_filter w "a.jpg" = false)
    by (vm_compute; reflexivity).
  split; [exact Hno|]. split; [exact (proj1 (Hrej Hno))|]. split.
  - destruct (Hgone Hno) as (_ & Hg & _). apply Hg.
    intros f Hf. vm_compute in Hf. by injection Hf as <-.
  - destruct (Htop (Toy.image 200 200 7 90 3) (Toy.one_hot 7 (90 # 100)))
      as (top & Hp & _); [reflexivity | by vm_compute | by vm_compute | discriminate |].
    by exists top.
Defined.

Lemma classifier_exception_is_notcat_witness :
  let w := Toy.folder [("x.jpg", Toy.file Toy.garbage)] in
  predict_top Toy.all_ok Toy.net w "x.jpg" = None
  /\ is_cat Toy.all_ok Toy.cat_filter w "x.jpg" = false
  /\ stage2_step Toy.all_ok Toy.cat_filter (w, stats0, []) "x.jpg"
     = (try_remove w "x.jpg", inc_notcat stats0, []).
Proof.
  intros w.
  assert (Hraise : predict_top Toy.all_ok Toy.net w "x.jpg" = None)
    by (vm_compute; reflexivity).
  pose proof (classifier_exception_is_notcat Toy.all_ok Toy.cat_filter Toy.net
                w stats0 [] "x.jpg" eq_refl eq_refl Hraise) as (H1 & H2 & _).
  repeat split; assumption.
Defined.

Lemma near_dup_skipped_without_libraries_witness :
  let imports := mkImports false true false in
  remove_near_dup Toy.cfg_plain = true
  /\ PIL_OK imports = false /\ IMAGEHASH_OK imports = false
  /\ (forall thr w stats md5_filtered,
        stage4 Toy.libs imports thr Toy.cfg_plain w stats md5_filtered
        = (w, stats, md5_filtered)).
Proof.
  intros imports.
  split; [reflexivity|]. split; [reflexivity|]. split; [reflexivity|].
  apply (near_dup_skipped_without_libraries Toy.libs imports Toy.cfg_plain);
    reflexivity.
Defined.

Lemma perceptual_hash_by_library_witness :
  let w := Toy.folder [("a.jpg", Toy.file (Toy.image 200 200 281 90 5))] in
  IMAGEHASH_OK Toy.no_imagehash = false
  /\ (perceptual_hash Toy.libs Toy.no_imagehash w "a.jpg").2
     = simple_dhash Toy.libs Toy.all_ok w "a.jpg" 16.
Proof.
  intros w. split; [reflexivity|].
  apply (perceptual_hash_by_library Toy.libs Toy.no_imagehash w "a.jpg").
  reflexivity.
Defined.

Lemma near_dup_verdict_monotone_witness :
  5 <= 6
  /\ (forall ph, is_dup 5 [("a.jpg", 0)] ph = true ->
                 is_dup 6 [("a.jpg", 0)] ph = true).
Proof.
  split; [lia|].
  apply (near_dup_verdict_monotone Toy.libs Toy.all_ok 5 6 [("a.jpg", 0)]).
  lia.
Defined.


(** * Further properties of the script *)

(** ** The Hamming distance *)

Lemma pos_bit_count_pos (p : positive) : 1 <= pos_bit_count p.
Proof. induction p; simpl; lia. Qed.

Lemma bit_count_nonneg (z : Z) : 0 <= bit_count z.
Proof. destruct z as [|p|p]; simpl; [lia | |]; pose proof (pos_bit_count_pos p); lia. Qed.

Lemma bit_count_zero (z : Z) : bit_count z = 0 <-> z = 0.
Proof.
  destruct z as [|p|p]; simpl; split; try done;
    pose proof (pos_bit_count_pos p); lia.
Qed.

(** Counting the ones of [2 z + b]. *)
Lemma bit_count_double (z : Z) (b : bool) :
  0 <= z -> bit_count (2 * z + Z.b2z b) = bit_count z + Z.b2z b.
Proof.
  intros Hz. destruct z as [|p|p]; [by destruct b | | lia].
  destruct b; simpl Z.b2z.
  - change (2 * Z.pos p + 1) with (Z.pos p~1). simpl. lia.
  - rewrite Z.add_0_r. change (2 * Z.pos p) with (Z.pos p~0). simpl. lia.
Qed.

Lemma lxor_double (a a' : Z) (b b' : bool) :
  Z.lxor (2 * a + Z.b2z b) (2 * a' + Z.b2z b')
  = 2 * Z.lxor a a' + Z.b2z (xorb b b').
Proof.
  apply Z.bits_inj'. intros n Hn. rewrite Z.lxor_spec.
  destruct (Z.eq_dec n 0) as [->|Hne].
  - by rewrite !Z.testbit_0_r.
  - replace n with (Z.succ (n - 1)) by lia.
    rewrite !Z.testbit_succ_r by lia. by rewrite Z.lxor_spec.
Qed.

Lemma halves (z : Z) : z = 2 * Z.div2 z + Z.b2z (Z.odd z).
Proof. apply Z.div2_odd. Qed.

Lemma div2_bound (n : nat) (z : Z) :
  0 <= z < 2 ^ Z.of_nat (S n) -> 0 <= Z.div2 z < 2 ^ Z.of_nat n.
Proof.
  intros Hz. rewrite Nat2Z.inj_succ, Z.pow_succ_r in Hz by lia.
  pose proof (halves z) as Hh. destruct (Z.odd z); simpl Z.b2z in Hh; lia.
Qed.

(** Below [2^n] there are at most [n] ones. *)
Lemma bit_count_bound (n : nat) : forall z,
  0 <= z < 2 ^ Z.of_nat n -> bit_count z <= Z.of_nat n.
Proof.
  induction n as [|n IH]; intros z Hz.
  - assert (z = 0) as -> by (simpl in Hz; lia). simpl. lia.
  - pose proof (div2_bound n z Hz) as Hd. specialize (IH _ Hd).
    rewrite (halves z), bit_count_double by lia.
    destruct (Z.odd z); simpl Z.b2z; lia.
Qed.

Lemma lxor_bound (n : nat) : forall a b,
  0 <= a < 2 ^ Z.of_nat n -> 0 <= b < 2 ^ Z.of_nat n ->
  0 <= Z.lxor a b < 2 ^ Z.of_nat n.
Proof.
  induction n as [|n IH]; intros a b Ha Hb.
  - assert (a = 0) as -> by (simpl in Ha; lia).
    assert (b = 0) as -> by (simpl in Hb; lia).
    rewrite Z.lxor_0_l. simpl. lia.
  - pose proof (div2_bound n a Ha) as Hda. pose proof (div2_bound n b Hb) as Hdb.
    specialize (IH _ _ Hda Hdb).
    rewrite (halves a), (halves b), lxor_double.
    rewrite Nat2Z.inj_succ, Z.pow_succ_r by lia.
    destruct (xorb (Z.odd a) (Z.odd b)); simpl Z.b2z; lia.
Qed.

Lemma bit_count_lxor_le (n : nat) : forall a b,
  0 <= a < 2 ^ Z.of_nat n -> 0 <= b < 2 ^ Z.of_nat n ->
  bit_count (Z.lxor a b) <= bit_count a + bit_count b.
Proof.
  induction n as [|n IH]; intros a b Ha Hb.
  - assert (a = 0) as -> by (simpl in Ha; lia).
    assert (b = 0) as -> by (simpl in Hb; lia).
    rewrite Z.lxor_0_l. simpl. lia.
  - pose proof (div2_bound n a Ha) as Hda. pose proof (div2_bound n b Hb) as Hdb.
    pose proof (IH _ _ Hda Hdb) as Hle.
    pose proof (lxor_bound n _ _ Hda Hdb) as Hx.
    rewrite (halves a), (halves b).
    rewrite lxor_double, !bit_count_double by lia.
    destruct (Z.odd a), (Z.odd b); simpl; lia.
Qed.

Lemma below_common_power (a b c : Z) :
  0 <= a -> 0 <= b -> 0 <= c ->
  exists n : nat, a < 2 ^ Z.of_nat n /\ b < 2 ^ Z.of_nat n /\ c < 2 ^ Z.of_nat n.
Proof.
  intros Ha Hb Hc. exists (Z.to_nat (a + b + c)).
  assert (Hp : forall x, 0 <= x <= a + b + c -> x < 2 ^ Z.of_nat (Z.to_nat (a + b + c))).
  { intros x Hx. rewrite Z2Nat.id by lia.
    pose proof (Z.pow_gt_lin_r 2 (a + b + c)). lia. }
  repeat split; apply Hp; lia.
Qed.

Lemma hamming_distance_sym_zero (a b : Z) :
  (hamming_distance a b = 0 -> a = b) /\ (a = b -> hamming_distance a b = 0).
Proof.
  unfold hamming_distance. rewrite bit_count_zero.
  split; apply Z.lxor_eq_0_iff.
Qed.

(** X1: [hamming_distance] is symmetric, never negative, and zero exactly
    on equal arguments, whatever the sign of the integers. *)
Theorem hamming_distance_separates (a b : Z) :
  hamming_distance a b = hamming_distance b a
  /\ 0 <= hamming_distance a b
  /\ (hamming_distance a b = 0 <-> a = b).
Proof.
  unfold hamming_distance. split; [by rewrite Z.lxor_comm|].
  split; [apply bit_count_nonneg|].
  rewrite bit_count_zero. apply Z.lxor_eq_0_iff.
Qed.

(** X2: on non-negative integers, which perceptual hashes are,
    [hamming_distance] satisfies the triangle inequality. *)
Theorem hamming_distance_triangle (a b c : Z) :
  0 <= a -> 0 <= b -> 0 <= c ->
  hamming_distance a c <= hamming_distance a b + hamming_distance b c.
Proof.
  intros Ha Hb Hc. unfold hamming_distance.
  destruct (below_common_power a b c Ha Hb Hc) as (n & Hna & Hnb & Hnc).
  replace (Z.lxor a c) with (Z.lxor (Z.lxor a b) (Z.lxor b c)).
  - apply (bit_count_lxor_le n); apply lxor_bound; lia.
  - rewrite Z.lxor_assoc, <- (Z.lxor_assoc b b c), Z.lxor_nilpotent, Z.lxor_0_l.
    reflexivity.
Qed.

(** X3: two hashes of [n] bits are at most [n] apart, so the distance the
    near-duplicate test compares with [6] lies between [0] and [256] for
    the difference hashes of stage 4. *)
Theorem hamming_distance_bounded (n : nat) (a b : Z) :
  0 <= a < 2 ^ Z.of_nat n -> 0 <= b < 2 ^ Z.of_nat n ->
  hamming_distance a b <= Z.of_nat n.
Proof.
  intros Ha Hb. unfold hamming_distance.
  apply bit_count_bound. by apply lxor_bound.
Qed.

(** ** The distance between two difference hashes *)

Lemma bits_to_int_snoc (l : list bool) (b : bool) :
  bits_to_int (l ++ [b]) = 2 * bits_to_int l + Z.b2z b.
Proof. unfold bits_to_int. rewrite fold_left_app. cbn [fold_left]. apply shift_or_bit. Qed.

(** Two integers built bit by bit over the same positions differ in as
    many bits as the two rows of bits do. *)
Lemma bits_distance {A : Type} (f g : A -> bool) (cs : list A) :
  hamming_distance (bits_to_int (map f cs)) (bits_to_int (map g cs))
  = Z.of_nat (length (List.filter (fun c => xorb (f c) (g c)) cs)).
Proof.
  induction cs as [|c cs IH] using rev_ind; [reflexivity|].
  rewrite !map_app, List.filter_app, length_app. cbn [map List.filter].
  rewrite !bits_to_int_snoc. unfold hamming_distance in *.
  rewrite lxor_double, bit_count_double.
  - rewrite IH. destruct (xorb (f c) (g c)); simpl length; simpl Z.b2z; lia.
  - pose proof (bits_to_int_bound (map f cs)) as Hf.
    pose proof (bits_to_int_bound (map g cs)) as Hg.
    rewrite !length_map in *.
    pose proof (lxor_bound (length cs) _ _ Hf Hg). lia.
Qed.

Lemma grid_bits_cells (img : Z -> Z -> Z) (xs ys : list nat) :
  flat_map (fun y : nat =>
    map (fun x : nat =>
           img (Z.of_nat x) (Z.of_nat y) >? img (Z.of_nat x + 1) (Z.of_nat y)) xs) ys
  = map (brighter_left img)
        (flat_map (fun y : nat => map (fun x : nat => (x, y)) xs) ys).
Proof.
  induction ys as [|y ys IH]; [reflexivity|].
  cbn [flat_map]. rewrite map_app, IH, map_map. reflexivity.
Qed.

Lemma dhash_bits_cells (img : Z -> Z -> Z) (hs : nat) :
  dhash_bits img hs = map (brighter_left img) (dhash_cells hs).
Proof. apply grid_bits_cells. Qed.

Lemma filter_xorb_nil {A : Type} (f g : A -> bool) (cs : list A) :
  (forall c, c ∈ cs -> f c = g c) ->
  List.filter (fun c => xorb (f c) (g c)) cs = [].
Proof.
  induction cs as [|c cs IH]; intros Hall; [done|].
  cbn [List.filter]. rewrite (Hall c) by apply list_elem_of_here.
  rewrite xorb_nilpotent. apply IH. intros c' Hc'.
  apply Hall. by apply list_elem_of_further.
Qed.

Section DifferenceHashDistance.

Context (E : Extern) (I : Imports).

(** X4: the Hamming distance between the difference hashes of two files
    is the number of grid cells at which the comparison [left > right]
    comes out differently in the two resized images; in particular it is
    [0] exactly when the two images agree on every comparison. *)
Theorem dhash_distance_counts_cells (w : World) (p q : path) (hs : nat)
    (dp dq : bytes) (ip iq : Z -> Z -> Z) :
  PIL_OK I = true ->
  read_file w p = Some dp -> read_file w q = Some dq ->
  pil_gray_resize E dp (Z.of_nat hs + 1) (Z.of_nat hs) = Some ip ->
  pil_gray_resize E dq (Z.of_nat hs + 1) (Z.of_nat hs) = Some iq ->
  exists a b,
    simple_dhash E I w p hs = Some a
    /\ simple_dhash E I w q hs = Some b
    /\ hamming_distance a b
       = Z.of_nat (length (List.filter
           (fun c => xorb (brighter_left ip c) (brighter_left iq c))
           (dhash_cells hs)))
    /\ (a = b <-> forall c, c ∈ dhash_cells hs ->
                   brighter_left ip c = brighter_left iq c).
Proof.
  intros HP Hp Hq Hip Hiq. unfold simple_dhash.
  rewrite HP, Hp, Hq, Hip, Hiq. cbn [negb].
  eexists _, _. split; [reflexivity|]. split; [reflexivity|].
  rewrite !dhash_bits_cells.
  pose proof (bits_distance (brighter_left ip) (brighter_left iq) (dhash_cells hs))
    as Hd.
  split; [exact Hd|].
  destruct (hamming_distance_sym_zero
              (bits_to_int (map (brighter_left ip) (dhash_cells hs)))
              (bits_to_int (map (brighter_left iq) (dhash_cells hs)))) as [Hz1 Hz2].
  split.
  - intros Heq c Hc. apply Hz2 in Heq. rewrite Hd in Heq.
    assert (Hnil : List.filter (fun c => xorb (brighter_left ip c) (brighter_left iq c))
                     (dhash_cells hs) = []).
    { destruct (List.filter _ _); [done | simpl in Heq; lia]. }
    destruct (xorb (brighter_left ip c) (brighter_left iq c)) eqn:Hx.
    + assert (Hin : In c (List.filter
                 (fun c => xorb (brighter_left ip c) (brighter_left iq c))
                 (dhash_cells hs))).
      { apply List.filter_In. split; [by apply list_elem_of_In | done]. }
      rewrite Hnil in Hin. destruct Hin.
    + by destruct (brighter_left ip c), (brighter_left iq c).
  - intros Hall. apply Hz1. rewrite Hd.
    by rewrite (filter_xorb_nil _ _ _ Hall).
Qed.

End DifferenceHashDistance.

(** With a 2 by 2 grid, a flat image and one whose rows fall from left to
    right differ at two cells. *)
Lemma dhash_distance_counts_cells_witness :
  let w := Toy.folder [("a.jpg", Toy.file [1; 9; 9; 281; 90; 0; 0]);
                       ("b.jpg", Toy.file [1; 9; 9; 281; 90; 0; 255])] in
  exists a b,
    simple_dhash Toy.libs Toy.all_ok w "a.jpg" 2 = Some a
    /\ simple_dhash Toy.libs Toy.all_ok w "b.jpg" 2 = Some b
    /\ hamming_distance a b = 2.
Proof.
  intros w.
  destruct (dhash_distance_counts_cells Toy.libs Toy.all_ok w "a.jpg" "b.jpg" 2
              [1; 9; 9; 281; 90; 0; 0] [1; 9; 9; 281; 90; 0; 255]
              (fun x y => (0 * x + y) mod 256) (fun x y => (255 * x + y) mod 256)
              eq_refl eq_refl eq_refl eq_refl eq_refl)
    as (a & b & Ha & Hb & Hd & _).
  exists a, b. split; [exact Ha|]. split; [exact Hb|]. exact Hd.
Defined.

Lemma hamming_distance_triangle_witness :
  hamming_distance 5 12 <= hamming_distance 5 9 + hamming_distance 9 12.
Proof. apply (hamming_distance_triangle 5 9 12); lia. Defined.

Lemma hamming_distance_bounded_witness :
  hamming_distance 0 65535 <= 16.
Proof.
  apply (hamming_distance_bounded 16 0 65535); split; try lia; reflexivity.
Defined.

(** ** Slugs *)

Module SlugFacts.

Import Slug.

Lemma slug_char_lower (c : ascii) :
  is_slug_char c = true -> PyStr.lower_char c = c.
Proof. destruct c as [[] [] [] [] [] [] [] []]; vm_compute; congruence. Qed.

Lemma slug_char_not_space (c : ascii) :
  is_slug_char c = true -> is_space c = false.
Proof. destruct c as [[] [] [] [] [] [] [] []]; vm_compute; congruence. Qed.

Lemma space_not_alnum (c : ascii) :
  is_space c = true -> is_lower_alnum c = false.
Proof. destruct c as [[] [] [] [] [] [] [] []]; vm_compute; congruence. Qed.

Lemma space_lower (c : ascii) :
  is_space c = true -> PyStr.lower_char c = c.
Proof. destruct c as [[] [] [] [] [] [] [] []]; vm_compute; congruence. Qed.

(** A whitespace character is no byte of the two special sequences. *)
Lemma space_plain (c : ascii) :
  is_space c = true ->
  PyStr.is_byte 196 c = false /\ PyStr.is_byte 226 c = false
  /\ PyStr.is_byte 176 c = false /\ PyStr.is_byte 132 c = false
  /\ PyStr.is_byte 170 c = false.
Proof. destruct c as [[] [] [] [] [] [] [] []]; vm_compute; intuition congruence. Qed.

Lemma slug_char_plain (c : ascii) :
  is_slug_char c = true ->
  PyStr.is_byte 196 c = false /\ PyStr.is_byte 226 c = false.
Proof. destruct c as [[] [] [] [] [] [] [] []]; vm_compute; intuition congruence. Qed.

(** *** Lower-casing *)

Lemma lower_chars_cons (c : ascii) (r : list ascii) :
  PyStr.lower_chars (c :: r)
  = match r with
    | c2 :: r2 =>
        if (PyStr.is_byte 196 c && PyStr.is_byte 176 c2)%bool then
          "i"%char :: ascii_of_nat 204 :: ascii_of_nat 135 :: PyStr.lower_chars r2
        else
          match r2 with
          | c3 :: r3 =>
              if (PyStr.is_byte 226 c && PyStr.is_byte 132 c2
                  && PyStr.is_byte 170 c3)%bool
              then "k"%char :: PyStr.lower_chars r3
              else PyStr.lower_char c :: PyStr.lower_chars r
          | [] => PyStr.lower_char c :: PyStr.lower_chars r
          end
    | [] => PyStr.lower_char c :: PyStr.lower_chars r
    end.
Proof. reflexivity. Qed.

(** A byte that starts neither sequence is lower-cased on its own. *)
Lemma lower_chars_plain (c : ascii) (r : list ascii) :
  PyStr.is_byte 196 c = false -> PyStr.is_byte 226 c = false ->
  PyStr.lower_chars (c :: r) = PyStr.lower_char c :: PyStr.lower_chars r.
Proof.
  intros H1 H2. rewrite lower_chars_cons.
  destruct r as [|c2 [|c3 r3]]; rewrite ?H1, ?H2; reflexivity.
Qed.

Lemma lower_chars_spaces (b : list ascii) :
  forallb is_space b = true -> PyStr.lower_chars b = b.
Proof.
  induction b as [|s b IH]; [done|]. cbn [forallb].
  intros [Hs Hb]%andb_prop. destruct (space_plain s Hs) as (H1 & H2 & _).
  by rewrite lower_chars_plain, (space_lower s Hs), IH.
Qed.

Lemma lower_chars_slug (l : list ascii) :
  forallb is_slug_char l = true -> PyStr.lower_chars l = l.
Proof.
  induction l as [|c l IH]; [done|]. cbn [forallb].
  intros [Hc Hl]%andb_prop. destruct (slug_char_plain c Hc) as (H1 & H2).
  by rewrite lower_chars_plain, (slug_char_lower c Hc), IH.
Qed.

(** Whitespace in front is lower-cased on its own ... *)
Lemma lower_chars_after_spaces (pre x : list ascii) :
  forallb is_space pre = true ->
  PyStr.lower_chars (pre ++ x) = pre ++ PyStr.lower_chars x.
Proof.
  induction pre as [|s pre IH]; [done|]. cbn [forallb].
  intros [Hs Hp]%andb_prop. destruct (space_plain s Hs) as (H1 & H2 & _).
  rewrite <- !app_comm_cons.
  by rewrite lower_chars_plain, (space_lower s Hs), IH.
Qed.

(** ... and so is whitespace behind, which completes no sequence. *)
Lemma spaces_first (n : nat) (b : list ascii) :
  n = 176%nat \/ n = 132%nat \/ n = 170%nat ->
  forallb is_space b = true -> first_is (PyStr.is_byte n) b = false.
Proof.
  intros Hn. destruct b as [|s b]; [done|]. cbn [forallb first_is].
  intros [Hs _]%andb_prop. destruct (space_plain s Hs) as (_ & _ & ? & ? & ?).
  by destruct Hn as [-> | [-> | ->]].
Qed.

Lemma lower_chars_step (c : ascii) (b : list ascii) :
  first_is (PyStr.is_byte 176) b = false ->
  first_is (PyStr.is_byte 132) b = false ->
  PyStr.lower_chars (c :: b) = PyStr.lower_char c :: PyStr.lower_chars b.
Proof.
  intros H1 H2. rewrite lower_chars_cons. destruct b as [|s b']; [done|].
  cbn [first_is] in *. rewrite H1, andb_false_r.
  destruct b' as [|s2 b'']; [done|]. by rewrite H2, andb_false_r.
Qed.

Lemma lower_chars_step2 (c c2 : ascii) (b : list ascii) :
  (PyStr.is_byte 196 c && PyStr.is_byte 176 c2)%bool = false ->
  first_is (PyStr.is_byte 170) b = false ->
  PyStr.lower_chars (c :: c2 :: b)
  = PyStr.lower_char c :: PyStr.lower_chars (c2 :: b).
Proof.
  intros H1 H2. rewrite (lower_chars_cons c). rewrite H1.
  destruct b as [|s b']; [done|]. cbn [first_is] in H2.
  by rewrite H2, andb_false_r.
Qed.

Lemma lower_chars_before_spaces (n : nat) : forall a b : list ascii,
  (length a <= n)%nat -> forallb is_space b = true ->
  PyStr.lower_chars (a ++ b) = PyStr.lower_chars a ++ b.
Proof.
  induction n as [|n IH]; intros a b Hlen Hb.
  { destruct a; [|simpl in Hlen; lia]. by apply lower_chars_spaces. }
  pose proof (spaces_first 176 b (or_introl eq_refl) Hb) as H176.
  pose proof (spaces_first 132 b (or_intror (or_introl eq_refl)) Hb) as H132.
  pose proof (spaces_first 170 b (or_intror (or_intror eq_refl)) Hb) as H170.
  destruct a as [|c [|c2 [|c3 r3]]]; cbn [length app] in *.
  - by apply lower_chars_spaces.
  - rewrite lower_chars_step by done.
    by rewrite (lower_chars_spaces b Hb).
  - destruct (PyStr.is_byte 196 c && PyStr.is_byte 176 c2)%bool eqn:Hc.
    + rewrite !(lower_chars_cons c), Hc. cbn [app].
      by rewrite (lower_chars_spaces b Hb).
    + rewrite lower_chars_step2 by done.
      rewrite (lower_chars_step2 c c2 []) by done. cbn [app]. f_equal.
      apply (IH [c2] b); [cbn [length]; lia | done].
  - rewrite !(lower_chars_cons c).
    destruct (PyStr.is_byte 196 c && PyStr.is_byte 176 c2)%bool.
    { cbn [app]. do 3 f_equal. apply (IH (c3 :: r3) b); [cbn [length]; lia | done]. }
    destruct (PyStr.is_byte 226 c && PyStr.is_byte 132 c2
              && PyStr.is_byte 170 c3)%bool.
    + cbn [app]. f_equal. apply (IH r3 b); [lia | done].
    + cbn [app]. f_equal.
      apply (IH (c2 :: c3 :: r3) b); [cbn [length]; lia | done].
Qed.

Lemma is_underscore_eq (c : ascii) : is_underscore c = true -> c = underscore.
Proof. unfold is_underscore. by intros ?%Ascii.eqb_eq. Qed.

Lemma no_double_cons (a : ascii) (r : list ascii) :
  no_double_underscore (a :: r)
  = negb (is_underscore a && first_is is_underscore r) && no_double_underscore r.
Proof. destruct r; simpl; [by rewrite andb_false_r | reflexivity]. Qed.

(** *** [strip] *)

Lemma lstrip_suffix (P : ascii -> bool) (l : list ascii) :
  exists pre, l = pre ++ lstrip P l /\ forallb P pre = true.
Proof.
  induction l as [|c r (pre & Hpre & Hall)]; [by exists []|].
  simpl. destruct (P c) eqn:Hc.
  - exists (c :: pre). simpl. rewrite Hc, Hall. by rewrite <- Hpre.
  - by exists [].
Qed.

Lemma lstrip_first (P : ascii -> bool) (l : list ascii) :
  first_is P (lstrip P l) = false.
Proof.
  induction l as [|c r IH]; [done|]. simpl.
  destruct (P c) eqn:Hc; [done | by simpl].
Qed.

Lemma lstrip_id (P : ascii -> bool) (l : list ascii) :
  first_is P l = false -> lstrip P l = l.
Proof. destruct l as [|c r]; [done|]. simpl. by intros ->. Qed.

(** [strip] cuts a prefix and a suffix whose characters are all of the
    class, and leaves ends that are not. *)
Lemma strip_infix (P : ascii -> bool) (l : list ascii) :
  exists pre suf,
    l = pre ++ strip P l ++ suf
    /\ forallb P pre = true /\ forallb P suf = true.
Proof.
  unfold strip.
  destruct (lstrip_suffix P l) as (pre & Hpre & Hallp).
  destruct (lstrip_suffix P (rev (lstrip P l))) as (suf & Hsuf & Halls).
  exists pre, (rev suf). split; [|split; [done|]].
  - rewrite <- rev_app_distr, <- Hsuf, rev_involutive. exact Hpre.
  - rewrite forallb_forall in *. intros c Hc. apply Halls. by apply in_rev.
Qed.

Lemma strip_last (P : ascii -> bool) (l : list ascii) :
  first_is P (rev (strip P l)) = false.
Proof. unfold strip. rewrite rev_involutive. apply lstrip_first. Qed.

Lemma strip_first (P : ascii -> bool) (l : list ascii) :
  first_is P (strip P l) = false.
Proof.
  unfold strip.
  destruct (lstrip_suffix P (rev (lstrip P l))) as (suf & Hsuf & _).
  pose proof (lstrip_first P l) as Hfirst.
  apply (f_equal (@rev ascii)) in Hsuf.
  rewrite rev_involutive, rev_app_distr in Hsuf.
  destruct (rev (lstrip P (rev (lstrip P l)))) as [|c r]; [done|].
  rewrite Hsuf in Hfirst. exact Hfirst.
Qed.

Lemma strip_id (P : ascii -> bool) (l : list ascii) :
  first_is P l = false -> first_is P (rev l) = false -> strip P l = l.
Proof.
  intros H1 H2. unfold strip.
  by rewrite (lstrip_id P l H1), (lstrip_id P (rev l) H2), rev_involutive.
Qed.

(** *** [re.sub] on runs *)

Section Runs.

Variable P : ascii -> bool.
Hypothesis P_underscore : P underscore = true.

Lemma outside_class_not_underscore (c : ascii) :
  P c = false -> is_underscore c = false.
Proof.
  intros Hc. destruct (is_underscore c) eqn:Hu; [|done].
  apply is_underscore_eq in Hu. congruence.
Qed.

(** The result has no two underscores in a row, and does not start with
    one when the scan is inside a run. *)
Lemma sub_runs_no_double (l : list ascii) : forall b,
  no_double_underscore (sub_runs P b l) = true
  /\ (b = true -> first_is is_underscore (sub_runs P b l) = false).
Proof.
  induction l as [|c r IH]; intros b; [done|].
  cbn [sub_runs]. destruct (P c) eqn:Hc.
  - destruct (IH true) as [Hnd Hfirst]. destruct b; [done|].
    split; [|done]. rewrite no_double_cons, Hnd, Hfirst by done.
    by rewrite andb_false_r.
  - destruct (IH false) as [Hnd _].
    pose proof (outside_class_not_underscore c Hc) as Hu.
    split; [|by simpl]. by rewrite no_double_cons, Hnd, Hu.
Qed.

(** Every character of the result is an underscore or a character of the
    input outside the class. *)
Lemma sub_runs_chars (l : list ascii) : forall b c,
  In c (sub_runs P b l) -> c = underscore \/ (In c l /\ P c = false).
Proof.
  induction l as [|a r IH]; intros b c; [done|].
  cbn [sub_runs]. destruct (P a) eqn:Ha.
  - destruct b; [|intros [<-|Hin]; [by left|]];
      (intros; edestruct IH as [?|[? ?]]; [eassumption | by left | right; split; [by right|done]]).
  - intros [<-|Hin]; [right; split; [by left|done]|].
    destruct (IH _ _ Hin) as [?|[? ?]]; [by left | right; split; [by right|done]].
Qed.

(** The characters outside the class pass through, in order. *)
Lemma sub_runs_filter (Q : ascii -> bool) (l : list ascii) :
  (forall c, Q c = true -> P c = false) ->
  forall b, List.filter Q (sub_runs P b l) = List.filter Q l.
Proof.
  intros HQ. induction l as [|a r IH]; intros b; [done|].
  assert (Qu : Q underscore = false).
  { destruct (Q underscore) eqn:Hq; [|done]. apply HQ in Hq. congruence. }
  cbn [sub_runs List.filter]. destruct (P a) eqn:Ha.
  - assert (Q a = false) as ->.
    { destruct (Q a) eqn:Hq; [|done]. apply HQ in Hq. congruence. }
    destruct b; cbn [List.filter]; rewrite ?Qu; apply IH.
  - cbn [List.filter]. by rewrite IH.
Qed.

(** Where the class holds nothing but single underscores, nothing changes. *)
Lemma sub_runs_id (l : list ascii) :
  (forall c, In c l -> P c = true -> c = underscore) ->
  no_double_underscore l = true ->
  forall b, (b = true -> first_is is_underscore l = false) ->
  sub_runs P b l = l.
Proof.
  induction l as [|a r IH]; intros Hcls Hnd b Hb; [done|].
  rewrite no_double_cons in Hnd. apply andb_prop in Hnd as [Hhead Hnd].
  assert (Hr : forall c, In c r -> P c = true -> c = underscore)
    by (intros c Hc; apply Hcls; by right).
  cbn [sub_runs]. destruct (P a) eqn:Ha.
  - assert (a = underscore) as -> by (apply Hcls; [by left | done]).
    destruct b; [by specialize (Hb eq_refl)|].
    f_equal. apply IH; [done | done |]. intros _.
    change (is_underscore underscore) with true in Hhead.
    by destruct (first_is is_underscore r).
  - f_equal. apply IH; [done | done | done].
Qed.

End Runs.

Lemma not_alnum_underscore : not_alnum underscore = true.
Proof. reflexivity. Qed.

(** The second substitution of [slugify] finds nothing to do. *)
Lemma second_sub_is_identity (l : list ascii) :
  sub_runs is_underscore false (sub_runs not_alnum false l)
  = sub_runs not_alnum false l.
Proof.
  apply sub_runs_id; [ | | done].
  - intros c _ Hc. by apply is_underscore_eq.
  - apply (sub_runs_no_double not_alnum not_alnum_underscore).
Qed.

Lemma slugify_chars_eq (name : list ascii) :
  slugify_chars name
  = strip is_underscore
      (sub_runs not_alnum false (PyStr.lower_chars (strip is_space name))).
Proof.
  unfold slugify_chars. cbv zeta.
  change (fun c => negb (is_lower_alnum c)) with not_alnum.
  by rewrite second_sub_is_identity.
Qed.

Lemma no_double_app (a b : list ascii) :
  no_double_underscore (a ++ b) = true ->
  no_double_underscore a = true /\ no_double_underscore b = true.
Proof.
  induction a as [|x a IH]; [done|].
  rewrite <- app_comm_cons, !no_double_cons.
  intros [Hh Hnd]%andb_prop. destruct (IH Hnd) as [Ha Hb].
  split; [|done]. rewrite Ha, andb_true_r.
  destruct a; [by rewrite andb_false_r | exact Hh].
Qed.

Lemma slugify_chars_is_slug (name : list ascii) :
  is_slug (slugify_chars name) = true.
Proof.
  rewrite slugify_chars_eq.
  set (s := sub_runs not_alnum false (PyStr.lower_chars (strip is_space name))).
  destruct (strip_infix is_underscore s) as (pre & suf & Hs & _ & _).
  unfold is_slug. rewrite strip_first, strip_last. cbn [negb]. rewrite !andb_true_r.
  apply andb_true_intro. split.
  - apply forallb_forall. intros c Hc.
    assert (Hin : In c s) by (rewrite Hs, !in_app_iff; auto).
    destruct (sub_runs_chars not_alnum _ _ _ Hin) as [->|[_ Hna]]; [done|].
    unfold is_slug_char, not_alnum in *. by destruct (is_lower_alnum c).
  - pose proof (sub_runs_no_double not_alnum not_alnum_underscore
                  (PyStr.lower_chars (strip is_space name)) false) as [Hnd _].
    fold s in Hnd. rewrite Hs in Hnd.
    apply no_double_app in Hnd as [_ Hnd]. by apply no_double_app in Hnd as [Hnd _].
Qed.

Lemma slug_is_fixed (l : list ascii) :
  is_slug l = true -> slugify_chars l = l.
Proof.
  unfold is_slug. intros Hs.
  apply andb_prop in Hs as [Hs Hlast]. apply andb_prop in Hs as [Hs Hfirst].
  apply andb_prop in Hs as [Hall Hnd].
  apply negb_true_iff in Hlast, Hfirst. rewrite forallb_forall in Hall.
  rewrite slugify_chars_eq.
  assert (Hsp : forall P : ascii -> bool, (forall c, In c l -> P c = false) ->
            forall m, (forall c, In c m -> In c l) -> first_is P m = false).
  { intros P HP [|c r] Hm; [done|]. simpl. apply HP, Hm. by left. }
  rewrite (strip_id is_space l).
  - assert (PyStr.lower_chars l = l) as ->.
    { apply lower_chars_slug, forallb_forall, Hall. }
    rewrite (sub_runs_id not_alnum l); [by apply strip_id | | done | done].
    intros c Hc Hna. specialize (Hall c Hc).
    unfold is_slug_char, not_alnum in *.
    destruct (is_lower_alnum c); [done|]. by apply is_underscore_eq.
  - apply Hsp; [|done]. intros c Hc. by apply slug_char_not_space, Hall.
  - apply Hsp; [|intros c Hc; by apply in_rev].
    intros c Hc. by apply slug_char_not_space, Hall.
Qed.

Lemma filter_none (P Q : ascii -> bool) (l : list ascii) :
  forallb P l = true -> (forall c, P c = true -> Q c = false) ->
  List.filter Q l = [].
Proof.
  intros Hall HPQ. induction l as [|c r IH]; [done|].
  simpl in Hall. apply andb_prop in Hall as [Hc Hr].
  simpl. by rewrite (HPQ c Hc), IH.
Qed.

Lemma strip_filter (P Q : ascii -> bool) (l : list ascii) :
  (forall c, P c = true -> Q c = false) ->
  List.filter Q (strip P l) = List.filter Q l.
Proof.
  intros HPQ. destruct (strip_infix P l) as (pre & suf & Hl & Hpre & Hsuf).
  rewrite Hl at 2. rewrite !List.filter_app.
  by rewrite (filter_none P Q pre), (filter_none P Q suf), app_nil_r.
Qed.

(** Stripping whitespace first does not change which letters and digits
    the lower-cased name has. *)
Lemma lower_strip_alnum (name : list ascii) :
  List.filter is_lower_alnum (PyStr.lower_chars (strip is_space name))
  = List.filter is_lower_alnum (PyStr.lower_chars name).
Proof.
  destruct (strip_infix is_space name) as (pre & suf & Hname & Hpre & Hsuf).
  rewrite Hname at 2.
  rewrite (lower_chars_after_spaces pre _ Hpre).
  rewrite (lower_chars_before_spaces (length (strip is_space name)) _ suf)
    by done.
  rewrite !List.filter_app.
  rewrite (filter_none is_space is_lower_alnum pre Hpre space_not_alnum).
  rewrite (filter_none is_space is_lower_alnum suf Hsuf space_not_alnum).
  by rewrite app_nil_r.
Qed.

(** The letters and digits of the slug are those of the lower-cased name. *)
Lemma slugify_chars_alnum (name : list ascii) :
  List.filter is_lower_alnum (slugify_chars name)
  = List.filter is_lower_alnum (PyStr.lower_chars name).
Proof.
  rewrite slugify_chars_eq.
  rewrite strip_filter by (intros c Hc; apply is_underscore_eq in Hc; by subst).
  rewrite (sub_runs_filter not_alnum not_alnum_underscore is_lower_alnum)
    by (intros c Hc; unfold not_alnum; by rewrite Hc).
  apply lower_strip_alnum.
Qed.

Lemma slug_empty_or_alnum (l : list ascii) :
  is_slug l = true -> l = [] \/ List.filter is_lower_alnum l <> [].
Proof.
  destruct l as [|c r]; [by left|]. intros Hs. right.
  unfold is_slug in Hs.
  apply andb_prop in Hs as [Hs _]. apply andb_prop in Hs as [Hs Hfirst].
  apply andb_prop in Hs as [Hall _]. simpl in Hall, Hfirst.
  apply andb_prop in Hall as [Hc _]. apply negb_true_iff in Hfirst.
  unfold is_slug_char in Hc. rewrite Hfirst, orb_false_r in Hc.
  simpl. by rewrite Hc.
Qed.

Lemma filter_nil_existsb {A : Type} (Q : A -> bool) (l : list A) :
  List.filter Q l = [] <-> existsb Q l = false.
Proof.
  induction l as [|c r IH]; [done|]. simpl.
  destruct (Q c); [by split | exact IH].
Qed.

End SlugFacts.

(** X5: a slug is made of lower-case letters, digits and underscores,
    with no two underscores in a row and none at either end, whatever the
    name it is made from. *)
Theorem slugify_is_slug (name : string) :
  Slug.is_slug (PyStr.chars (Slug.slugify name)) = true.
Proof.
  unfold Slug.slugify, PyStr.chars, PyStr.of_chars.
  rewrite list_ascii_of_string_of_list_ascii.
  apply SlugFacts.slugify_chars_is_slug.
Qed.

(** X6: [slugify] leaves a slug as it is, so applying it twice is the
    same as applying it once: the folder of a breed is the folder of its
    own slug. *)
Theorem slugify_idempotent (name : string) :
  Slug.slugify (Slug.slugify name) = Slug.slugify name.
Proof.
  unfold Slug.slugify, PyStr.chars, PyStr.of_chars.
  rewrite list_ascii_of_string_of_list_ascii.
  f_equal. apply SlugFacts.slug_is_fixed, SlugFacts.slugify_chars_is_slug.
Qed.

(** X7: the letters and digits of a slug are exactly those of the
    lower-cased name, in the same order: everything else only decides
    where the underscores go. *)
Theorem slugify_keeps_letters_and_digits (name : string) :
  List.filter Slug.is_lower_alnum (PyStr.chars (Slug.slugify name))
  = List.filter Slug.is_lower_alnum (PyStr.chars (PyStr.lower name)).
Proof.
  unfold Slug.slugify, PyStr.lower, PyStr.chars, PyStr.of_chars.
  rewrite !list_ascii_of_string_of_list_ascii.
  apply SlugFacts.slugify_chars_alnum.
Qed.

(** X8: the slug is empty exactly when the lower-cased name has none of
    the characters [a-z0-9]; [os.path.join(out, "")] is then the dataset
    folder itself. *)
Theorem slugify_empty_iff (name : string) :
  Slug.slugify name = EmptyString
  <-> existsb Slug.is_lower_alnum (PyStr.chars (PyStr.lower name)) = false.
Proof.
  unfold Slug.slugify, PyStr.lower, PyStr.chars, PyStr.of_chars.
  rewrite list_ascii_of_string_of_list_ascii.
  pose proof (SlugFacts.slugify_chars_alnum (list_ascii_of_string name)) as Hal.
  pose proof (SlugFacts.slugify_chars_is_slug (list_ascii_of_string name)) as Hs.
  rewrite <- SlugFacts.filter_nil_existsb.
  split.
  - intros He.
    assert (Hnil : Slug.slugify_chars (list_ascii_of_string name) = []).
    { destruct (Slug.slugify_chars (list_ascii_of_string name)); [done | discriminate]. }
    rewrite Hnil in Hal. by rewrite <- Hal.
  - intros Hnone. rewrite Hnone in Hal.
    destruct (SlugFacts.slug_empty_or_alnum _ Hs) as [->|Hne]; [done | done].
Qed.

(** ** Listed names and their extensions *)

Lemma rfind_dot_before_ext (e pre : list ascii) :
  PyStr.rfind_dot e = Some O ->
  PyStr.rfind_dot (pre ++ e) = Some (length pre).
Proof.
  intros He. induction pre as [|c pre IH]; [exact He|].
  cbn [app PyStr.rfind_dot length]. by rewrite IH.
Qed.

Lemma image_ext_shape (e : string) :
  In e IMAGE_EXTS ->
  PyStr.rfind_dot (PyStr.chars e) = Some O
  /\ PyStr.starts_with ["."%char] (PyStr.chars e) = true
  /\ PyStr.lower e = e.
Proof.
  unfold IMAGE_EXTS. simpl.
  intros H; repeat (destruct H as [<- | H]; [by vm_compute|]); destruct H.
Qed.

Lemma is_image_name_ext (p : string) :
  is_image_name p = true <-> exists e, In e IMAGE_EXTS /\ PyStr.glob_star e p = true.
Proof.
  unfold is_image_name. rewrite existsb_exists. reflexivity.
Qed.

(** A name matching [*e] is a base that does not start with a dot,
    followed by [e], and [os.path.splitext] cuts it there. *)
Lemma listed_splitext (e p : string) :
  In e IMAGE_EXTS -> PyStr.glob_star e p = true ->
  exists (c : ascii) (pre : list ascii),
    PyStr.is_dot c = false
    /\ PyStr.chars p = (c :: pre) ++ PyStr.chars e
    /\ PyStr.splitext p = (PyStr.of_chars (c :: pre), e).
Proof.
  intros He H. destruct (image_ext_shape e He) as (Hdot & Hstart & _).
  unfold PyStr.glob_star in H. apply andb_true_iff in H as [Hend Hhid].
  apply endswith_split in Hend as [pre Hpre].
  rewrite Hpre in Hhid. destruct pre as [|c pre].
  { cbn [app] in Hhid. rewrite Hstart in Hhid. discriminate. }
  cbn [app PyStr.starts_with] in Hhid. rewrite andb_true_r in Hhid.
  apply negb_true_iff in Hhid.
  assert (Hc : PyStr.is_dot c = false).
  { unfold PyStr.is_dot. by rewrite Ascii.eqb_sym. }
  exists c, pre. split; [done|]. split; [done|].
  unfold PyStr.splitext. rewrite Hpre, (rfind_dot_before_ext _ _ Hdot).
  rewrite take_app_length, drop_app_length.
  cbn [existsb]. rewrite Hc. cbn [negb orb].
  f_equal. apply string_of_list_ascii_of_string.
Qed.

Lemma chars_append (a b : string) :
  PyStr.chars (String.append a b) = PyStr.chars a ++ PyStr.chars b.
Proof.
  induction a as [|c a IH]; [reflexivity|].
  change (String.append (String c a) b) with (String c (String.append a b)).
  unfold PyStr.chars in *. simpl. by rewrite IH.
Qed.

Lemma starts_with_prefix (a r : list ascii) : PyStr.starts_with a (a ++ r) = true.
Proof. induction a as [|c a IH]; [done|]. simpl. by rewrite Ascii.eqb_refl. Qed.

(** The [.jpg] written for a listed name is a name [list_images] lists. *)
Lemma jpg_sibling_is_image_name (p : string) :
  is_image_name p = true ->
  is_image_name (String.append (PyStr.splitext p).1 ".jpg") = true.
Proof.
  intros (e & He & Hg)%is_image_name_ext.
  destruct (listed_splitext e p He Hg) as (c & pre & Hc & _ & ->). cbn [fst].
  apply is_image_name_ext. exists ".jpg". split; [by left|].
  unfold PyStr.glob_star, PyStr.endswith.
  rewrite chars_append. unfold PyStr.of_chars, PyStr.chars at 2 4.
  rewrite list_ascii_of_string_of_list_ascii.
  rewrite rev_app_distr, starts_with_prefix. cbn [andb app PyStr.starts_with].
  rewrite andb_true_r. unfold PyStr.is_dot in Hc.
  by rewrite Ascii.eqb_sym, Hc.
Qed.

(** X9: the six globs of [list_images], laid end to end, name every file
    of the folder whose name ends in one of the six lower-case extensions
    and does not start with a dot, each exactly once; [os.path.splitext]
    cuts a listed name in front of that extension. *)
Theorem list_images_exact (E : Extern) (w : World) :
  listing_sound E ->
  NoDup (list_images E w)
  /\ (forall p : path,
        p ∈ list_images E w
        <-> is_Some (w_fs w !! p)
            /\ exists e, In e IMAGE_EXTS /\ PyStr.glob_star e p = true)
  /\ (forall p : path, p ∈ list_images E w ->
        exists base e,
          In e IMAGE_EXTS /\ PyStr.splitext p = (base, e)
          /\ p = String.append base e /\ base <> EmptyString).
Proof.
  intros Hlist. split; [by apply list_images_NoDup|]. split.
  - intros p. rewrite (elem_of_list_images E Hlist), is_image_name_ext. reflexivity.
  - intros p Hp. apply (elem_of_list_images E Hlist) in Hp as [_ Hn].
    apply is_image_name_ext in Hn as (e & He & Hg).
    destruct (listed_splitext e p He Hg) as (c & pre & _ & _ & Hs).
    exists (PyStr.of_chars (c :: pre)), e.
    split; [done|]. split; [done|]. split; [|done].
    symmetry. by apply splitext_append.
Qed.

Lemma list_images_exact_witness :
  NoDup (list_images Toy.libs Reruns.jpg_and_jpeg)
  /\ ("a.jpeg" : path) ∈ list_images Toy.libs Reruns.jpg_and_jpeg.
Proof.
  destruct (list_images_exact Toy.libs Reruns.jpg_and_jpeg toy_listing_sound)
    as (Hnd & Hmem & _).
  split; [exact Hnd|]. apply Hmem. split.
  - apply (bool_decide_unpack _). vm_compute. exact Logic.I.
  - exists ".jpeg". split; [simpl; auto | reflexivity].
Defined.

(** X10: whether stage 1 converts a listed file that is there depends on
    its extension alone, but for [.jpeg]: a [.jpg] is never converted, a
    [.jpeg] only while no [.jpg] of the same base exists, and a [.png],
    [.bmp], [.webp] or [.gif] always, also when its [.jpg] is already
    there. *)
Theorem needs_convert_by_extension (w : World) (p e : string) :
  In e IMAGE_EXTS -> PyStr.glob_star e p = true ->
  os_path_exists w p = true ->
  needs_convert w p
  = if String.eqb e ".jpg" then false
    else if String.eqb e ".jpeg"
         then negb (os_path_exists w (String.append (PyStr.splitext p).1 ".jpg"))
         else true.
Proof.
  intros He Hg Hex.
  destruct (listed_splitext e p He Hg) as (c & pre & _ & _ & Hs).
  pose proof (splitext_append _ _ _ Hs) as Hp.
  unfold needs_convert. rewrite Hs. cbn [fst].
  destruct (image_ext_shape e He) as (_ & _ & ->).
  unfold IMAGE_EXTS in He. simpl in He.
  destruct He as [<-|[<-|[<-|[<-|[<-|[<-|[]]]]]]]; try reflexivity.
  rewrite Hp, Hex. reflexivity.
Qed.

Lemma needs_convert_by_extension_witness :
  needs_convert Reruns.jpg_and_jpeg "a.jpeg" = false
  /\ needs_convert Reruns.one_png "a.png" = true.
Proof.
  split.
  - rewrite (needs_convert_by_extension Reruns.jpg_and_jpeg "a.jpeg" ".jpeg");
      [by vm_compute | simpl; auto | reflexivity | by vm_compute].
  - rewrite (needs_convert_by_extension Reruns.one_png "a.png" ".png");
      [reflexivity | simpl; auto | reflexivity | by vm_compute].
Defined.

(** ** What the cleaner leaves alone *)

Section TouchesOnly.

Context {S : Type} (world : S -> World) (out : S -> list path)
        (step : S -> path -> S) (T : path -> Prop).

(** Each iteration on a name of [T] changes names of [T] only and hands
    on names of [T] only. *)
Hypothesis step_touches : forall s p,
  T p -> (forall q, q ∈ out s -> T q) ->
  (forall q, ~ T q -> w_fs (world (step s p)) !! q = w_fs (world s) !! q)
  /\ (forall q, q ∈ out (step s p) -> T q).

Lemma fold_touches_only (paths : list path) : forall s0,
  (forall p, p ∈ paths -> T p) -> (forall q, q ∈ out s0 -> T q) ->
  (forall q, ~ T q ->
     w_fs (world (fold_left step paths s0)) !! q = w_fs (world s0) !! q)
  /\ (forall q, q ∈ out (fold_left step paths s0) -> T q).
Proof.
  induction paths as [|p r IH]; intros s0 Hpaths Hout; [done|].
  cbn [fold_left].
  destruct (step_touches s0 p) as [Hfs Hout']; [apply Hpaths; by left | done |].
  destruct (IH (step s0 p)) as [Hfs2 Hout2];
    [intros q Hq; apply Hpaths; by right | done |].
  split; [|done]. intros q Hq. rewrite Hfs2 by done. by apply Hfs.
Qed.

End TouchesOnly.

Section Untouched.

Context (E : Extern) (I : Imports).

Lemma try_remove_outside (w : World) (p q : path) :
  listable p -> ~ listable q -> w_fs (try_remove w p) !! q = w_fs w !! q.
Proof. intros Hp Hq. apply try_remove_lookup_other. intros ->. done. Qed.

Lemma convert_outside (w w1 : World) (p out q : path) (ok : bool) :
  exif_normalize_and_convert_jpg E I w p out = (w1, ok) ->
  listable out -> ~ listable q -> w_fs w1 !! q = w_fs w !! q.
Proof.
  unfold exif_normalize_and_convert_jpg. intros H Hout Hq.
  destruct (negb (PIL_OK I)); [by injection H as <- <-|].
  destruct (read_file _ p) as [d|]; [|by injection H as <- <-].
  destruct (jpeg_encode E d) as [j|]; [|by injection H as <- <-].
  injection H as <- <-. unfold write_file. cbn [w_fs log_event].
  apply lookup_insert_ne. intros ->. done.
Qed.

Lemma snoc_listable (l : list path) (p q : path) :
  (forall x, x ∈ l -> listable x) -> listable p -> q ∈ l ++ [p] -> listable q.
Proof.
  intros Hl Hp [Hq | Hq%list_elem_of_singleton]%elem_of_app; [by apply Hl | by subst].
Qed.

Lemma stage1_outside cfg w stats paths :
  (forall p, p ∈ paths -> listable p) ->
  (forall q, ~ listable q ->
     w_fs (stage1 E I cfg w stats paths).1.1 !! q = w_fs w !! q)
  /\ (forall q, q ∈ (stage1 E I cfg w stats paths).2 -> listable q).
Proof.
  intros Hpaths. unfold stage1.
  apply (fold_touches_only (fun s : World * CleanStats * list path => s.1.1) snd
           (stage1_step E I cfg) listable); [|done|].
  - clear. intros [[w st] kept] p Hp Hkept. cbn [fst snd] in *.
    pose proof (jpg_sibling_is_image_name p Hp) as Hjpg.
    unfold stage1_step.
    destruct (negb _ && PIL_OK I).
    { destruct (os_remove w p) as [w1 d] eqn:Hr. apply os_remove_try in Hr as ->.
      cbn [fst snd]. split; [intros q Hq; by apply try_remove_outside | done]. }
    destruct (cv2_read_size E w p) as [wd ht].
    destruct ((wd =? 0) || (ht =? 0) || (Z.min wd ht <? min_side cfg)).
    { destruct (os_remove w p) as [w1 d] eqn:Hr. apply os_remove_try in Hr as ->.
      cbn [fst snd]. split; [intros q Hq; by apply try_remove_outside | done]. }
    destruct (jpg_only cfg && PIL_OK I);
      [|cbn [fst snd]; split; [done | intros q; by apply snoc_listable]].
    destruct (needs_convert w p);
      [|cbn [fst snd]; split; [done | intros q; by apply snoc_listable]].
    destruct (exif_normalize_and_convert_jpg E I w p _) as [w1 ok] eqn:Hcv.
    pose proof (fun q => convert_outside _ _ _ _ q _ Hcv Hjpg) as Hw1.
    destruct ok; cbn [fst snd].
    + split; [|intros q; by apply snoc_listable].
      intros q Hq. destruct (keep_intermediate cfg); [by apply Hw1|].
      rewrite try_remove_outside by done. by apply Hw1.
    + split; [|done]. intros q Hq.
      rewrite try_remove_outside by done. by apply Hw1.
  - intros q Hq. by apply elem_of_nil in Hq.
Qed.

Lemma stage2_outside cf w stats paths :
  (forall p, p ∈ paths -> listable p) ->
  (forall q, ~ listable q ->
     w_fs (stage2 I cf w stats paths).1.1 !! q = w_fs w !! q)
  /\ (forall q, q ∈ (stage2 I cf w stats paths).2 -> listable q).
Proof.
  intros Hpaths. unfold stage2.
  apply (fold_touches_only (fun s : World * CleanStats * list path => s.1.1) snd
           (stage2_step I cf) listable); [|done|].
  - clear. intros [[w st] fl] p Hp Hfl. cbn [fst snd] in *.
    unfold stage2_step. destruct (is_cat I cf w p); cbn [fst snd].
    + split; [done | intros q; by apply snoc_listable].
    + split; [intros q Hq; by apply try_remove_outside | done].
  - intros q Hq. by apply elem_of_nil in Hq.
Qed.

Lemma stage3_outside w stats paths :
  (forall p, p ∈ paths -> listable p) ->
  (forall q, ~ listable q ->
     w_fs (stage3 E w stats paths).1.1.1 !! q = w_fs w !! q)
  /\ (forall q, q ∈ (stage3 E w stats paths).2 -> listable q).
Proof.
  intros Hpaths. unfold stage3.
  apply (fold_touches_only
           (fun s : World * CleanStats * gmap string path * list path => s.1.1.1)
           snd (stage3_step E) listable); [|done|].
  - clear. intros [[[w st] seen] out] p Hp Hout. cbn [fst snd] in *.
    unfold stage3_step. destruct (file_md5 E w p) as [h|]; cbn [fst snd].
    + destruct (bool_decide _); cbn [fst snd].
      * split; [intros q Hq; by apply try_remove_outside | done].
      * split; [done | intros q; by apply snoc_listable].
    + split; [intros q Hq; by apply try_remove_outside | done].
  - intros q Hq. by apply elem_of_nil in Hq.
Qed.

Lemma stage4_outside thr cfg w stats paths :
  (forall p, p ∈ paths -> listable p) ->
  (forall q, ~ listable q ->
     w_fs (stage4 E I thr cfg w stats paths).1.1 !! q = w_fs w !! q)
  /\ (forall q, q ∈ (stage4 E I thr cfg w stats paths).2 -> listable q).
Proof.
  intros Hpaths. unfold stage4.
  destruct (near_dup_enabled I cfg); [|done].
  destruct (stage4_loop E I thr w stats paths) as [[[w1 st1] seen] final] eqn:Hloop.
  cbn [fst snd].
  pose proof (fold_touches_only
           (fun s : World * CleanStats * list (path * Z) * list path => s.1.1.1)
           snd (stage4_step E I thr) listable) as Hfold.
  unfold stage4_loop in Hloop.
  specialize (Hfold) with (paths := paths) (s0 := (w, stats, [], [])).
  rewrite Hloop in Hfold. cbn [fst snd] in Hfold. apply Hfold; [|done|].
  - clear. intros [[[w st] seen] final] p Hp Hfinal. cbn [fst snd] in *.
    unfold stage4_step.
    destruct (perceptual_hash E I w p) as [w1 oph] eqn:Hcall.
    pose proof (perceptual_hash_counts E I _ _ _ _ Hcall) as (_ & _ & _ & Hfs).
    destruct oph as [ph|]; cbn [fst snd].
    + destruct (is_dup thr seen ph); cbn [fst snd].
      * split; [|done]. intros q Hq. rewrite try_remove_outside by done.
        by rewrite Hfs.
      * split; [by rewrite Hfs | intros q; by apply snoc_listable].
    + split; [|done]. intros q Hq. rewrite try_remove_outside by done.
      by rewrite Hfs.
  - intros q Hq. by apply elem_of_nil in Hq.
Qed.

Lemma list_images_listable (w : World) (p : path) :
  p ∈ list_images E w -> listable p.
Proof.
  unfold list_images, listable, is_image_name.
  rewrite list_elem_of_In, in_flat_map, existsb_exists.
  intros (e & He & Hp). apply filter_In in Hp as [_ Hg]. by exists e.
Qed.

(** X11: in every configuration the cleaner creates, overwrites and
    deletes only files that [list_images] would list: a file whose name
    matches none of the six patterns (a text file, a hidden file, an
    upper-case [.JPG]) is after the run what it was before, whatever the
    libraries do. *)
Theorem cleaner_leaves_other_files_alone (cfg : Config) (cf : CatFilter)
    (w : World) (q : path) :
  is_image_name q = false ->
  w_fs (clean_breed_folder E I cfg cf w).1 !! q = w_fs w !! q.
Proof.
  intros Hq. assert (Hnot : ~ listable q) by (unfold listable; congruence).
  unfold clean_breed_folder, clean_with.
  set (stats := set_before stats0 _).
  pose proof (stage1_outside cfg w stats (list_images E w)
                (list_images_listable w)) as [H1 K1].
  destruct (stage1 E I cfg w stats (list_images E w)) as [[w1 st1] kept].
  cbn [fst snd] in *.
  pose proof (stage2_outside cf w1 st1 kept K1) as [H2 K2].
  destruct (stage2 I cf w1 st1 kept) as [[w2 st2] fl]. cbn [fst snd] in *.
  pose proof (stage3_outside w2 st2 fl K2) as [H3 K3].
  destruct (stage3 E w2 st2 fl) as [[[w3 st3] seen] out]. cbn [fst snd] in *.
  pose proof (stage4_outside NEAR_DUP_THRESHOLD cfg w3 st3 out K3) as [H4 _].
  destruct (stage4 E I NEAR_DUP_THRESHOLD cfg w3 st3 out) as [[w4 st4] final].
  cbn [fst snd] in *.
  by rewrite H4, H3, H2, H1.
Qed.

End Untouched.

Lemma cleaner_leaves_other_files_alone_witness :
  let w := Toy.folder [("a.png", Toy.file [2; 200; 200; 281; 90; 3; 0]);
                       ("notes.txt", Toy.file Toy.garbage);
                       ("B.JPG", Toy.file Toy.garbage)] in
  w_fs (clean_breed_folder Toy.libs Toy.all_ok Toy.cfg_jpg Toy.cat_filter w).1
    !! "B.JPG" = Some (Toy.file Toy.garbage).
Proof.
  intros w.
  etrans;
    [exact (cleaner_leaves_other_files_alone Toy.libs Toy.all_ok Toy.cfg_jpg
              Toy.cat_filter w "B.JPG" eq_refl)
    | by vm_compute].
Defined.

(** ** Stage 2 as a filter *)

Section CatStage.

Context (I : Imports).

(** Removing a rejected file changes no verdict, its own included. *)
Lemma is_cat_after_reject (cf : CatFilter) (w : World) (p q : path) :
  is_cat I cf w p = false ->
  is_cat I cf (try_remove w p) q = is_cat I cf w q.
Proof.
  intros Hrej. destruct (decide (p = q)) as [<-|Hne].
  - destruct (os_remove_fs w p) as [Hfs | Hfs].
    + apply is_cat_local. by rewrite Hfs.
    + rewrite Hrej. unfold is_cat in *.
      destruct (disabled cf); [discriminate|].
      destruct (model cf) as [m|]; [|discriminate].
      unfold predict_top, read_file. rewrite Hfs, lookup_delete_eq.
      by destruct (negb (PIL_OK I)).
  - apply is_cat_local. by apply try_remove_lookup_other.
Qed.

Lemma stage2_snoc (cf : CatFilter) (w : World) (stats : CleanStats)
    (pre : list path) (p : path) :
  stage2 I cf w stats (pre ++ [p])
  = stage2_step I cf (stage2 I cf w stats pre) p.
Proof. unfold stage2. by rewrite fold_left_app. Qed.

Lemma stage2_filter_eq (cf : CatFilter) (w : World) (stats : CleanStats)
    (paths : list path) :
  (stage2 I cf w stats paths).2 = List.filter (is_cat I cf w) paths
  /\ removed_notcat (stage2 I cf w stats paths).1.2
     = (removed_notcat stats
        + length (List.filter (fun p => negb (is_cat I cf w p)) paths))%nat
  /\ (forall q, is_cat I cf (stage2 I cf w stats paths).1.1 q = is_cat I cf w q)
  /\ (forall q, is_cat I cf w q = true ->
        w_fs (stage2 I cf w stats paths).1.1 !! q = w_fs w !! q).
Proof.
  induction paths as [|p pre IH] using rev_ind.
  - cbn. repeat split; lia.
  - rewrite stage2_snoc, !List.filter_app, length_app.
    destruct (stage2 I cf w stats pre) as [[w' st'] fl].
    cbn [fst snd] in IH. destruct IH as (Hfl & Hn & Hsame & Hfs).
    unfold stage2_step. rewrite Hsame. cbn [List.filter].
    destruct (is_cat I cf w p) eqn:Hc; cbn [fst snd negb length].
    + rewrite Hfl. repeat split; try done. lia.
    + rewrite Hfl, app_nil_r. assert (Hrej : is_cat I cf w' p = false) by by rewrite Hsame.
      repeat split.
      * unfold inc_notcat. cbn [removed_notcat]. lia.
      * intros q. by rewrite is_cat_after_reject.
      * intros q Hq. rewrite try_remove_lookup_other; [by apply Hfs|].
        intros ->. congruence.
Qed.

(** X12: stage 2 is a plain filter: the files it hands on are those of
    its input that [is_cat] accepts in the folder as stage 1 left it, in
    the same order; deleting a rejected file changes no later verdict,
    every rejected entry is counted in [removed_notcat] whether or not its
    removal succeeded, and no accepted file is touched. *)
Theorem stage2_is_filter (cf : CatFilter) (w : World) (stats : CleanStats)
    (paths : list path) :
  let '(w2, st2, filtered) := stage2 I cf w stats paths in
  filtered = List.filter (is_cat I cf w) paths
  /\ removed_notcat st2
     = (removed_notcat stats + (length paths - length filtered))%nat
  /\ (forall q, q ∈ filtered -> w_fs w2 !! q = w_fs w !! q).
Proof.
  pose proof (stage2_filter_eq cf w stats paths) as (Hfl & Hn & _ & Hfs).
  destruct (stage2 I cf w stats paths) as [[w2 st2] filtered].
  cbn [fst snd] in *. split; [done|]. split.
  - rewrite Hn, Hfl. f_equal.
    pose proof (List.filter_length (is_cat I cf w) paths). lia.
  - intros q Hq. apply Hfs. rewrite Hfl in Hq.
    by apply list_elem_of_In, filter_In in Hq as [_ Hq].
Qed.

Lemma is_cat_threshold_monotone (cf1 cf2 : CatFilter) (w : World) (p : path) :
  disabled cf1 = disabled cf2 -> model cf1 = model cf2 ->
  (threshold cf1 <= threshold cf2)%Q ->
  is_cat I cf2 w p = true -> is_cat I cf1 w p = true.
Proof.
  intros Hd Hm Ht. unfold is_cat. rewrite Hd, Hm.
  destruct (disabled cf2); [done|]. destruct (model cf2) as [m|]; [|done].
  destruct (predict_top I m w p) as [[top prob]|]; [|done].
  intros [Hr Hq]%andb_true_iff. rewrite Hr. cbn [andb].
  apply Qle_bool_iff. apply Qle_bool_iff in Hq. by eapply Qle_trans.
Qed.

(** X13: raising [--cat-threshold] never lets more files through stage
    2: with the same model, whatever passes at the higher threshold
    passes at the lower one, and at least as many files are counted as
    not cats. *)
Theorem cat_threshold_monotone (cf1 cf2 : CatFilter) (w : World)
    (stats : CleanStats) (paths : list path) :
  disabled cf1 = disabled cf2 -> model cf1 = model cf2 ->
  (threshold cf1 <= threshold cf2)%Q ->
  (forall p, p ∈ (stage2 I cf2 w stats paths).2 ->
             p ∈ (stage2 I cf1 w stats paths).2)
  /\ (removed_notcat (stage2 I cf1 w stats paths).1.2
      <= removed_notcat (stage2 I cf2 w stats paths).1.2)%nat.
Proof.
  intros Hd Hm Ht.
  pose proof (stage2_filter_eq cf1 w stats paths) as (Hfl1 & Hn1 & _).
  pose proof (stage2_filter_eq cf2 w stats paths) as (Hfl2 & Hn2 & _).
  rewrite Hfl1, Hfl2, Hn1, Hn2. split.
  - intros p. rewrite !list_elem_of_In, !filter_In. intros [Hin Hc].
    split; [done|]. by apply (is_cat_threshold_monotone cf1 cf2).
  - apply Nat.add_le_mono_l. clear Hfl1 Hfl2 Hn1 Hn2.
    induction paths as [|p r IH]; [done|]. cbn [List.filter].
    destruct (is_cat I cf2 w p) eqn:H2.
    + rewrite (is_cat_threshold_monotone cf1 cf2 w p Hd Hm Ht H2). exact IH.
    + destruct (is_cat I cf1 w p); cbn [negb length]; lia.
Qed.

End CatStage.

Lemma cat_threshold_monotone_witness :
  ("a.jpg" : path)
    ∈ (stage2 Toy.all_ok Toy.cat_filter Reruns.two_jpgs stats0 ["a.jpg"; "b.jpg"]).2.
Proof.
  apply (cat_threshold_monotone Toy.all_ok Toy.cat_filter
           (mkCatFilter (85 # 100) false (Some Toy.net))
           Reruns.two_jpgs stats0 ["a.jpg"; "b.jpg"] eq_refl eq_refl).
  - by vm_compute.
  - apply (bool_decide_unpack _). vm_compute. exact Logic.I.
Defined.

(** ** Without conversion the cleaner only deletes *)

Lemma only_removed_refl (w : World) : only_removed w w.
Proof. by intros q f. Qed.

Lemma only_removed_trans (a b c : World) :
  only_removed a b -> only_removed b c -> only_removed a c.
Proof. intros Hab Hbc q f Hq. by apply Hab, Hbc. Qed.

Lemma try_remove_only_removed (w : World) (p : path) :
  only_removed w (try_remove w p).
Proof.
  intros q f. destruct (os_remove_fs w p) as [-> | ->]; [done|].
  intros Hq. apply lookup_delete_Some in Hq. tauto.
Qed.

Lemma fold_only_removed {S : Type} (world : S -> World) (step : S -> path -> S) :
  (forall s p, only_removed (world s) (world (step s p))) ->
  forall paths s, only_removed (world s) (world (fold_left step paths s)).
Proof.
  intros Hstep. induction paths as [|p r IH]; intros s; [apply only_removed_refl|].
  cbn [fold_left]. eapply only_removed_trans; [apply Hstep | apply IH].
Qed.

Section OnlyDeletes.

Context (E : Extern) (I : Imports).

Lemma os_remove_only_removed (w w1 : World) (p : path) (d : bool) :
  os_remove w p = (w1, d) -> only_removed w w1.
Proof. intros ->%os_remove_try. apply try_remove_only_removed. Qed.

Lemma stage1_only_removed cfg w stats paths :
  jpg_only cfg && PIL_OK I = false ->
  only_removed w (stage1 E I cfg w stats paths).1.1.
Proof.
  intros Hnc. unfold stage1.
  apply (fold_only_removed (fun s : World * CleanStats * list path => s.1.1)).
  intros [[w' st] kept] p. cbn [fst]. unfold stage1_step. rewrite Hnc.
  destruct (negb _ && PIL_OK I).
  { destruct (os_remove w' p) as [w1 d] eqn:Hr. cbn [fst].
    by apply (os_remove_only_removed _ _ _ _ Hr). }
  destruct (cv2_read_size E w' p) as [wd ht].
  destruct ((wd =? 0) || (ht =? 0) || (Z.min wd ht <? min_side cfg));
    [|apply only_removed_refl].
  destruct (os_remove w' p) as [w1 d] eqn:Hr. cbn [fst].
  by apply (os_remove_only_removed _ _ _ _ Hr).
Qed.

Lemma stage2_only_removed cf w stats paths :
  only_removed w (stage2 I cf w stats paths).1.1.
Proof.
  unfold stage2.
  apply (fold_only_removed (fun s : World * CleanStats * list path => s.1.1)).
  intros [[w' st] fl] p. cbn [fst]. unfold stage2_step.
  destruct (is_cat I cf w' p); cbn [fst];
    [apply only_removed_refl | apply try_remove_only_removed].
Qed.

Lemma stage3_only_removed w stats paths :
  only_removed w (stage3 E w stats paths).1.1.1.
Proof.
  unfold stage3.
  apply (fold_only_removed
           (fun s : World * CleanStats * gmap string path * list path => s.1.1.1)).
  intros [[[w' st] seen] out] p. cbn [fst]. unfold stage3_step.
  destruct (file_md5 E w' p) as [h|]; [destruct (bool_decide _)|]; cbn [fst];
    try apply only_removed_refl; apply try_remove_only_removed.
Qed.

Lemma stage4_only_removed thr cfg w stats paths :
  only_removed w (stage4 E I thr cfg w stats paths).1.1.
Proof.
  unfold stage4. destruct (near_dup_enabled I cfg); [|apply only_removed_refl].
  pose proof (fold_only_removed
           (fun s : World * CleanStats * list (path * Z) * list path => s.1.1.1)
           (stage4_step E I thr)) as Hfold.
  unfold stage4_loop.
  destruct (fold_left _ _ _) as [[[w1 st1] seen] final] eqn:Hloop. cbn [fst].
  specialize (Hfold) with (paths := paths) (s := (w, stats, [], [])).
  rewrite Hloop in Hfold. apply Hfold. clear.
  intros [[[w st] seen] final] p. cbn [fst]. unfold stage4_step.
  destruct (perceptual_hash E I w p) as [w1 oph] eqn:Hcall.
  pose proof (perceptual_hash_counts E I _ _ _ _ Hcall) as (_ & _ & _ & Hfs).
  assert (Hw1 : only_removed w w1) by (intros q f; by rewrite Hfs).
  destruct oph as [ph|]; [destruct (is_dup thr seen ph)|]; cbn [fst]; try done;
    (eapply only_removed_trans; [exact Hw1 | apply try_remove_only_removed]).
Qed.

Lemma run_only_removed (cfg : Config) (cf : CatFilter) (w : World) :
  jpg_only cfg && PIL_OK I = false ->
  only_removed w (clean_breed_folder E I cfg cf w).1.
Proof.
  intros Hnc. unfold clean_breed_folder, clean_with.
  set (stats := set_before stats0 _).
  pose proof (stage1_only_removed cfg w stats (list_images E w) Hnc) as H1.
  destruct (stage1 E I cfg w stats (list_images E w)) as [[w1 st1] kept].
  pose proof (stage2_only_removed cf w1 st1 kept) as H2.
  destruct (stage2 I cf w1 st1 kept) as [[w2 st2] fl].
  pose proof (stage3_only_removed w2 st2 fl) as H3.
  destruct (stage3 E w2 st2 fl) as [[[w3 st3] seen] out].
  pose proof (stage4_only_removed NEAR_DUP_THRESHOLD cfg w3 st3 out) as H4.
  destruct (stage4 E I NEAR_DUP_THRESHOLD cfg w3 st3 out) as [[w4 st4] final].
  cbn [fst] in *.
  eauto using only_removed_trans.
Qed.

(** X14: without [--jpg-only], or without Pillow, the cleaner only
    deletes: every file in the folder after the run was there before it
    with the same content and permissions, so nothing is created,
    renamed or rewritten. *)
Theorem cleaner_only_deletes (cfg : Config) (cf : CatFilter) (w : World)
    (q : path) (f : File) :
  jpg_only cfg && PIL_OK I = false ->
  w_fs (clean_breed_folder E I cfg cf w).1 !! q = Some f ->
  w_fs w !! q = Some f.
Proof. intros Hnc. by apply run_only_removed. Qed.

End OnlyDeletes.

Lemma cleaner_only_deletes_witness :
  w_fs NearDupRuns.four !! "c.jpg" = Some (NearDupRuns.cat 1984).
Proof.
  apply (cleaner_only_deletes Toy.libs Toy.all_ok Toy.cfg_plain Toy.cat_filter
           NearDupRuns.four "c.jpg" (NearDupRuns.cat 1984) eq_refl).
  by vm_compute.
Defined.

(** ** Running the cleaner twice *)

Section SecondRun.

Context (E : Extern) (I : Imports).









End SecondRun.


(** ** Crawling *)

Section CrawlFacts.

Context (E : Extern) (I : Imports) (C : Crawlers).

Lemma crawl_breed_shape (target_count : Z) (engine : Engine) (max_total : Z)
    (w : World) :
  let current := Z.of_nat (length (list_images E w)) in
  (target_count <= current \/ max_total <= 0 ->
     (crawl_breed E C target_count engine max_total w).2 = []
     /\ (crawl_breed E C target_count engine max_total w).1 = w)
  /\ (current < target_count -> 0 < max_total ->
      (crawl_breed E C target_count engine max_total w).2 <> []).
Proof.
  intros current. unfold crawl_breed. fold current.
  destruct (current >=? target_count) eqn:Hcur; [split; [done | lia]|].
  destruct (Z.min max_total (target_count - current) <=? 0) eqn:Hleft;
    [split; [done | lia]|].
  split; [lia|]. intros _ _.
  destruct engine; cbn [engine_in_auto_google engine_in_auto_bing].
  - destruct (google_crawl C _ w) as [w1 ok]. destruct ok; cbn [negb andb]; [done|].
    by destruct (bing_crawl C _ w1).
  - destruct (google_crawl C _ w) as [w1 ok]. by rewrite andb_false_r.
  - cbn [negb andb]. by destruct (bing_crawl C _ w).
Qed.

(** X15: [crawl_breed] asks a crawler for the number of files still
    missing, capped by [max_total], and never for less than one; it calls
    no crawler, and leaves the folder alone, when the folder already
    holds [target_count] listed files or [max_total] is not positive.
    Google is tried first unless the engine is [bing]; Bing is called
    only when the engine is not [google] and Google was not called or
    raised, so at most two calls are made and never Bing before Google. *)
Theorem crawl_breed_calls (target_count : Z) (engine : Engine) (max_total : Z)
    (w : World) :
  let current := Z.of_nat (length (list_images E w)) in
  let left := Z.min max_total (target_count - current) in
  let '(w', calls) := crawl_breed E C target_count engine max_total w in
  (forall c, c ∈ calls ->
     call_size c = left /\ 1 <= left <= max_total /\ current + left <= target_count)
  /\ (target_count <= current \/ max_total <= 0 -> calls = [] /\ w' = w)
  /\ (current < target_count -> 0 < max_total ->
      calls = match engine with
              | EngGoogle => [CallGoogle left]
              | EngBing => [CallBing left]
              | EngAuto =>
                  if (google_crawl C left w).2 then [CallGoogle left]
                  else [CallGoogle left; CallBing left]
              end).
Proof.
  intros current left. unfold crawl_breed. fold current. fold left.
  destruct (current >=? target_count) eqn:Hcur.
  { split; [intros c Hc; by apply elem_of_nil in Hc|]. split; [done|]. lia. }
  destruct (left <=? 0) eqn:Hleft.
  { split; [intros c Hc; by apply elem_of_nil in Hc|]. split; [done|]. lia. }
  assert (Hsize : 1 <= left <= max_total /\ current + left <= target_count) by lia.
  destruct engine; cbn [engine_in_auto_google engine_in_auto_bing].
  - destruct (google_crawl C left w) as [w1 ok] eqn:Hg. cbn [snd].
    destruct ok; cbn [negb andb].
    + split; [|split; [lia | done]].
      intros c ->%list_elem_of_singleton. by split.
    + destruct (bing_crawl C left w1) as [w2 ok2]. cbn [app].
      split; [|split; [lia | done]].
      intros c Hc. apply elem_of_cons in Hc as [-> | ->%list_elem_of_singleton];
        by split.
  - destruct (google_crawl C left w) as [w1 ok] eqn:Hg.
    rewrite andb_false_r.
    split; [|split; [lia | done]].
    intros c ->%list_elem_of_singleton. by split.
  - cbn [negb andb]. destruct (bing_crawl C left w) as [w2 ok2]. cbn [app].
    split; [|split; [lia | done]].
    intros c ->%list_elem_of_singleton. by split.
Qed.

(** X16: in the loop of [main] a crawler is called exactly when the
    folder holds fewer than [images_per_breed] listed files and
    [max_total] is positive, so the test at the head of [crawl_breed]
    never fires there; the folder is cleaned in either case, and when no
    crawler is called the result is that of cleaning the folder as it
    was. *)
Theorem process_breed_crawls_iff (images_per_breed : Z) (engine : Engine)
    (max_total : Z) (cfg : Config) (cf : CatFilter) (w : World) :
  let existing := Z.of_nat (length (list_images E w)) in
  let '(w', calls, stats) :=
    process_breed E I C images_per_breed engine max_total cfg cf w in
  (calls <> [] <-> existing < images_per_breed /\ 0 < max_total)
  /\ (calls = [] -> (w', stats) = clean_breed_folder E I cfg cf w).
Proof.
  intros existing. unfold process_breed. fold existing.
  pose proof (crawl_breed_shape images_per_breed engine max_total w) as Hc.
  fold existing in Hc.
  destruct (existing <? images_per_breed) eqn:Hex.
  - destruct (crawl_breed E C images_per_breed engine max_total w) as [w1 calls].
    cbn [fst snd] in Hc. destruct Hc as (Hskip & Hcall).
    destruct (clean_breed_folder E I cfg cf w1) as [w2 stats] eqn:Hclean.
    split.
    + split.
      * intros Hne. split; [lia|].
        destruct (Z.le_gt_cases max_total 0) as [Hm | Hm]; [|lia].
        by destruct (Hskip (or_intror Hm)).
      * intros [_ Hm]. apply Hcall; lia.
    + intros Hnil. destruct (Z.le_gt_cases max_total 0) as [Hm | Hm].
      * destruct (Hskip (or_intror Hm)) as [_ ->]. by rewrite Hclean.
      * exfalso. apply Hcall; [lia | lia | done].
  - destruct (clean_breed_folder E I cfg cf w) as [w2 stats].
    split; [|done]. split; [done | lia].
Qed.

End CrawlFacts.

(** ** The manifest *)

Section ManifestFacts.

Context (E : Extern) (I : Imports).

Lemma scan_folder_rows (m : Z) (breed : string) (w : World) (r : ManifestRow) :
  r ∈ scan_folder E m breed w ->
  exists (name : path) (d : bytes),
    name ∈ list_images E w
    /\ read_file w name = Some d
    /\ cv2_read_size E w name = (row_width r, row_height r)
    /\ m <= Z.min (row_width r) (row_height r)
    /\ r = mkRow breed (Slug.slugify breed)
                 (String.append (Slug.slugify breed) (String.append "/" name))
                 (row_width r) (row_height r) (md5_hex E d).
Proof.
  unfold scan_folder. rewrite list_elem_of_In, in_flat_map.
  intros (name & Hname & Hr). exists name.
  destruct (cv2_read_size E w name) as [wd ht] eqn:Hsz.
  destruct (Z.min wd ht <? m) eqn:Hmin; [destruct Hr|].
  unfold file_md5 in Hr. destruct (read_file w name) as [d|]; [|destruct Hr].
  destruct Hr as [<- | []]. exists d. cbn [row_width row_height].
  split; [by apply list_elem_of_In|]. repeat split; lia.
Qed.

(** X17: every row of the manifest describes a file that is there: it
    belongs to a breed of [CAT_BREEDS] whose folder exists, [list_images]
    lists it in that folder, it can be read, the row holds the size
    OpenCV reports for it and the digest of its bytes, its smaller side is
    at least [min_side], and its path is the slug, a slash and the file
    name. *)
Theorem manifest_rows_sound (CAT_BREEDS : list string)
    (dataset : gmap string (gmap string File)) (m : Z) (r : ManifestRow) :
  r ∈ scan_and_manifest E CAT_BREEDS dataset m ->
  exists (fs : gmap string File) (name : path) (d : bytes),
    row_breed r ∈ CAT_BREEDS
    /\ row_breed_slug r = Slug.slugify (row_breed r)
    /\ dataset !! row_breed_slug r = Some fs
    /\ name ∈ list_images E (mkWorld fs [])
    /\ read_file (mkWorld fs []) name = Some d
    /\ row_path r = String.append (row_breed_slug r) (String.append "/" name)
    /\ cv2_read_size E (mkWorld fs []) name = (row_width r, row_height r)
    /\ m <= Z.min (row_width r) (row_height r)
    /\ row_md5 r = md5_hex E d.
Proof.
  unfold scan_and_manifest. rewrite list_elem_of_In, in_flat_map.
  intros (breed & Hb & Hr).
  destruct (dataset !! Slug.slugify breed) as [fs|] eqn:Hfs; [|destruct Hr].
  apply list_elem_of_In, scan_folder_rows in Hr
    as (name & d & Hname & Hd & Hsz & Hmin & ->).
  cbn [row_breed row_breed_slug row_path row_md5 row_width row_height] in *.
  exists fs, name, d. repeat split; try done; try lia. by apply list_elem_of_In.
Qed.

Lemma scan_folder_all (m : Z) (breed : string) (w : World) (l : list path) :
  (forall p, In p l ->
     (let '(wd, ht) := cv2_read_size E w p in Z.min wd ht <? m) = false
     /\ has_digest (file_md5 E w) p = true) ->
  map row_path
    (flat_map (fun p =>
       let '(wd, ht) := cv2_read_size E w p in
       if Z.min wd ht <? m then []
       else match file_md5 E w p with
            | None => []
            | Some md5 =>
                [mkRow breed (Slug.slugify breed)
                       (String.append (Slug.slugify breed) (String.append "/" p))
                       wd ht md5]
            end) l)
  = map (fun p => String.append (Slug.slugify breed) (String.append "/" p)) l.
Proof.
  induction l as [|p r IH]; intros Hall; [done|].
  cbn [flat_map map]. rewrite map_app, IH by (intros q Hq; apply Hall; by right).
  destruct (Hall p (or_introl eq_refl)) as [Hsz Hdig].
  unfold has_digest in Hdig.
  destruct (cv2_read_size E w p) as [wd ht]. rewrite Hsz.
  destruct (file_md5 E w p) as [h|]; [done | discriminate].
Qed.

(** For a folder the cleaner has nothing to do in, the loop over its
    files yields one row per listed file, in the order of the listing, and
    as many rows as the [after] the cleaner reports for it. *)
Lemma scan_folder_of_settled (cfg : Config) (cf : CatFilter)
    (breed : string) (w : World) :
  settled E I cfg cf w = true ->
  map row_path (scan_folder E (min_side cfg) breed w)
  = map (fun p => String.append (Slug.slugify breed) (String.append "/" p))
        (list_images E w)
  /\ length (scan_folder E (min_side cfg) breed w)
     = after (clean_breed_folder E I cfg cf w).2.
Proof.
  intros Hs.
  assert (Hrows : map row_path (scan_folder E (min_side cfg) breed w)
            = map (fun p => String.append (Slug.slugify breed) (String.append "/" p))
                  (list_images E w)).
  { unfold scan_folder. apply scan_folder_all. intros p Hp.
    unfold settled in Hs. rewrite !andb_true_iff in Hs.
    destruct Hs as [[Hall _] _]. rewrite forallb_forall in Hall.
    specialize (Hall p Hp). unfold file_settled in Hall.
    rewrite !andb_true_iff in Hall. destruct Hall as [[[Hok _] _] Hdig].
    split; [|done]. unfold stage1_ok in Hok.
    apply andb_true_iff in Hok as [_ Hok].
    destruct (cv2_read_size E w p) as [wd ht].
    apply negb_true_iff, orb_false_iff in Hok. tauto. }
  split; [done|].
  destruct (settled_run E I cfg cf w Hs) as (w' & -> & _). cbn [snd after].
  by rewrite <- (length_map row_path), Hrows, length_map.
Qed.

Lemma scan_folder_breed (m : Z) (breed b : string) (w : World) :
  rows_of_breed b (scan_folder E m breed w)
  = if String.eqb breed b then scan_folder E m breed w else [].
Proof.
  unfold rows_of_breed.
  assert (Hall : forall r, In r (scan_folder E m breed w) -> row_breed r = breed).
  { intros r Hr. apply list_elem_of_In, scan_folder_rows in Hr
      as (name & d & _ & _ & _ & _ & ->). reflexivity. }
  induction (scan_folder E m breed w) as [|r rows IH].
  - by destruct (String.eqb breed b).
  - cbn [List.filter]. rewrite (Hall r) by (by left).
    rewrite IH by (intros r' Hr'; apply Hall; by right).
    by destruct (String.eqb breed b).
Qed.

Lemma scan_and_manifest_cons (breeds : list string) (breed : string)
    (dataset : gmap string (gmap string File)) (m : Z) :
  scan_and_manifest E (breed :: breeds) dataset m
  = match dataset !! Slug.slugify breed with
    | None => []
    | Some fs => scan_folder E m breed (mkWorld fs [])
    end ++ scan_and_manifest E breeds dataset m.
Proof. reflexivity. Qed.

(** X18: when every breed folder that exists is one the cleaner has
    nothing to do in, the manifest has, for each entry of [CAT_BREEDS]
    in turn, one row per listed file of the folder of that entry, so that
    the number of rows is the sum over the entries of the [after] the
    cleaner reports for their folders.  An entry counts as often as it
    occurs: the rows written for a breed are as many as the [after] of
    its folder times the number of its occurrences in [CAT_BREEDS]. *)
Theorem manifest_of_settled_dataset (cfg : Config) (cf : CatFilter)
    (breeds : list string) (dataset : gmap string (gmap string File)) :
  (forall breed fs,
     breed ∈ breeds -> dataset !! Slug.slugify breed = Some fs ->
     settled E I cfg cf (mkWorld fs []) = true) ->
  let manifest := scan_and_manifest E breeds dataset (min_side cfg) in
  map row_path manifest
  = flat_map (fun breed =>
      match dataset !! Slug.slugify breed with
      | None => []
      | Some fs =>
          map (fun p => String.append (Slug.slugify breed) (String.append "/" p))
              (list_images E (mkWorld fs []))
      end) breeds
  /\ length manifest
     = list_sum (map (folder_after E I cfg cf dataset) breeds)
  /\ (forall b,
        length (rows_of_breed b manifest)
        = (count_occ string_dec breeds b * folder_after E I cfg cf dataset b)%nat).
Proof.
  intros Hs manifest. subst manifest.
  induction breeds as [|breed breeds IH].
  - by repeat split.
  - destruct IH as (IHp & IHl & IHb).
    { intros b fs Hb. apply Hs. by right. }
    rewrite scan_and_manifest_cons.
    assert (Hhead : forall fs, dataset !! Slug.slugify breed = Some fs ->
              map row_path (scan_folder E (min_side cfg) breed (mkWorld fs []))
              = map (fun p => String.append (Slug.slugify breed)
                                            (String.append "/" p))
                    (list_images E (mkWorld fs []))
              /\ length (scan_folder E (min_side cfg) breed (mkWorld fs []))
                 = after (clean_breed_folder E I cfg cf (mkWorld fs [])).2).
    { intros fs Hfs. apply scan_folder_of_settled, (Hs breed fs); [by left | done]. }
    split; [|split].
    + rewrite map_app, IHp. cbn [flat_map]. f_equal.
      destruct (dataset !! Slug.slugify breed) as [fs|]; [|done].
      by destruct (Hhead fs eq_refl).
    + rewrite length_app, IHl. cbn [map list_sum fold_right]. f_equal.
      unfold folder_after.
      destruct (dataset !! Slug.slugify breed) as [fs|]; [|done].
      by destruct (Hhead fs eq_refl).
    + intros b. unfold rows_of_breed in *. rewrite List.filter_app, length_app, IHb.
      cbn [count_occ].
      assert (Hrows : length (List.filter (fun r => String.eqb (row_breed r) b)
                match dataset !! Slug.slugify breed with
                | None => []
                | Some fs => scan_folder E (min_side cfg) breed (mkWorld fs [])
                end)
              = if String.eqb breed b
                then folder_after E I cfg cf dataset breed else O).
      { unfold folder_after.
        destruct (dataset !! Slug.slugify breed) as [fs|];
          [|by destruct (String.eqb breed b)].
        pose proof (scan_folder_breed (min_side cfg) breed b (mkWorld fs [])) as Hb.
        unfold rows_of_breed in Hb. rewrite Hb.
        destruct (String.eqb breed b); [|done]. by destruct (Hhead fs eq_refl). }
      rewrite Hrows.
      destruct (string_dec breed b) as [->|Hne].
      * rewrite String.eqb_refl. lia.
      * apply String.eqb_neq in Hne. rewrite Hne. lia.
Qed.

End ManifestFacts.

Lemma manifest_rows_sound_witness :
  let breeds := ["Abyssinian cat"; "Bengal cat"] in
  let dataset : gmap string (gmap string File) :=
    {[ "abyssinian_cat" := w_fs Reruns.two_jpgs ]} in
  let r := mkRow "Abyssinian cat" "abyssinian_cat" "abyssinian_cat/b.jpg" 300 300
                 (Toy.digest (Toy.image 300 300 282 80 65535)) in
  exists (fs : gmap string File) (name : path) (d : bytes),
    dataset !! "abyssinian_cat" = Some fs
    /\ name ∈ list_images Toy.libs (mkWorld fs [])
    /\ read_file (mkWorld fs []) name = Some d
    /\ row_md5 r = Toy.digest d.
Proof.
  intros breeds dataset r.
  destruct (manifest_rows_sound Toy.libs breeds dataset 128 r)
    as (fs & name & d & _ & _ & Hfs & Hname & Hd & _ & _ & _ & Hmd5).
  - apply list_elem_of_In. vm_compute. right. left. reflexivity.
  - exists fs, name, d. repeat split; done.
Defined.

(** ["Dwelf cat"] stands twice in [CAT_BREEDS], and no other name does;
    no two names share a folder otherwise, and no slug is empty. *)
Example dwelf_cat_is_listed_twice :
  length CAT_BREEDS = 268%nat
  /\ count_occ string_dec CAT_BREEDS "Dwelf cat" = 2%nat
  /\ length (remove_dups CAT_BREEDS) = 267%nat
  /\ length (remove_dups (map Slug.slugify CAT_BREEDS)) = 267%nat
  /\ forallb (fun b => negb (String.eqb (Slug.slugify b) "")) CAT_BREEDS = true.
Proof. repeat split; vm_compute; reflexivity. Qed.

(** With two photographs in [dwelf_cat] and no other folder, the cleaner
    reports [after = 2] and the manifest has four rows. *)
Lemma manifest_of_settled_dataset_witness :
  let dataset : gmap string (gmap string File) :=
    {[ "dwelf_cat" := w_fs Reruns.two_jpgs ]} in
  let manifest := scan_and_manifest Toy.libs CAT_BREEDS dataset 128 in
  after (clean_breed_folder Toy.libs Toy.all_ok Toy.cfg_plain Toy.cat_filter
           Reruns.two_jpgs).2 = 2%nat
  /\ length manifest = 4%nat
  /\ length (rows_of_breed "Dwelf cat" manifest) = 4%nat.
Proof.
  intros dataset manifest.
  destruct (manifest_of_settled_dataset Toy.libs Toy.all_ok Toy.cfg_plain
              Toy.cat_filter CAT_BREEDS dataset) as (_ & Hlen & Hrows).
  - intros breed fs _ Hfs.
    assert (Hfs' : fs = w_fs Reruns.two_jpgs).
    { destruct (decide (Slug.slugify breed = "dwelf_cat")) as [He | Hne].
      - rewrite He in Hfs. unfold dataset in Hfs.
        rewrite lookup_singleton_eq in Hfs. by injection Hfs.
      - unfold dataset in Hfs. by rewrite lookup_singleton_ne in Hfs. }
    subst fs. by vm_compute.
  - split; [by vm_compute|]. split.
    + etrans; [exact Hlen|]. by vm_compute.
    + etrans; [exact (Hrows "Dwelf cat")|]. by vm_compute.
Defined.

(** ** The report and the filter *)

(** X19: the report's [is_cat_filter_enabled] says more than the filter
    does: the filter built by [main] classifies exactly when the report
    says so and MobileNetV2 could be loaded; when loading raised, the
    report still says [true] while the filter lets every file through.
    Whenever the report says [false], every file is let through. *)
Theorem report_overstates_filter (E : Extern) (I : Imports) (thr : Q)
    (no_is_cat : bool) :
  let cf := CatFilter_init E I thr no_is_cat in
  filter_active cf
  = report_is_cat_filter_enabled I no_is_cat
    && bool_decide (is_Some (mobilenet_v2 E))
  /\ (filter_active cf = false -> forall w p, is_cat I cf w p = true)
  /\ (report_is_cat_filter_enabled I no_is_cat = false ->
      forall w p, is_cat I cf w p = true)
  /\ threshold cf = thr.
Proof.
  intros cf. subst cf.
  unfold CatFilter_init, report_is_cat_filter_enabled, filter_active, is_cat.
  destruct no_is_cat, (TF_OK I); cbn [negb orb andb];
    try (by repeat split).
  destruct (mobilenet_v2 E) as [m|]; cbn [disabled model threshold negb andb].
  - split; [by rewrite bool_decide_eq_true_2|]. by repeat split.
  - split; [by rewrite bool_decide_eq_false_2; [|intros [? ?]]|]. by repeat split.
Qed.

(** ** A path that reaches stage 3 twice *)

Section RepeatedPath.

Context (E : Extern).

Lemma stage3_step_only_removed (s : Stage3State) (p : path) :
  only_removed s.1.1.1 (stage3_step E s p).1.1.1.
Proof.
  destruct s as [[[w st] seen] out]. cbn [fst]. unfold stage3_step.
  destruct (file_md5 E w p) as [h|]; [destruct (bool_decide _)|]; cbn [fst];
    try apply only_removed_refl; apply try_remove_only_removed.
Qed.

Lemma scan3_only_removed (l : list path) (s : Stage3State) :
  only_removed s.1.1.1 (scan3 E l s).1.1.1.
Proof.
  apply (fold_only_removed (fun s : Stage3State => s.1.1.1)), stage3_step_only_removed.
Qed.

Lemma only_removed_gone (w0 w1 : World) (q : path) :
  only_removed w0 w1 -> w_fs w0 !! q = None -> w_fs w1 !! q = None.
Proof.
  intros H Hq. destruct (w_fs w1 !! q) as [f|] eqn:Hf; [|done].
  apply H in Hf. congruence.
Qed.

Lemma scan3_seen_grows (l : list path) : forall (s : Stage3State) (h : string),
  is_Some (s.1.2 !! h) -> is_Some ((scan3 E l s).1.2 !! h).
Proof.
  induction l as [|p r IH]; intros s h Hs; [done|].
  unfold scan3. cbn [fold_left]. apply IH.
  destruct s as [[[w st] seen] out]. cbn [fst snd] in *. unfold stage3_step.
  destruct (file_md5 E w p) as [h'|]; [destruct (bool_decide _)|]; cbn [fst snd];
    try done.
  apply lookup_insert_is_Some. destruct (decide (h' = h)); auto.
Qed.

Lemma scan3_out_grows (l : list path) : forall (s : Stage3State) (q : path),
  q ∈ s.2 -> q ∈ (scan3 E l s).2.
Proof.
  induction l as [|p r IH]; intros s q Hs; [done|].
  unfold scan3. cbn [fold_left]. apply IH.
  destruct s as [[[w st] seen] out]. cbn [fst snd] in *. unfold stage3_step.
  destruct (file_md5 E w p) as [h'|]; [destruct (bool_decide _)|]; cbn [fst snd];
    try done.
  apply elem_of_app. by left.
Qed.

(** One iteration on an unlocked [p]: the file is gone, or it stays and
    its digest is on record with [p] handed on. *)
Lemma stage3_step_on (s : Stage3State) (p : path) :
  (forall f, w_fs s.1.1.1 !! p = Some f -> f_locked f = false) ->
  w_fs (stage3_step E s p).1.1.1 !! p = None
  \/ exists h,
       file_md5 E s.1.1.1 p = Some h
       /\ s.1.2 !! h = None
       /\ is_Some ((stage3_step E s p).1.2 !! h)
       /\ w_fs (stage3_step E s p).1.1.1 = w_fs s.1.1.1
       /\ p ∈ (stage3_step E s p).2.
Proof.
  destruct s as [[[w st] seen] out]. cbn [fst snd]. intros Hlock.
  unfold stage3_step. destruct (file_md5 E w p) as [h|]; cbn [fst snd].
  - destruct (bool_decide (is_Some (seen !! h))) eqn:Hseen; cbn [fst snd].
    + left. by apply try_remove_gone.
    + right. exists h. apply bool_decide_eq_false in Hseen.
      split; [done|]. split; [by apply eq_None_not_Some|].
      split; [rewrite lookup_insert_eq; by eexists|]. split; [done|].
      apply elem_of_app. right. by apply list_elem_of_singleton.
  - left. by apply try_remove_gone.
Qed.

(** While the paths [l] are scanned from the start, every digest on
    record is the digest some path of [l] had on entry. *)
Lemma scan3_seen_from (w : World) (stats : CleanStats) (l : list path) (h : string) :
  is_Some ((stage3 E w stats l).1.2 !! h) ->
  exists c, c ∈ l /\ file_md5 E w c = Some h.
Proof.
  induction l as [|p pre IH] using rev_ind.
  - cbn. rewrite lookup_empty. by intros [? ?].
  - rewrite stage3_snoc.
    pose proof (scan3_only_removed pre (w, stats, ∅, [])) as Honly.
    fold (stage3 E w stats pre) in Honly. change (scan3 E pre _) with (stage3 E w stats pre) in Honly.
    destruct (stage3 E w stats pre) as [[[w' st] seen] out]. cbn [fst snd] in *.
    unfold stage3_step.
    destruct (file_md5 E w' p) as [h'|] eqn:Hmd5;
      [destruct (bool_decide _)|]; cbn [fst snd].
    + intros Hs. destruct (IH Hs) as (c & Hc & Hd).
      exists c. split; [apply elem_of_app; by left | done].
    + intros [Heq | Hs]%lookup_insert_is_Some'.
      * subst h'. exists p. split; [apply elem_of_app; right; by apply list_elem_of_singleton|].
        unfold file_md5, read_file in *.
        destruct (w_fs w' !! p) as [f|] eqn:Hf; [|discriminate].
        by rewrite (Honly p f Hf).
      * destruct (IH Hs) as (c & Hc & Hd).
        exists c. split; [apply elem_of_app; by left | done].
    + intros Hs. destruct (IH Hs) as (c & Hc & Hd).
      exists c. split; [apply elem_of_app; by left | done].
Qed.

Lemma scan3_untouched (w : World) (stats : CleanStats) (l : list path) (q : path) :
  q ∉ l -> w_fs (stage3 E w stats l).1.1.1 !! q = w_fs w !! q.
Proof.
  induction l as [|p pre IH] using rev_ind; [done|].
  rewrite not_elem_of_app, list_elem_of_singleton. intros [Hq Hne].
  rewrite stage3_snoc. specialize (IH Hq).
  destruct (stage3 E w stats pre) as [[[w' st] seen] out]. cbn [fst snd] in *.
  unfold stage3_step.
  destruct (file_md5 E w' p) as [h'|]; [destruct (bool_decide _)|]; cbn [fst snd];
    try done; rewrite try_remove_lookup_other; done.
Qed.

(** X20: stage 3 tells files apart by digest alone, so a path that
    reaches it a second time is a duplicate of itself: the file is
    deleted (when it can be), and when the path was the first with its
    digest it is still handed on to stage 4 although nothing is left
    under that name.  Stage 1 produces such a list when it converts two
    files of the same base name to one [.jpg]. *)
Theorem stage3_repeated_path (w : World) (stats : CleanStats)
    (pre mid post : list path) (p : path) :
  (forall f, w_fs w !! p = Some f -> f_locked f = false) ->
  let '(w', _, _, md5_filtered) :=
    stage3 E w stats (pre ++ p :: mid ++ p :: post) in
  w_fs w' !! p = None
  /\ (forall h, file_md5 E w p = Some h ->
        (forall c, c ∈ pre -> file_md5 E w c <> Some h) ->
        p ∈ md5_filtered).
Proof.
  intros Hlock.
  assert (Hsplit : stage3 E w stats (pre ++ p :: mid ++ p :: post)
            = scan3 E post (stage3_step E
                (scan3 E mid (stage3_step E (stage3 E w stats pre) p)) p)).
  { unfold stage3, scan3.
    change (p :: mid ++ p :: post) with ([p] ++ mid ++ [p] ++ post).
    by rewrite !fold_left_app. }
  rewrite Hsplit. clear Hsplit.
  pose proof (scan3_only_removed pre (w, stats, ∅, [])) as O1.
  change (scan3 E pre _) with (stage3 E w stats pre) in O1.
  pose proof (fun h => scan3_seen_from w stats pre h) as Hfrom.
  pose proof (scan3_untouched w stats pre p) as Hunt.
  set (s1 := stage3 E w stats pre) in *. cbn [fst] in O1.
  pose proof (stage3_step_only_removed s1 p) as O2.
  set (s2 := stage3_step E s1 p) in *.
  pose proof (scan3_only_removed mid s2) as O3.
  pose proof (scan3_seen_grows mid s2) as G3.
  pose proof (scan3_out_grows mid s2 p) as U3.
  set (s3 := scan3 E mid s2) in *.
  pose proof (stage3_step_only_removed s3 p) as O4.
  pose proof (scan3_out_grows [p] s3 p) as U4.
  change (scan3 E [p] s3) with (stage3_step E s3 p) in U4.
  pose proof (scan3_only_removed post (stage3_step E s3 p)) as O5.
  pose proof (scan3_out_grows post (stage3_step E s3 p) p) as U5.
  assert (L1 : forall f, w_fs s1.1.1.1 !! p = Some f -> f_locked f = false).
  { intros f Hf. apply Hlock. by apply O1. }
  assert (L3 : forall f, w_fs s3.1.1.1 !! p = Some f -> f_locked f = false).
  { intros f Hf. apply L1. by apply O2, O3. }
  pose proof (stage3_step_on s1 p L1) as D1. fold s2 in D1.
  assert (Hgone : w_fs (stage3_step E s3 p).1.1.1 !! p = None).
  { destruct D1 as [Hg | (h & Hmd5 & _ & Hseen & Hfs & _)].
    - apply (only_removed_gone _ _ _ O4). by apply (only_removed_gone _ _ _ O3).
    - destruct (w_fs s3.1.1.1 !! p) as [f|] eqn:Hf;
        [|by apply (only_removed_gone _ _ _ O4)].
      assert (Hmd5' : file_md5 E s3.1.1.1 p = Some h).
      { rewrite <- Hmd5. apply file_md5_same_file.
        rewrite Hf. symmetry. rewrite <- Hfs. by apply O3. }
      specialize (G3 h Hseen). clearbody s3. clear -Hmd5' G3 L3 Hf.
      destruct s3 as [[[w3 st3] seen3] out3]. cbn [fst snd] in *.
      unfold stage3_step. rewrite Hmd5'.
      rewrite bool_decide_eq_true_2 by done. cbn [fst].
      apply try_remove_gone. intros f0 Hf0. apply L3. by rewrite <- Hf. }
  destruct (scan3 E post (stage3_step E s3 p)) as [[[w5 st5] seen5] out5] eqn:H5.
  cbn [fst snd] in *. split; [by apply (only_removed_gone _ _ _ O5)|].
  intros h Hmd5 Hfirst.
  assert (Hp : p ∉ pre) by (intros Hin; by apply (Hfirst p Hin)).
  apply U5, U4, U3.
  destruct D1 as [Hg | (h' & Hmd5' & Hnone & _ & _ & Hout)]; [|done].
  exfalso.
  assert (Hsame : file_md5 E s1.1.1.1 p = Some h).
  { rewrite <- Hmd5. apply file_md5_same_file. by apply Hunt. }
  assert (Hnot : s1.1.2 !! h = None).
  { apply eq_None_not_Some. intros Hs. destruct (Hfrom h Hs) as (c & Hc & Hd).
    by apply (Hfirst c Hc). }
  clearbody s1. subst s2. clear -Hg Hsame Hnot.
  destruct s1 as [[[w1 st1] seen1] out1]. cbn [fst snd] in *.
  unfold stage3_step in Hg. rewrite Hsame in Hg.
  rewrite bool_decide_eq_false_2 in Hg by (rewrite Hnot; by intros [? ?]).
  cbn [fst] in Hg. unfold file_md5, read_file in Hsame. by rewrite Hg in Hsame.
Qed.

End RepeatedPath.

Lemma pick_world_out {P : World -> list path -> Prop} (r : Stage3State) :
  (let '(w', _, _, o) := r in P w' o) -> P r.1.1.1 r.2.
Proof. by destruct r as [[[? ?] ?] ?]. Qed.

Lemma stage3_repeated_path_witness :
  let w := Toy.folder [("a.jpg", Toy.file [1; 200; 200; 281; 90; 3; 0])] in
  w_fs (stage3 Toy.libs w stats0 ["a.jpg"; "a.jpg"]).1.1.1 !! "a.jpg" = None
  /\ ("a.jpg" : path) ∈ (stage3 Toy.libs w stats0 ["a.jpg"; "a.jpg"]).2.
Proof.
  intros w.
  assert (Hlock : forall f, w_fs w !! "a.jpg" = Some f -> f_locked f = false).
  { intros f Hf. vm_compute in Hf. by injection Hf as <-. }
  pose proof (stage3_repeated_path Toy.libs w stats0 [] [] [] "a.jpg" Hlock) as H3.
  apply (pick_world_out (P := fun w' o =>
           w_fs w' !! "a.jpg" = None
           /\ forall h, file_md5 Toy.libs w "a.jpg" = Some h ->
                (forall c, c ∈ [] -> file_md5 Toy.libs w c <> Some h) ->
                ("a.jpg" : path) ∈ o)) in H3.
  destruct H3 as [Hgone Hout]. split; [exact Hgone|].
  apply (Hout (Toy.digest [1; 200; 200; 281; 90; 3; 0])).
  - reflexivity.
  - intros c Hc. by apply elem_of_nil in Hc.
Defined.

(** A photograph stored as [a.png] and as [a.bmp], cleaned with
    [--jpg-only]: stage 1 turns both into [a.jpg] and hands that path on
    twice, and the folder ends up empty. *)
Example same_base_conversions_collide :
  (stage1 Toy.libs Toy.all_ok Toy.cfg_jpg Reruns.twins stats0
          (list_images Toy.libs Reruns.twins)).2 = ["a.jpg"; "a.jpg"]
  /\ w_fs (clean_breed_folder Toy.libs Toy.all_ok Toy.cfg_jpg Toy.cat_filter
                              Reruns.twins).1 = ∅.
Proof. split; vm_compute; reflexivity. Qed.

(** ** The statistics of a run *)

(** X21: in every configuration [before] is the number of listed files,
    [after] and the five removal counters together never exceed it, and
    they fall short of it by at most the number of [os.remove] calls that
    raised during the run. *)
Theorem cleaner_accounting_bounds (E : Extern) (I : Imports) (cfg : Config)
    (cf : CatFilter) (w : World) :
  let '(w', s) := clean_breed_folder E I cfg cf w in
  before s = length (list_images E w)
  /\ (after s + removed_small s + removed_broken s + removed_notcat s
      + removed_dup_md5 s + removed_dup_phash s <= before s)%nat
  /\ (before s - (after s + removed_small s + removed_broken s + removed_notcat s
                  + removed_dup_md5 s + removed_dup_phash s)
      <= nfail w' - nfail w)%nat.
Proof.
  unfold clean_breed_folder.
  pose proof (accounting_bounds E I NEAR_DUP_THRESHOLD cfg cf w) as H.
  destruct (clean_with E I NEAR_DUP_THRESHOLD cfg cf w) as [w' s].
  unfold removed_total in H. lia.
Qed.
